(** * Citation graph: identity resolution, merging and aggregation

    A shallow embedding of the identity/merge/count/graph logic of the
    citation-graph scripts ([analyze_citations.py], [visualize_citations.py]
    and the merge step of [get_citations.py]), with the properties of the
    design document checked against it.

    The scripts work on documents read with [json.load], so values are
    modelled as JSON values with Python's dynamic behaviour: truthiness,
    [dict.get], attribute errors on values of the wrong type.  Exceptions
    are explicit results. *)

From Stdlib Require Import String Ascii ZArith NArith List Lia.
From stdpp Require Import base numbers list gmap pretty sorting.

#[global] Set Warnings "-clear-no-such-hyp".

Open Scope Z_scope.
Open Scope list_scope.

(** ** Python run-time model *)

Module Py.

(** Exceptions the modelled code can raise. *)
Inductive exn := AttributeError | TypeError | KeyError.

Inductive result (A : Type) : Type :=
| Ok (a : A)
| Raise (e : exn).
Arguments Ok {A} a.
Arguments Raise {A} e.

Definition bind {A B} (m : result A) (f : A -> result B) : result B :=
  match m with
  | Ok a => f a
  | Raise e => Raise e
  end.

Definition is_ok {A} (m : result A) : bool :=
  match m with Ok _ => true | Raise _ => false end.

(** A [str] is a sequence of Unicode code points. *)
Definition pystr := list N.

(** ASCII literal of the source as a [str]. *)
Definition lit (s : string) : pystr :=
  map N_of_ascii (list_ascii_of_string s).

Definition SPACE : N := 32%N.

(** [str.isspace] on one code point: the code points for which CPython's
    [str.split()] and [str.strip()] treat a character as white space. *)
Definition is_space (c : N) : bool :=
  ((9 <=? c) && (c <=? 13) || (28 <=? c) && (c <=? 32)
   || (c =? 133) || (c =? 160) || (c =? 5760)
   || (8192 <=? c) && (c <=? 8202)
   || (c =? 8232) || (c =? 8233) || (c =? 8239) || (c =? 8287)
   || (c =? 12288))%N.

(** [str.lower] on one code point.  The case pairs reproduced are those of
    ASCII and of the Latin-1 supplement; code points outside these blocks
    are left as they are (CPython uses the full Unicode table there). *)
Definition lower_char (c : N) : N :=
  if ((65 <=? c) && (c <=? 90)
      || (192 <=? c) && (c <=? 222) && negb (c =? 215))%N
  then (c + 32)%N else c.

Definition lower (s : pystr) : pystr := map lower_char s.

(** Zero digits of the Unicode decimal-digit blocks (category Nd): the
    characters matched by [\d] in a [str] pattern are [z .. z+9] for each. *)
Definition nd_zeros : list N :=
  [48; 1632; 1776; 1984; 2406; 2534; 2662; 2790; 2918; 3046; 3174; 3302;
   3430; 3558; 3664; 3792; 3872; 4160; 4240; 6112; 6160; 6470; 6608; 6784;
   6800; 6992; 7088; 7232; 7248; 42528; 43216; 43264; 43472; 43504; 43600;
   44016; 65296; 66720; 68912; 69734; 69872; 69942; 70096; 70384; 70736;
   70864; 71248; 71360; 71472; 71904; 72016; 72784; 73040; 73120; 92768;
   92864; 93008; 120782; 120792; 120802; 120812; 120822; 123200; 123632;
   125264; 130032]%N.

Definition is_digit (c : N) : bool :=
  existsb (fun z => (z <=? c) && (c <=? z + 9))%N nd_zeros.

(** [s.split()]: the maximal runs of characters that are not white space. *)
Fixpoint split_ws (s : pystr) : list pystr :=
  match s with
  | [] => []
  | c :: s' =>
      if is_space c then split_ws s'
      else match s' with
           | [] => [[c]]
           | d :: _ =>
               if is_space d then [c] :: split_ws s'
               else match split_ws s' with
                    | w :: ws => (c :: w) :: ws
                    | [] => [[c]]
                    end
           end
  end.

(** [sep.join(ws)]. *)
Fixpoint join (sep : pystr) (ws : list pystr) : pystr :=
  match ws with
  | [] => []
  | [w] => w
  | w :: ws' => w ++ sep ++ join sep ws'
  end.

Fixpoint take_while (p : N -> bool) (s : pystr) : pystr :=
  match s with
  | c :: s' => if p c then c :: take_while p s' else []
  | [] => []
  end.

Fixpoint drop_while (p : N -> bool) (s : pystr) : pystr :=
  match s with
  | c :: s' => if p c then drop_while p s' else s
  | [] => []
  end.

(** [s.strip()]. *)
Definition strip (s : pystr) : pystr :=
  rev (drop_while is_space (rev (drop_while is_space s))).

Fixpoint starts_with (pat s : pystr) : bool :=
  match pat, s with
  | [], _ => true
  | p :: pat', c :: s' => (p =? c)%N && starts_with pat' s'
  | _ :: _, [] => false
  end.

(** [s.replace(pat, by)]: occurrences are found left to right and do not
    overlap.  [fuel] bounds the number of steps; [length s] is enough. *)
Fixpoint replace_fuel (fuel : nat) (pat by_ s : pystr) : pystr :=
  match fuel with
  | O => s
  | S fuel' =>
      match s with
      | [] => []
      | c :: s' =>
          if starts_with pat s
          then by_ ++ replace_fuel fuel' pat by_ (drop (length pat) s)
          else c :: replace_fuel fuel' pat by_ s'
      end
  end.

Definition replace (pat by_ s : pystr) : pystr :=
  match pat with
  | [] => by_ ++ flat_map (fun c => c :: by_) s
  | _ :: _ => replace_fuel (length s) pat by_ s
  end.

(** [pat in s] on two strings. *)
Fixpoint contains (pat s : pystr) : bool :=
  starts_with pat s
  || match s with
     | [] => false
     | _ :: s' => contains pat s'
     end.

(** [s.split(sep)] for a non-empty [sep]: the parts between the
    occurrences of [sep], found left to right without overlap.  [cur]
    holds the characters of the current part, last first; [fuel] bounds
    the number of steps, [length s + 1] is enough. *)
Fixpoint split_fuel (fuel : nat) (sep s cur : pystr) : list pystr :=
  match fuel with
  | O => [rev cur ++ s]
  | S fuel' =>
      match s with
      | [] => [rev cur]
      | c :: s' =>
          if starts_with sep s
          then rev cur :: split_fuel fuel' sep (drop (length sep) s) []
          else split_fuel fuel' sep s' (c :: cur)
      end
  end.

Definition split_on (sep s : pystr) : list pystr :=
  split_fuel (S (length s)) sep s [].

(** [s[:stop]]: a negative [stop] counts from the end. *)
Definition slice_to {A} (stop : Z) (s : list A) : list A :=
  if (stop <? 0)%Z then take (Z.to_nat (Z.of_nat (length s) + stop)) s
  else take (Z.to_nat stop) s.

#[local] Set Warnings "-register-all".

(** JSON values as [json.load] produces them.  An object is the list of
    its bindings in insertion order, each key bound once. *)
Inductive json :=
| JNull
| JBool (b : bool)
| JNum (z : Z)
| JStr (s : pystr)
| JList (l : list json)
| JDict (d : list (list N * json)).

(** Truth value of an object in a condition. *)
Definition truthy (v : json) : bool :=
  match v with
  | JNull => false
  | JBool b => b
  | JNum z => negb (z =? 0)
  | JStr s => match s with [] => false | _ => true end
  | JList l => match l with [] => false | _ => true end
  | JDict d => match d with [] => false | _ => true end
  end.

Definition str_eqb (a b : pystr) : bool := bool_decide (a = b).

(** A [dict] keeps its keys in insertion order. *)
Definition odict (V : Type) := list (pystr * V).

Fixpoint od_lookup {V} (k : pystr) (d : odict V) : option V :=
  match d with
  | [] => None
  | (k', v) :: d' => if str_eqb k k' then Some v else od_lookup k d'
  end.

(** [d[k] = v]: a new key goes last, a bound key keeps its place. *)
Fixpoint od_set {V} (k : pystr) (v : V) (d : odict V) : odict V :=
  match d with
  | [] => [(k, v)]
  | (k', v') :: d' =>
      if str_eqb k k' then (k', v) :: d' else (k', v') :: od_set k v d'
  end.

(** Access [d[k]] on a [defaultdict]: a missing key is bound to [dflt]. *)
Definition od_touch {V} (k : pystr) (dflt : V) (d : odict V) : odict V :=
  match od_lookup k d with
  | Some _ => d
  | None => d ++ [(k, dflt)]
  end.

(** In-place change of the value bound to [k]. *)
Fixpoint od_alter {V} (f : V -> V) (k : pystr) (d : odict V) : odict V :=
  match d with
  | [] => []
  | (k', v) :: d' =>
      if str_eqb k k' then (k', f v) :: d' else (k', v) :: od_alter f k d'
  end.

Definition od_keys {V} (d : odict V) : list pystr := map fst d.
Definition od_values {V} (d : odict V) : list V := map snd d.

Definition dict_lookup : pystr -> odict json -> option json := od_lookup.

(** [obj.get(k, default)]; only a dict has the method. *)
Definition py_get (obj : json) (k : string) (default : json) : result json :=
  match obj with
  | JDict d => Ok (from_option id default (dict_lookup (lit k) d))
  | _ => Raise AttributeError
  end.

(** [obj[k]] on a dict. *)
Definition py_item (obj : json) (k : string) : result json :=
  match obj with
  | JDict d => match dict_lookup (lit k) d with
               | Some v => Ok v
               | None => Raise KeyError
               end
  | _ => Raise TypeError
  end.

(** [obj.lower()]; only a [str] has the method. *)
Definition py_lower (obj : json) : result pystr :=
  match obj with
  | JStr s => Ok (lower s)
  | _ => Raise AttributeError
  end.

(** The sequence a [for] loop over [obj] runs through. *)
Definition py_iter (obj : json) : result (list json) :=
  match obj with
  | JList l => Ok l
  | JStr s => Ok (map (fun c => JStr [c]) s)
  | JDict d => Ok (map (fun kv => JStr (fst kv)) d)
  | _ => Raise TypeError
  end.

(** [len(obj)]. *)
Definition py_len (obj : json) : result nat :=
  match obj with
  | JStr s => Ok (length s)
  | JList l => Ok (length l)
  | JDict d => Ok (length d)
  | _ => Raise TypeError
  end.

(** [obj.copy()]. *)
Definition py_copy (obj : json) : result json :=
  match obj with
  | JDict d => Ok (JDict d)
  | JList l => Ok (JList l)
  | _ => Raise AttributeError
  end.

Definition num_of_bool (b : bool) : Z := if b then 1 else 0.

(** [a == b]. *)
Fixpoint py_eq (a b : json) {struct a} : bool :=
  match a, b with
  | JNull, JNull => true
  | JBool x, JBool y => num_of_bool x =? num_of_bool y
  | JBool x, JNum y => num_of_bool x =? y
  | JNum x, JBool y => x =? num_of_bool y
  | JNum x, JNum y => x =? y
  | JStr x, JStr y => str_eqb x y
  | JList x, JList y =>
      (fix go (x y : list json) : bool :=
         match x, y with
         | [], [] => true
         | u :: x', v :: y' => py_eq u v && go x' y'
         | _, _ => false
         end) x y
  | JDict x, JDict y =>
      (length x =? length y)%nat
      && (fix go (x : list (list N * json)) : bool :=
            match x with
            | [] => true
            | (k, u) :: x' =>
                match dict_lookup k y with
                | Some v => py_eq u v
                | None => false
                end && go x'
            end) x
  | _, _ => false
  end.

(** [a < b] on two [str]: lexicographic on code points. *)
Fixpoint str_ltb (a b : pystr) : bool :=
  match a, b with
  | _, [] => false
  | [], _ :: _ => true
  | x :: a', y :: b' => (x <? y)%N || (x =? y)%N && str_ltb a' b'
  end.

(** [a < b]; ordering is not defined between [None], dicts, or values of
    different kinds. *)
Fixpoint py_lt (a b : json) {struct a} : result bool :=
  match a, b with
  | JBool x, JBool y => Ok (num_of_bool x <? num_of_bool y)
  | JBool x, JNum y => Ok (num_of_bool x <? y)
  | JNum x, JBool y => Ok (x <? num_of_bool y)
  | JNum x, JNum y => Ok (x <? y)
  | JStr x, JStr y => Ok (str_ltb x y)
  | JList x, JList y =>
      (fix go (x y : list json) : result bool :=
         match x, y with
         | _, [] => Ok false
         | [], _ :: _ => Ok true
         | u :: x', v :: y' => if py_eq u v then go x' y' else py_lt u v
         end) x y
  | _, _ => Raise TypeError
  end.

(** A loop whose body may raise: the first exception ends the loop. *)
Fixpoint foldM {A S : Type} (f : S -> A -> result S) (l : list A) (s : S)
  : result S :=
  match l with
  | [] => Ok s
  | x :: l' => bind (f s x) (foldM f l')
  end.

End Py.

Import Py.

#[global] Instance result_bind : MBind result := fun _ _ f m => Py.bind m f.

(** ** [analyze_citations.py] *)

Module Analyze.

(** The matcher for [10\.48550/arxiv\.(\d+\.\d+)] anchored at the start of
    [s]; the value is group 1.  Both [\d+] are greedy, and since the
    character after the first one must be a dot no shorter digit run can
    match. *)
Definition match_arxiv_doi_at (s : pystr) : option pystr :=
  let pre := lit "10.48550/arxiv." in
  if starts_with pre s then
    let rest := drop (length pre) s in
    let d1 := take_while is_digit rest in
    match d1, drop_while is_digit rest with
    | _ :: _, 46%N :: rest' =>
        match take_while is_digit rest' with
        | [] => None
        | d2 => Some (d1 ++ 46%N :: d2)
        end
    | _, _ => None
    end
  else None.

(** [re.search]: the leftmost position at which the pattern matches. *)
Fixpoint search_arxiv_doi (s : pystr) : option pystr :=
  match match_arxiv_doi_at s with
  | Some g => Some g
  | None => match s with
            | [] => None
            | _ :: s' => search_arxiv_doi s'
            end
  end.

Definition extract_arxiv_id_from_doi (doi : json) : result (option pystr) :=
  if negb (truthy doi) then Ok None
  else
    doi_lower ← py_lower doi;
    Ok (search_arxiv_doi doi_lower).

(** The strings replaced by a space in [normalize_title], in the order of
    the source's list.  The third and fourth are three characters each
    (U+00E2 U+20AC U+201C and U+00E2 U+20AC U+201D) in the source file. *)
Definition punctuation : list pystr :=
  [lit ":"; lit "-"; [226; 8364; 8220]%N; [226; 8364; 8221]%N;
   lit "'"; lit "'"; [34%N]; [34%N]; [34%N]].

(** The body of [normalize_title] on a non-empty [str]. *)
Definition normalize_str (title : pystr) : pystr :=
  let normalized := lower title in
  let normalized := join [SPACE] (split_ws normalized) in
  let normalized :=
    fold_left (fun n char => replace char [SPACE] n) punctuation normalized in
  let normalized := join [SPACE] (split_ws normalized) in
  take 150 (strip normalized).

Definition normalize_title (title : json) : result pystr :=
  if negb (truthy title) then Ok []
  else
    match title with
    | JStr t => Ok (normalize_str t)
    | _ => Raise AttributeError
    end.

Definition get_paper_key (paper : json) : result (option pystr) :=
  title ← py_get paper "title" (JStr []);
  by_title ←
    (if truthy title then
       normalized ← normalize_title title;
       Ok (match normalized with
           | [] => None
           | _ => Some (lit "title:" ++ normalized)
           end)
     else Ok None);
  match by_title with
  | Some key => Ok (Some key)
  | None =>
      doi ← py_get paper "doi" (JStr []);
      arxiv_id ← py_get paper "arxiv_id" (JStr []);
      arxiv_from_doi ← extract_arxiv_id_from_doi doi;
      match arxiv_from_doi with
      | Some a => Ok (Some (lit "arxiv:" ++ a))
      | None =>
          if truthy arxiv_id then
            a ← py_lower arxiv_id; Ok (Some (lit "arxiv:" ++ a))
          else if truthy doi then
            d ← py_lower doi; Ok (Some (lit "doi:" ++ d))
          else
            openalex_id ← py_get paper "openalex_id" JNull;
            if truthy openalex_id then
              o ← py_lower openalex_id; Ok (Some (lit "openalex:" ++ o))
            else
              s2_id ← py_get paper "s2_id" JNull;
              if truthy s2_id then
                s ← py_lower s2_id; Ok (Some (lit "s2:" ++ s))
              else Ok None
      end
  end.

(** [if key:] on the value of [get_paper_key]: [None] and the empty
    string are false. *)
Definition key_truthy (key : option pystr) : option pystr :=
  match key with
  | Some (c :: k) => Some (c :: k)
  | _ => None
  end.

Definition get_seed_paper_label (paper : json) : result json :=
  m ← py_get paper "metadata" JNull;
  let metadata := if truthy m then m else JDict [] in
  t ← py_get metadata "title" (JStr (lit "Unknown"));
  let title := if truthy t then t else JStr (lit "Unknown") in
  n ← py_len title;
  if (60 <? n)%nat then
    match title with
    | JStr s => Ok (JStr (take 57 s ++ lit "..."))
    | _ => Raise TypeError
    end
  else Ok title.

(** What the seed index keeps for a seed key. *)
Record seed_info := {
  seed_doi : json;
  seed_title : json;
  seed_authors : json;
  seed_year : json
}.

(** One element of [cited_by_seed] / [cites_seed]: [{"doi": .., "title": ..}]. *)
Record occurrence := { occ_doi : json; occ_title : json }.

(** One value of [references_index] / [citing_index]. *)
Record index_entry := {
  metadata : option json;
  by_seed : list occurrence
}.

Definition index := odict index_entry.

Definition default_entry : index_entry := {| metadata := None; by_seed := [] |}.

(** One element of the result lists.  [count] is the field [c_in] of a
    cited paper and [c_out] of a citing paper; [seed_papers] is
    [cited_by_seed_papers], respectively [cites_seed_papers]. *)
Record entry := {
  key : pystr;
  doi : json;
  arxiv_id : json;
  title : json;
  authors : json;
  year : json;
  venue : json;
  count : nat;
  seed_papers : list occurrence;
  is_in_seed_set : bool
}.

(** First loop: the seed set index. *)
Definition seed_step (st : gset pystr * odict seed_info) (paper : json)
  : result (gset pystr * odict seed_info) :=
  let '(seed_keys, seed_by_key) := st in
  metadata ← py_get paper "metadata" JNull;
  if truthy metadata then
    key ← get_paper_key metadata;
    match key_truthy key with
    | Some key =>
        let seed_keys := {[ key ]} ∪ seed_keys in
        d ← py_item paper "input_doi";
        t ← py_get metadata "title" (JStr []);
        a ← py_get metadata "authors" (JList []);
        y ← py_get metadata "year" JNull;
        Ok (seed_keys,
            od_set key {| seed_doi := d; seed_title := t;
                          seed_authors := a; seed_year := y |} seed_by_key)
    | None => Ok (seed_keys, seed_by_key)
    end
  else Ok (seed_keys, seed_by_key).

Definition build_seed_index (papers : list json)
  : result (gset pystr * odict seed_info) :=
  foldM seed_step papers (∅, []).

(** The three statements on [references_index[ref_key]]: the access that
    creates the entry, the metadata stored once, the occurrence appended. *)
Definition record_occurrence (ref_key : pystr) (ref : json) (occ : occurrence)
    (idx : index) : result index :=
  let idx := od_touch ref_key default_entry idx in
  idx ←
    match od_lookup ref_key idx with
    | Some {| metadata := None |} =>
        c ← py_copy ref;
        Ok (od_alter (fun e => {| metadata := Some c; by_seed := by_seed e |})
              ref_key idx)
    | _ => Ok idx
    end;
  Ok (od_alter (fun e => {| metadata := metadata e;
                            by_seed := by_seed e ++ [occ] |}) ref_key idx).

Definition relation_step (occ : occurrence) (idx : index) (ref : json)
  : result index :=
  ref_key ← get_paper_key ref;
  match key_truthy ref_key with
  | None => Ok idx
  | Some ref_key => record_occurrence ref_key ref occ idx
  end.

(** The body of the loop over [papers] that fills an index.  The source has
    this loop twice, once over ["references"] and once over ["cited_by"];
    [relation] is that field name. *)
Definition paper_step (relation : string) (idx : index) (paper : json)
  : result index :=
  m ← py_get paper "metadata" JNull;
  if negb (truthy m) then Ok idx
  else
    seed_label ← get_seed_paper_label paper;
    seed_doi ← py_get paper "input_doi" (JStr []);
    rel ← py_get paper relation (JList []);
    refs ← py_iter rel;
    foldM (relation_step {| occ_doi := seed_doi; occ_title := seed_label |})
      refs idx.

Definition build_index (relation : string) (papers : list json)
  : result index :=
  foldM (paper_step relation) papers [].

(** The body of the filtering loop over the items of an index. *)
Definition select_step (seed_keys : gset pystr) (k : Z) (acc : list entry)
    (item : pystr * index_entry) : result (list entry) :=
  let '(ref_key, ref_data) := item in
  if bool_decide (ref_key ∈ seed_keys) then Ok acc
  else
    let c := length (by_seed ref_data) in
    if (k <=? Z.of_nat c) then
      match metadata ref_data with
      | None => Raise AttributeError
      | Some metadata =>
          d ← py_get metadata "doi" (JStr []);
          a ← py_get metadata "arxiv_id" (JStr []);
          t ← py_get metadata "title" (JStr []);
          au ← py_get metadata "authors" (JList []);
          y ← py_get metadata "year" JNull;
          v ← py_get metadata "venue" (JStr []);
          Ok (acc ++ [{| key := ref_key; doi := d; arxiv_id := a; title := t;
                         authors := au; year := y; venue := v; count := c;
                         seed_papers := by_seed ref_data;
                         is_in_seed_set := bool_decide (ref_key ∈ seed_keys) |}])
      end
    else Ok acc.

Definition select (seed_keys : gset pystr) (k : Z) (idx : index)
  : result (list entry) :=
  foldM (select_step seed_keys k) idx [].

(** [(-x["c_in"], x["title"]) < (-y["c_in"], y["title"])] on the sort keys:
    tuples are ordered by their first components that are not equal. *)
Definition sort_key_lt (x y : entry) : result bool :=
  if negb (Z.of_nat (count x) =? Z.of_nat (count y))
  then Ok (- Z.of_nat (count x) <? - Z.of_nat (count y))
  else if py_eq (title x) (title y) then Ok false
  else py_lt (title x) (title y).

(** [list.sort(key=...)] is stable and raises when a comparison does.  It is
    modelled as an insertion sort: the list it returns is the one CPython
    returns whenever all sort keys can be compared; which comparisons
    CPython makes before it meets one that raises is not reproduced. *)
Fixpoint sort_insert (x : entry) (sorted : list entry) : result (list entry) :=
  match sorted with
  | [] => Ok [x]
  | y :: sorted' =>
      sort_key_lt x y ≫= λ b : bool,
        if b then Ok (x :: y :: sorted')
        else r ← sort_insert x sorted'; Ok (y :: r)
  end.

Definition sort_entries (l : list entry) : result (list entry) :=
  foldM (fun sorted x => sort_insert x sorted) l [].

Definition analyze_citations (data : json) (k_cited k_citing : Z)
  : result (list entry * list entry) :=
  p ← py_get data "papers" (JList []);
  papers ← py_iter p;
  seeds ← build_seed_index papers;
  let seed_keys := fst seeds in
  references_index ← build_index "references" papers;
  cited_papers ← select seed_keys k_cited references_index;
  cited_papers ← sort_entries cited_papers;
  citing_index ← build_index "cited_by" papers;
  citing_papers ← select seed_keys k_citing citing_index;
  citing_papers ← sort_entries citing_papers;
  Ok (cited_papers, citing_papers).

End Analyze.

(** ** [visualize_citations.py] *)

Module Visualize.

Definition get_paper_key (paper : json) : result (option pystr) :=
  d ← py_get paper "doi" JNull;
  if truthy d then
    d ← py_item paper "doi"; l ← py_lower d; Ok (Some (lit "doi:" ++ l))
  else
    a ← py_get paper "arxiv_id" JNull;
    if truthy a then
      a ← py_item paper "arxiv_id"; l ← py_lower a;
      Ok (Some (lit "arxiv:" ++ l))
    else
      o ← py_get paper "openalex_id" JNull;
      if truthy o then
        o ← py_item paper "openalex_id"; l ← py_lower o;
        Ok (Some (lit "openalex:" ++ l))
      else
        i ← py_get paper "s2_id" JNull;
        if truthy i then
          i ← py_item paper "s2_id"; l ← py_lower i;
          Ok (Some (lit "s2:" ++ l))
        else
          t ← py_get paper "title" JNull;
          if truthy t then
            t ← py_item paper "title"; l ← py_lower t;
            Ok (Some (lit "title:" ++ take 100 l))
          else Ok None.

Definition key_truthy (key : option pystr) : option pystr :=
  match key with
  | Some (c :: k) => Some (c :: k)
  | _ => None
  end.

(** The label of a node.  Only a [str] longer than [max_len] can be cut:
    [title[: max_len - 3] + "..."] raises on a list, and so does the
    slice of a dict. *)
Definition truncate_title (title : json) (max_len : Z) : result json :=
  if negb (truthy title) then Ok (JStr (lit "Unknown"))
  else
    n ← py_len title;
    if (Z.of_nat n <=? max_len)%Z then Ok title
    else
      match title with
      | JStr s => Ok (JStr (slice_to (max_len - 3) s ++ lit "..."))
      | _ => Raise TypeError
      end.

(** A node of the graph.  [count] is [c_in] of a cited node and [c_out] of
    a citing node; a seed node has no such field and carries its input
    DOI instead. *)
Record node := {
  key : pystr;
  doi : option json;
  title : json;
  authors : json;
  year : json;
  venue : json;
  count : option nat
}.

Record index_entry := {
  metadata : option json;
  by_seed : gset pystr
}.

Definition index := odict index_entry.

Definition default_entry : index_entry := {| metadata := None; by_seed := ∅ |}.

(** [(source_key, target_key, edge_type)]. *)
Definition edge : Type := pystr * pystr * pystr.

Record graph := {
  seed_papers : odict node;
  cited_papers : odict node;
  citing_papers : odict node;
  edges : list edge
}.

(** First loop: the seed nodes. *)
Definition seed_step (seed_papers : odict node) (paper : json)
  : result (odict node) :=
  m ← py_get paper "metadata" JNull;
  if truthy m then
    metadata ← py_item paper "metadata";
    key ← get_paper_key metadata;
    match key_truthy key with
    | Some key =>
        d ← py_item paper "input_doi";
        t ← py_get metadata "title" (JStr (lit "Unknown"));
        a ← py_get metadata "authors" (JList []);
        y ← py_get metadata "year" JNull;
        v ← py_get metadata "venue" (JStr []);
        Ok (od_set key {| key := key; doi := Some d; title := t; authors := a;
                          year := y; venue := v; count := None |} seed_papers)
    | None => Ok seed_papers
    end
  else Ok seed_papers.

(** The statements on [references_index[ref_key]] (and on
    [citing_index[citing_key]]): the access that creates the entry, the
    metadata stored once, the seed key added to the set. *)
Definition record_seed (ref_key : pystr) (ref : json) (seed_key : pystr)
    (idx : index) : result index :=
  let idx := od_touch ref_key default_entry idx in
  idx ←
    match od_lookup ref_key idx with
    | Some {| metadata := None |} =>
        c ← py_copy ref;
        Ok (od_alter (fun e => {| metadata := Some c; by_seed := by_seed e |})
              ref_key idx)
    | _ => Ok idx
    end;
  Ok (od_alter (fun e => {| metadata := metadata e;
                            by_seed := {[ seed_key ]} ∪ by_seed e |})
        ref_key idx).

(** State of the second loop: both indices and the edge list. *)
Record loop_state := {
  references_index : index;
  citing_index : index;
  all_edges : list edge
}.

Definition reference_step (seed_key : pystr) (st : loop_state) (ref : json)
  : result loop_state :=
  ref_key ← get_paper_key ref;
  match key_truthy ref_key with
  | None => Ok st
  | Some ref_key =>
      idx ← record_seed ref_key ref seed_key (references_index st);
      Ok {| references_index := idx;
            citing_index := citing_index st;
            all_edges := all_edges st ++ [(seed_key, ref_key, lit "cites")] |}
  end.

Definition citing_step (seed_key : pystr) (st : loop_state) (citing : json)
  : result loop_state :=
  citing_key ← get_paper_key citing;
  match key_truthy citing_key with
  | None => Ok st
  | Some citing_key =>
      idx ← record_seed citing_key citing seed_key (citing_index st);
      Ok {| references_index := references_index st;
            citing_index := idx;
            all_edges := all_edges st ++ [(citing_key, seed_key, lit "cites")] |}
  end.

Definition paper_step (st : loop_state) (paper : json) : result loop_state :=
  m ← py_get paper "metadata" JNull;
  seed_key ←
    (if truthy m then
       metadata ← py_item paper "metadata"; get_paper_key metadata
     else Ok None);
  match key_truthy seed_key with
  | None => Ok st
  | Some seed_key =>
      r ← py_get paper "references" (JList []);
      refs ← py_iter r;
      st ← foldM (reference_step seed_key) refs st;
      c ← py_get paper "cited_by" (JList []);
      citing ← py_iter c;
      foldM (citing_step seed_key) citing st
  end.

(** The body of a filtering loop over the items of an index. *)
Definition select_step (seed_papers : odict node) (k : Z) (acc : odict node)
    (item : pystr * index_entry) : result (odict node) :=
  let '(ref_key, ref_data) := item in
  let c := size (by_seed ref_data) in
  if (k <=? Z.of_nat c) && negb (bool_decide (ref_key ∈ od_keys seed_papers))
  then
    match metadata ref_data with
    | None => Raise AttributeError
    | Some metadata =>
        t ← py_get metadata "title" (JStr (lit "Unknown"));
        a ← py_get metadata "authors" (JList []);
        y ← py_get metadata "year" JNull;
        v ← py_get metadata "venue" (JStr []);
        Ok (od_set ref_key
              {| key := ref_key; doi := None; title := t; authors := a;
                 year := y; venue := v; count := Some c |} acc)
    end
  else Ok acc.

Definition select (seed_papers : odict node) (k : Z) (idx : index)
  : result (odict node) :=
  foldM (select_step seed_papers k) idx [].

(** [list(set(l))]: each element once.  The order in which a set is
    listed is not specified; here it is the order of first occurrence. *)
Definition list_of_set (l : list edge) : list edge := remove_dups l.

Definition analyze_for_graph (data : json) (k_cited k_citing : Z)
  : result graph :=
  p ← py_get data "papers" (JList []);
  papers ← py_iter p;
  seed_papers ← foldM seed_step papers [];
  st ← foldM paper_step papers
         {| references_index := []; citing_index := []; all_edges := [] |};
  cited_papers ← select seed_papers k_cited (references_index st);
  citing_papers ← select seed_papers k_citing (citing_index st);
  let all_relevant_keys : gset pystr :=
    list_to_set (od_keys seed_papers) ∪ list_to_set (od_keys cited_papers)
    ∪ list_to_set (od_keys citing_papers) in
  let filtered_edges :=
    filter (fun e : edge =>
              e.1.1 ∈ all_relevant_keys ∧ e.1.2 ∈ all_relevant_keys)
      (all_edges st) in
  let unique_edges := list_of_set filtered_edges in
  Ok {| seed_papers := seed_papers; cited_papers := cited_papers;
        citing_papers := citing_papers; edges := unique_edges |}.

End Visualize.

(** ** [get_citations.py]: merging and deduplication *)

Module Fetch.

(** *** DOIs *)

Definition doi_prefixes : list pystr :=
  [lit "https://doi.org/"; lit "http://doi.org/"; lit "doi:"].

(** The loop of [normalize_doi]: the first prefix the lower-cased DOI
    starts with is cut off, and the loop ends. *)
Fixpoint strip_prefix (prefixes : list pystr) (doi : pystr) : pystr :=
  match prefixes with
  | [] => doi
  | prefix :: prefixes' =>
      if starts_with (lower prefix) (lower doi)
      then drop (length prefix) doi
      else strip_prefix prefixes' doi
  end.

(** [normalize_doi] on a [str]. *)
Definition normalize_doi (doi : pystr) : pystr :=
  strip_prefix doi_prefixes (strip doi).

Definition extract_arxiv_id (doi : pystr) : option pystr :=
  let normalized := normalize_doi doi in
  if contains (lit "arxiv") (lower normalized) then
    match split_on (lit "arXiv.") normalized with
    | _ :: part :: _ => Some part
    | _ => None
    end
  else None.

(** *** Records of the two providers *)

(** [k in obj]. *)
Definition py_in (k : string) (obj : json) : result bool :=
  match obj with
  | JDict d => Ok (match dict_lookup (lit k) d with
                   | Some _ => true
                   | None => false
                   end)
  | JList l => Ok (existsb (fun v => py_eq v (JStr (lit k))) l)
  | JStr s => Ok (contains (lit k) s)
  | _ => Raise TypeError
  end.

(** The body of the loop over [authorships]. *)
Definition openalex_author (authors : list json) (authorship : json)
  : result (list json) :=
  author ← py_get authorship "author" (JDict []);
  n ← py_get author "display_name" JNull;
  if truthy n then
    v ← py_item author "display_name"; Ok (authors ++ [v])
  else Ok authors.

Definition openalex_extract_metadata (work : json) : result json :=
  a ← py_get work "authorships" (JList []);
  items ← py_iter a;
  authors ← foldM openalex_author items [];
  pl ← py_get work "primary_location" (JDict []);
  let primary_location := if truthy pl then pl else JDict [] in
  src ← py_get primary_location "source" (JDict []);
  let source := if truthy src then src else JDict [] in
  venue ← py_get source "display_name" (JStr []);
  doi ← py_get work "doi" (JStr []);
  doi ← (if truthy doi then
           match doi with
           | JStr d =>
               if starts_with (lit "https://doi.org/") d
               then Ok (JStr (drop 16 d)) else Ok doi
           | _ => Raise AttributeError
           end
         else Ok doi);
  openalex_id ← py_get work "id" (JStr []);
  title ← py_get work "title" (JStr []);
  year ← py_get work "publication_year" JNull;
  ty ← py_get work "type" (JStr []);
  cited_by_count ← py_get work "cited_by_count" (JNum 0);
  Ok (JDict [ (lit "openalex_id", openalex_id);
              (lit "doi", doi);
              (lit "title", title);
              (lit "authors", JList authors);
              (lit "year", year);
              (lit "venue", venue);
              (lit "type", ty);
              (lit "cited_by_count", cited_by_count);
              (lit "source", JStr (lit "openalex")) ]).

(** One step of the comprehension over [authors]. *)
Definition s2_author (authors : list json) (a : json) : result (list json) :=
  n ← py_get a "name" JNull;
  if truthy n then
    v ← py_get a "name" (JStr []); Ok (authors ++ [v])
  else Ok authors.

(** The nested structure of the references and citations endpoints. *)
Definition s2_unwrap (paper : json) : result json :=
  py_in "citingPaper" paper ≫= λ citing : bool,
    if citing then py_item paper "citingPaper"
    else
      py_in "citedPaper" paper ≫= λ cited : bool,
        if cited then py_item paper "citedPaper" else Ok paper.

(** The value is [JNull] where the function returns [None]. *)
Definition s2_extract_metadata (paper : json) : result json :=
  paper ← s2_unwrap paper;
  if negb (truthy paper) then Ok JNull
  else
    a ← py_get paper "authors" (JList []);
    items ← py_iter a;
    authors ← foldM s2_author items [];
    e ← py_get paper "externalIds" (JDict []);
    let external_ids := if truthy e then e else JDict [] in
    doi ← py_get external_ids "DOI" (JStr []);
    arxiv_id ← py_get external_ids "ArXiv" (JStr []);
    s2_id ← py_get paper "paperId" (JStr []);
    title ← py_get paper "title" (JStr []);
    year ← py_get paper "year" JNull;
    venue ← py_get paper "venue" (JStr []);
    cited_by_count ← py_get paper "citationCount" (JNum 0);
    Ok (JDict [ (lit "s2_id", s2_id);
                (lit "doi", doi);
                (lit "arxiv_id", arxiv_id);
                (lit "title", title);
                (lit "authors", JList authors);
                (lit "year", year);
                (lit "venue", venue);
                (lit "cited_by_count", cited_by_count);
                (lit "source", JStr (lit "semantic_scholar")) ]).

(** *** Merging *)

(** The lists merged hold references to dict objects, or [None]; merging
    writes into these objects.  An object is identified by its location,
    which is also what [id] returns, and the store maps each location to
    the current content of the dict there. *)
Definition loc := nat.
Definition store := loc -> odict json.

Definition store_set (h : store) (a : loc) (d : odict json) : store :=
  fun b => if (a =? b)%nat then d else h b.

Definition get_paper_key (h : store) (paper : loc) : result pystr :=
  let obj := JDict (h paper) in
  d ← py_get obj "doi" JNull;
  if truthy d then
    d ← py_item obj "doi"; l ← py_lower d; Ok (lit "doi:" ++ l)
  else
    a ← py_get obj "arxiv_id" JNull;
    if truthy a then
      a ← py_item obj "arxiv_id"; l ← py_lower a; Ok (lit "arxiv:" ++ l)
    else
      t ← py_get obj "title" JNull;
      if truthy t then
        t ← py_item obj "title"; l ← py_lower t;
        Ok (lit "title:" ++ take 100 l)
      else Ok (lit "unknown:" ++ lit (pretty paper)).

Definition merged_fields : list string :=
  ["doi"; "arxiv_id"; "title"; "authors"; "year"; "venue"]%string.

(** [if not existing.get(field) and paper.get(field):
         existing[field] = paper[field]] *)
Definition merge_field (existing paper : loc) (h : store) (field : string)
  : store :=
  let e := from_option id JNull (dict_lookup (lit field) (h existing)) in
  let p := from_option id JNull (dict_lookup (lit field) (h paper)) in
  if negb (truthy e) && truthy p
  then store_set h existing (od_set (lit field) p (h existing))
  else h.

Definition merge_source (existing paper : loc) (h : store) : store :=
  let e := from_option id JNull (dict_lookup (lit "source") (h existing)) in
  let p := from_option id JNull (dict_lookup (lit "source") (h paper)) in
  if negb (py_eq e p)
  then store_set h existing
         (od_set (lit "source") (JStr (lit "openalex+semantic_scholar"))
            (h existing))
  else h.

(** The body of the loop of [merge_paper_lists]; [seen] maps a key to the
    object kept for it. *)
Definition merge_step (st : store * odict loc) (paper : option loc)
  : result (store * odict loc) :=
  let '(h, seen) := st in
  match paper with
  | None => Ok (h, seen)
  | Some paper =>
      key ← get_paper_key h paper;
      match od_lookup key seen with
      | None => Ok (h, od_set key paper seen)
      | Some existing =>
          let h := fold_left (merge_field existing paper) merged_fields h in
          Ok (merge_source existing paper h, seen)
      end
  end.

Definition merge_paper_lists (h : store) (list1 list2 : list (option loc))
  : result (store * list loc) :=
  st ← foldM merge_step (list1 ++ list2) (h, []);
  Ok (st.1, od_values st.2).

End Fetch.

(** Literals for writing concrete documents. *)
Definition jstr (s : string) : json := JStr (lit s).
Definition kv (k : string) (v : json) : pystr * json := (lit k, v).

(** * Properties *)

(** ** Strings *)

Section StringFacts.

Implicit Types (s t p w : pystr) (ws : list pystr) (c d : N).

Definition nonspace (c : N) : bool := negb (is_space c).

(** [p] occurs in [s] as a contiguous substring. *)
Definition occurs p s : Prop := exists a b, s = a ++ p ++ b.

(** A word as [split_ws] returns them. *)
Definition word w : Prop := w <> [] /\ Forall (fun c => is_space c = false) w.

Lemma occurs_refl s : occurs s s.
Proof. exists [], []. by rewrite app_nil_r. Qed.

Lemma occurs_cons p c s : occurs p s -> occurs p (c :: s).
Proof. intros (a & b & ->). by exists (c :: a), b. Qed.

Lemma occurs_app_l p s t : occurs p s -> occurs p (s ++ t).
Proof.
  intros (a & b & ->). exists a, (b ++ t). by rewrite <- !app_assoc.
Qed.

Lemma occurs_app_r p s t : occurs p t -> occurs p (s ++ t).
Proof.
  intros (a & b & ->). exists (s ++ a), b. by rewrite <- !app_assoc.
Qed.

Lemma occurs_trans p s t : occurs p s -> occurs s t -> occurs p t.
Proof.
  intros (a & b & ->) (a' & b' & ->).
  exists (a' ++ a), (b ++ b'). by rewrite <- !app_assoc.
Qed.

Lemma occurs_nil_inv p : occurs p [] -> p = [].
Proof.
  intros (a & b & H). symmetry in H.
  apply app_eq_nil in H as [_ H]. by apply app_eq_nil in H as [H _].
Qed.

(** An occurrence in [c :: s] starts at the head or lies in [s]. *)
Lemma occurs_cons_inv p c s :
  occurs p (c :: s) -> (exists b, c :: s = p ++ b) \/ occurs p s.
Proof.
  intros ([|x a] & b & H); simpl in H.
  - left. by exists b.
  - right. injection H as _ ->. by exists a, b.
Qed.

(** An occurrence of a string without [c] does not overlap a [c]. *)
Lemma occurs_sep_inv p c s t :
  p <> [] -> c ∉ p -> occurs p (s ++ c :: t) -> occurs p s \/ occurs p t.
Proof.
  intros Hne Hc (a & b & H).
  apply app_eq_inv in H as [(k & -> & H)|(k & -> & H)].
  - apply app_eq_inv in H as [(k' & -> & H)|(k' & -> & H)].
    + destruct k' as [|x k']; simpl in H.
      * left. exists a, []. by rewrite !app_nil_r.
      * injection H as -> _. exfalso. apply Hc.
        apply elem_of_app. right. by left.
    + left. by exists a, k'.
  - destruct k as [|x k]; simpl in H.
    + destruct p as [|y p]; [done|]. injection H as -> _.
      exfalso. apply Hc. by left.
    + injection H as _ ->. right. by exists k, b.
Qed.

Lemma starts_with_spec p s : starts_with p s = true <-> exists b, s = p ++ b.
Proof.
  revert s. induction p as [|x p IH]; intros s; simpl.
  - split; [by exists s | done].
  - destruct s as [|c s]; [split; [done | by intros (? & ?)]|].
    rewrite andb_true_iff, N.eqb_eq, IH. split.
    + intros (-> & b & ->). by exists b.
    + intros (b & H). injection H as -> ->. split; [done | by exists b].
Qed.

(** *** [split] and [join] *)

Lemma split_ws_space c s : is_space c = true -> split_ws (c :: s) = split_ws s.
Proof. intros H. simpl. by rewrite H. Qed.

Lemma split_ws_word c s :
  is_space c = false ->
  split_ws (c :: s)
  = (c :: take_while nonspace s) :: split_ws (drop_while nonspace s).
Proof.
  revert c. induction s as [|d s IH]; intros c Hc.
  - simpl. by rewrite Hc.
  - change (split_ws (c :: d :: s))
      with (if is_space c then split_ws (d :: s)
            else if is_space d then [c] :: split_ws (d :: s)
                 else match split_ws (d :: s) with
                      | w :: ws => (c :: w) :: ws
                      | [] => [[c]]
                      end).
    rewrite Hc. cbn [take_while drop_while]. unfold nonspace at 1 3.
    destruct (is_space d) eqn:Hd; cbn [negb]; [done|].
    by rewrite (IH d Hd).
Qed.

Lemma length_drop_while f s : (length (drop_while f s) <= length s)%nat.
Proof.
  induction s as [|c s IH]; simpl; [lia|]. destruct (f c); simpl; lia.
Qed.

Lemma take_drop_while f s : take_while f s ++ drop_while f s = s.
Proof.
  induction s as [|c s IH]; simpl; [done|].
  destruct (f c); simpl; [by rewrite IH | done].
Qed.

Lemma take_while_Forall f s : Forall (fun c => f c = true) (take_while f s).
Proof.
  induction s as [|c s IH]; simpl; [constructor|].
  destruct (f c) eqn:E; by constructor.
Qed.

(** Induction following the words of a string. *)
Lemma split_ws_ind (P : pystr -> list pystr -> Prop) :
  P [] [] ->
  (forall c s, is_space c = true -> P s (split_ws s) -> P (c :: s) (split_ws s)) ->
  (forall c s, is_space c = false ->
     P (drop_while nonspace s) (split_ws (drop_while nonspace s)) ->
     P (c :: s)
       ((c :: take_while nonspace s) :: split_ws (drop_while nonspace s))) ->
  forall s, P s (split_ws s).
Proof.
  intros Hnil Hsp Hw s.
  induction s as [s IH] using (induction_ltof1 _ (@length N)).
  destruct s as [|c s]; [done|].
  destruct (is_space c) eqn:Hc.
  - rewrite split_ws_space by done. apply Hsp; [done|].
    apply IH. unfold ltof. simpl. lia.
  - rewrite split_ws_word by done. apply Hw; [done|].
    apply IH. unfold ltof. simpl. pose proof (length_drop_while nonspace s). lia.
Qed.

Lemma nonspace_false c : nonspace c = true <-> is_space c = false.
Proof. unfold nonspace. by destruct (is_space c). Qed.

Lemma split_ws_words s : Forall word (split_ws s).
Proof.
  apply (split_ws_ind (fun _ ws => Forall word ws)); [constructor|done|].
  intros c t Hc IH. constructor; [|done]. split; [done|].
  constructor; [done|].
  eapply Forall_impl; [apply take_while_Forall|].
  intros x. apply nonspace_false.
Qed.

Lemma split_ws_occurs s w : w ∈ split_ws s -> occurs w s.
Proof.
  revert w. apply (split_ws_ind (fun s ws => forall w, w ∈ ws -> occurs w s)).
  - intros w H. by apply elem_of_nil in H.
  - intros c t _ IH w H. apply occurs_cons. by apply IH.
  - intros c t _ IH w H. apply elem_of_cons in H as [->|H].
    + exists [], (drop_while nonspace t). simpl. by rewrite take_drop_while.
    + apply occurs_cons. rewrite <- (take_drop_while nonspace t).
      apply occurs_app_r. by apply IH.
Qed.

Lemma split_ws_Forall (Q : N -> Prop) s :
  Forall Q s -> Forall (Forall Q) (split_ws s).
Proof.
  intros H. apply Forall_forall. intros w Hw.
  apply split_ws_occurs in Hw as (a & b & ->).
  apply Forall_app in H as [_ H]. by apply Forall_app in H as [H _].
Qed.

Lemma join_cons sep w ws :
  ws <> [] -> join sep (w :: ws) = w ++ sep ++ join sep ws.
Proof. by destruct ws. Qed.

Lemma join_Forall (Q : N -> Prop) sep ws :
  Forall Q sep -> Forall (Forall Q) ws -> Forall Q (join sep ws).
Proof.
  intros Hs. induction 1 as [|w ws Hw Hws IH]; [constructor|].
  destruct ws as [|w' ws]; [done|]. rewrite join_cons by done.
  apply Forall_app. split; [done|]. apply Forall_app. by split.
Qed.

Lemma join_occurs p ws :
  p <> [] -> SPACE ∉ p -> occurs p (join [SPACE] ws) ->
  exists w, w ∈ ws /\ occurs p w.
Proof.
  intros Hne Hsp. induction ws as [|w ws IH]; intros H.
  - by apply occurs_nil_inv in H.
  - destruct ws as [|w' ws].
    + exists w. split; [by left | done].
    + rewrite join_cons in H by done. simpl in H.
      apply occurs_sep_inv in H as [H|H]; [| |done..].
      * exists w. split; [by left | done].
      * destruct (IH H) as (u & Hu & Hp). exists u. split; [by right | done].
Qed.

Lemma take_while_all f s :
  Forall (fun c => f c = true) s -> forall t, take_while f (s ++ t) = s ++ take_while f t.
Proof.
  induction 1 as [|c s Hc _ IH]; intros t; simpl; [done|].
  by rewrite Hc, IH.
Qed.

Lemma drop_while_all f s :
  Forall (fun c => f c = true) s -> forall t, drop_while f (s ++ t) = drop_while f t.
Proof.
  induction 1 as [|c s Hc _ IH]; intros t; simpl; [done|]. by rewrite Hc, IH.
Qed.

Lemma word_nonspace w : word w -> Forall (fun c => nonspace c = true) w.
Proof.
  intros [_ H]. eapply Forall_impl; [exact H|]. intros c. apply nonspace_false.
Qed.

Lemma is_space_SPACE : is_space SPACE = true.
Proof. reflexivity. Qed.

(** Splitting a string made of words, one space between them, gives the
    words back, also when a space follows the last word. *)
Lemma split_ws_join_gen ws t :
  Forall word ws -> (t = [] \/ t = [SPACE]) ->
  split_ws (join [SPACE] ws ++ t) = ws.
Proof.
  intros Hws Ht. induction Hws as [|w ws Hw Hws IH].
  - destruct Ht as [->| ->]; reflexivity.
  - pose proof (word_nonspace w Hw) as Hns.
    destruct Hw as [Hne Hw]. destruct w as [|c w]; [done|].
    apply Forall_cons in Hw as [Hc Hw]. apply Forall_cons in Hns as [_ Hns].
    destruct ws as [|w' ws].
    + simpl join. simpl app. rewrite split_ws_word by done.
      rewrite take_while_all, drop_while_all by done.
      destruct Ht as [->| ->]; simpl; by rewrite app_nil_r.
    + rewrite join_cons by done. simpl app.
      rewrite split_ws_word by done. rewrite <- !app_assoc.
      rewrite take_while_all, drop_while_all by done.
      simpl. rewrite app_nil_r. f_equal. exact IH.
Qed.

Lemma split_ws_join ws : Forall word ws -> split_ws (join [SPACE] ws) = ws.
Proof.
  intros H. rewrite <- (app_nil_r (join _ _)).
  apply split_ws_join_gen; auto.
Qed.

(** *** [lower] *)

Ltac bool_to_prop H :=
  rewrite ?orb_true_iff, ?andb_true_iff, ?negb_true_iff, ?N.leb_le,
    ?N.eqb_eq, ?N.eqb_neq in H.

Lemma lower_char_idem c : lower_char (lower_char c) = lower_char c.
Proof.
  unfold lower_char at 2 3.
  destruct ((65 <=? c) && (c <=? 90)
            || (192 <=? c) && (c <=? 222) && negb (c =? 215))%N eqn:E;
    [|unfold lower_char; by rewrite E].
  unfold lower_char.
  destruct ((65 <=? c + 32) && (c + 32 <=? 90)
            || (192 <=? c + 32) && (c + 32 <=? 222) && negb (c + 32 =? 215))%N
    eqn:E'; [|done].
  exfalso. bool_to_prop E. bool_to_prop E'. lia.
Qed.

Definition lower_fixed (c : N) : Prop := lower_char c = c.

Lemma lower_Forall_fixed s : Forall lower_fixed (lower s).
Proof.
  unfold lower. apply Forall_forall. intros c Hc.
  apply list_elem_of_fmap in Hc as (x & -> & _). apply lower_char_idem.
Qed.

Lemma lower_fixed_id s : Forall lower_fixed s -> lower s = s.
Proof.
  unfold lower. induction 1 as [|c s Hc _ IH]; simpl; [done|].
  by rewrite Hc, IH.
Qed.

(** *** [replace] *)

Lemma replace_fuel_Forall (Q : N -> Prop) n q by_ s :
  Forall Q by_ -> Forall Q s -> Forall Q (replace_fuel n q by_ s).
Proof.
  intros Hby. revert s. induction n as [|n IH]; intros s Hs; simpl; [done|].
  destruct s as [|c s]; [done|].
  destruct (starts_with q (c :: s)).
  - apply Forall_app. split; [done|]. apply IH. by apply Forall_drop.
  - apply Forall_cons in Hs as [Hc Hs]. constructor; [done|]. by apply IH.
Qed.

(** A string without spaces that starts the result of a replacement by a
    space starts the original string. *)
Lemma replace_fuel_starts n q p s b :
  SPACE ∉ p -> replace_fuel n q [SPACE] s = p ++ b -> exists b', s = p ++ b'.
Proof.
  revert n s b. induction p as [|x p IH]; intros n s b Hsp H.
  - by exists s.
  - destruct n as [|n]; simpl in H; [by exists b|].
    destruct s as [|c s]; [done|].
    destruct (starts_with q (c :: s)).
    + simpl in H. injection H as <- _. exfalso. apply Hsp. by left.
    + injection H as -> H. apply IH in H as [b' ->]; [by exists b'|].
      intros Hin. apply Hsp. by right.
Qed.

(** Replacing by a space creates no occurrence of a string without
    spaces. *)
Lemma replace_fuel_occurs n q p s :
  p <> [] -> SPACE ∉ p ->
  occurs p (replace_fuel n q [SPACE] s) -> occurs p s.
Proof.
  intros Hne Hsp. revert s. induction n as [|n IH]; intros s H; simpl in H; [done|].
  destruct s as [|c s]; [done|].
  destruct (starts_with q (c :: s)).
  - apply (occurs_sep_inv p SPACE []) in H as [H|H]; [| |done..].
    + by apply occurs_nil_inv in H.
    + apply IH in H. destruct H as (a & b & H).
      rewrite <- (take_drop (length q) (c :: s)), H.
      apply occurs_app_r. by exists a, b.
  - apply occurs_cons_inv in H as [[b H]|H].
    + destruct p as [|x p]; [done|]. injection H as -> H.
      apply replace_fuel_starts in H as [b' ->].
      * by exists [], b'.
      * intros Hin. apply Hsp. by right.
    + apply occurs_cons. by apply IH.
Qed.

(** After the replacement no occurrence of the replaced string is left. *)
Lemma replace_fuel_gone n p s :
  p <> [] -> SPACE ∉ p -> (length s <= n)%nat ->
  ~ occurs p (replace_fuel n p [SPACE] s).
Proof.
  intros Hne Hsp. revert s. induction n as [|n IH]; intros s Hn H.
  - destruct s; [|simpl in Hn; lia]. by apply occurs_nil_inv in H.
  - simpl in H. destruct s as [|c s]; [by apply occurs_nil_inv in H|].
    destruct (starts_with p (c :: s)) eqn:E.
    + apply (occurs_sep_inv p SPACE []) in H as [H|H]; [| |done..].
      * by apply occurs_nil_inv in H.
      * revert H. apply IH. rewrite length_drop. simpl in Hn.
        destruct p; [done|]. simpl. lia.
    + apply occurs_cons_inv in H as [[b H]|H].
      * destruct p as [|x p]; [done|]. injection H as -> H.
        apply replace_fuel_starts in H as [b' ->].
        -- assert (starts_with (x :: p) (x :: p ++ b') = true) as E'
             by (apply starts_with_spec; by exists b').
           congruence.
        -- intros Hin. apply Hsp. by right.
      * revert H. apply IH. simpl in Hn. lia.
Qed.

(** Without an occurrence nothing is replaced. *)
Lemma replace_fuel_id n p by_ s :
  ~ occurs p s -> replace_fuel n p by_ s = s.
Proof.
  revert s. induction n as [|n IH]; intros s H; simpl; [done|].
  destruct s as [|c s]; [done|].
  destruct (starts_with p (c :: s)) eqn:E.
  - exfalso. apply H. apply starts_with_spec in E as [b ->]. by exists [], b.
  - f_equal. apply IH. intros H'. apply H. by apply occurs_cons.
Qed.

Definition pattern p : Prop := p <> [] /\ SPACE ∉ p.

Lemma replace_occurs q p s :
  pattern p -> occurs p (replace q [SPACE] s) -> q <> [] -> occurs p s.
Proof.
  intros [Hne Hsp] H Hq. destruct q as [|x q]; [done|].
  by apply replace_fuel_occurs in H.
Qed.

Lemma replace_gone p s : pattern p -> ~ occurs p (replace p [SPACE] s).
Proof.
  intros [Hne Hsp]. destruct p as [|x p]; [done|]. by apply replace_fuel_gone.
Qed.

Lemma replace_id p by_ s : p <> [] -> ~ occurs p s -> replace p by_ s = s.
Proof.
  intros Hne H. destruct p as [|x p]; [done|]. by apply replace_fuel_id.
Qed.

Lemma replace_Forall (Q : N -> Prop) q s :
  q <> [] -> Q SPACE -> Forall Q s -> Forall Q (replace q [SPACE] s).
Proof.
  intros Hq HQ Hs. destruct q as [|x q]; [done|].
  apply replace_fuel_Forall; [by constructor | done].
Qed.

Definition replace_all (pats : list pystr) (s : pystr) : pystr :=
  fold_left (fun n char => replace char [SPACE] n) pats s.

Lemma replace_all_occurs pats p s :
  Forall pattern pats -> pattern p -> occurs p (replace_all pats s) -> occurs p s.
Proof.
  intros Hpats Hp. revert s.
  induction Hpats as [|q pats [Hq _] _ IH]; intros s H; [done|].
  simpl in H. apply IH in H. by apply replace_occurs in H.
Qed.

Lemma replace_all_gone pats p s :
  Forall pattern pats -> p ∈ pats -> ~ occurs p (replace_all pats s).
Proof.
  intros Hpats. revert s.
  induction Hpats as [|q pats Hq Hpats IH]; intros s Hin H.
  - by apply elem_of_nil in Hin.
  - simpl in H. apply elem_of_cons in Hin as [->|Hin].
    + apply replace_all_occurs in H; [|done..]. by apply replace_gone in H.
    + by apply IH in H.
Qed.

Lemma replace_all_id pats s :
  Forall (fun p => p <> [] /\ ~ occurs p s) pats -> replace_all pats s = s.
Proof.
  induction 1 as [|q pats [Hq Hn] _ IH]; simpl; [done|].
  by rewrite replace_id.
Qed.

Lemma replace_all_Forall (Q : N -> Prop) pats s :
  Forall pattern pats -> Q SPACE -> Forall Q s -> Forall Q (replace_all pats s).
Proof.
  intros Hpats HQ. revert s.
  induction Hpats as [|q pats [Hq _] _ IH]; intros s Hs; simpl; [done|].
  apply IH. by apply replace_Forall.
Qed.

(** *** [strip] and slicing *)

Lemma join_head ws c s :
  Forall word ws -> join [SPACE] ws = c :: s -> is_space c = false.
Proof.
  intros Hws. destruct Hws as [|w ws [Hne Hw] _]; [done|].
  destruct w as [|x w]; [done|]. apply Forall_cons in Hw as [Hx _].
  destruct ws; simpl; intros H; by injection H as <- _.
Qed.

Lemma join_last ws c :
  Forall word ws -> last (join [SPACE] ws) = Some c -> is_space c = false.
Proof.
  induction 1 as [|w ws [Hne Hw] Hws IH]; [done|].
  destruct ws as [|w' ws].
  - simpl. intros H. apply last_Some_elem_of in H.
    by apply (proj1 (Forall_forall _ _) Hw) in H.
  - rewrite join_cons by done. rewrite !last_app.
    destruct (last (join [SPACE] (w' :: ws))) as [y|] eqn:E.
    + intros [= ->]. by apply IH.
    + apply last_None in E. apply Forall_cons in Hws as [[Hne' _] _].
      destruct w'; [done|]. by destruct ws.
Qed.

Lemma drop_while_head f s :
  (forall c s', s = c :: s' -> f c = false) -> drop_while f s = s.
Proof.
  destruct s as [|c s]; [done|]. intros H. simpl. by rewrite (H c s).
Qed.

Lemma strip_join ws : Forall word ws -> strip (join [SPACE] ws) = join [SPACE] ws.
Proof.
  intros Hws. unfold strip.
  rewrite (drop_while_head _ (join _ _)) by (intros c s'; by apply join_head).
  rewrite drop_while_head; [apply rev_involutive|].
  intros c s' H. apply (join_last ws); [done|].
  rewrite <- (rev_involutive (join _ _)), H. simpl. apply last_snoc.
Qed.

Lemma word_take n w : word w -> n <> 0%nat -> word (take n w).
Proof.
  intros [Hne Hw] Hn. split; [|by apply Forall_take].
  destruct w; [done|]. by destruct n.
Qed.

(** A prefix of words joined by single spaces is again such a string,
    possibly followed by one space. *)
Lemma take_join n ws :
  Forall word ws ->
  exists ws', Forall word ws' /\
    (take n (join [SPACE] ws) = join [SPACE] ws'
     \/ ws' <> [] /\ take n (join [SPACE] ws) = join [SPACE] ws' ++ [SPACE]).
Proof.
  intros Hws. revert n. induction Hws as [|w ws Hw Hws IH]; intros n.
  - exists []. split; [constructor|]. left. simpl. by destruct n.
  - destruct (decide (n = 0%nat)) as [->|Hn].
    { exists []. split; [constructor|]. by left. }
    destruct ws as [|w' ws].
    + exists [take n w]. split; [|by left].
      constructor; [by apply word_take | constructor].
    + rewrite join_cons by done. rewrite take_app.
      destruct (decide (n <= length w)%nat) as [Hle|Hgt].
      * replace (n - length w)%nat with 0%nat by lia.
        rewrite take_0, app_nil_r. exists [take n w]. split; [|by left].
        constructor; [by apply word_take | constructor].
      * rewrite (take_ge w) by lia.
        destruct (n - length w)%nat as [|m] eqn:Hm; [lia|].
        change (take (S m) ([SPACE] ++ ?x)) with (SPACE :: take m x).
        destruct (IH m) as (ws' & Hws' & [E|[Hne E]]); rewrite E.
        -- destruct ws' as [|u ws'].
           ++ exists [w]. split; [constructor; [done | constructor]|].
              right. by split.
           ++ exists (w :: u :: ws'). split; [by constructor|]. by left.
        -- exists (w :: ws'). split; [by constructor|]. right. split; [done|].
           rewrite join_cons by done. by rewrite <- !app_assoc.
Qed.


End StringFacts.

(** ** Title normalization *)

Section NormalizeTitle.

Import Analyze.

Lemma punctuation_patterns : Forall pattern punctuation.
Proof.
  unfold pattern. apply (bool_decide_unpack _). by vm_compute.
Qed.

#[local] Abbreviation J := (join [SPACE]).

Lemma lower_fixed_SPACE : lower_fixed SPACE.
Proof. reflexivity. Qed.

Lemma normalize_str_eq t :
  normalize_str t
  = take 150 (J (split_ws (replace_all punctuation (J (split_ws (lower t)))))).
Proof. unfold normalize_str. by rewrite strip_join by apply split_ws_words. Qed.

(** A normalized title is a sequence of words separated by single spaces,
    followed by a space when the cut at 150 characters falls just after
    a word. *)
Lemma normalize_str_shape t :
  exists ws, Forall word ws /\
    (normalize_str t = J ws \/ ws <> [] /\ normalize_str t = J ws ++ [SPACE]).
Proof. rewrite normalize_str_eq. apply take_join, split_ws_words. Qed.

Lemma normalize_str_fixed t : Forall lower_fixed (normalize_str t).
Proof.
  rewrite normalize_str_eq. apply Forall_take.
  apply join_Forall; [by repeat constructor|]. apply split_ws_Forall.
  apply replace_all_Forall; [apply punctuation_patterns | done |].
  apply join_Forall; [by repeat constructor|]. apply split_ws_Forall.
  apply lower_Forall_fixed.
Qed.

Lemma normalize_str_free t p : p ∈ punctuation -> ~ occurs p (normalize_str t).
Proof.
  intros Hp H. rewrite normalize_str_eq in H.
  pose proof (proj1 (Forall_forall _ _) punctuation_patterns p Hp) as [Hne Hsp].
  assert (occurs p (J (split_ws (replace_all punctuation
                                    (J (split_ws (lower t))))))) as H'.
  { eapply occurs_trans; [exact H|].
    eexists [], _. rewrite app_nil_l. symmetry. apply take_drop. }
  apply join_occurs in H' as (w & Hw & Hpw); [|done..].
  apply split_ws_occurs in Hw.
  eapply replace_all_gone; [apply punctuation_patterns | exact Hp |].
  eapply occurs_trans; [exact Hpw | exact Hw].
Qed.

Lemma normalize_str_length t : (length (normalize_str t) <= 150)%nat.
Proof. unfold normalize_str. rewrite length_take. lia. Qed.

(** Normalizing words that are already in normal form, with or without a
    space after them, gives the words. *)
Lemma normalize_str_joined ws t :
  Forall word ws -> t = [] \/ t = [SPACE] ->
  Forall lower_fixed (J ws) ->
  (forall p, p ∈ punctuation -> ~ occurs p (J ws)) ->
  (length (J ws) <= 150)%nat ->
  normalize_str (J ws ++ t) = J ws.
Proof.
  intros Hws Ht Hfix Hfree Hlen. unfold normalize_str.
  rewrite lower_fixed_id.
  2:{ apply Forall_app. split; [done|]. destruct Ht as [->| ->]; by repeat constructor. }
  rewrite split_ws_join_gen by done.
  change (fold_left _ punctuation ?x) with (replace_all punctuation x).
  rewrite replace_all_id.
  2:{ apply Forall_forall. intros p Hp. split; [|by apply Hfree].
      by apply (proj1 (Forall_forall _ _) punctuation_patterns p Hp). }
  rewrite split_ws_join, strip_join by done. by apply take_ge.
Qed.

Lemma normalize_title_str t : normalize_title (JStr t) = Ok (normalize_str t).
Proof. by destruct t. Qed.

Lemma normalize_str_twice t :
  normalize_str (normalize_str t) = normalize_str t
  <-> last (normalize_str t) <> Some SPACE.
Proof.
  pose proof (normalize_str_fixed t) as Hfix.
  pose proof (normalize_str_free t) as Hfree.
  pose proof (normalize_str_length t) as Hlen.
  destruct (normalize_str_shape t) as (ws & Hws & [E|[Hne E]]);
    rewrite E in *.
  - split.
    + intros _ H. by apply join_last in H.
    + intros _. rewrite <- (app_nil_r (J ws)) at 1.
      apply normalize_str_joined; auto.
  - rewrite last_snoc. split; [|done]. intros H. exfalso.
    rewrite normalize_str_joined in H; auto.
    + apply (f_equal length) in H. rewrite length_app in H. simpl in H. lia.
    + by apply Forall_app in Hfix as [? _].
    + intros p Hp Hocc. apply (Hfree p Hp). by apply occurs_app_l.
    + rewrite length_app in Hlen. lia.
Qed.

(** The title of 151 characters [aaa...a b]: 149 times [a], a space, [b]. *)
Definition long_title : pystr := repeat 97%N 149 ++ lit " b".

(** C5, as stated, fails: the normalized long title keeps the space at
    position 150, and normalizing again removes it. *)
Lemma normalize_title_not_idempotent :
  normalize_title (JStr long_title) = Ok (repeat 97%N 149 ++ [SPACE])
  /\ normalize_title (JStr (repeat 97%N 149 ++ [SPACE])) = Ok (repeat 97%N 149).
Proof. split; vm_compute; reflexivity. Qed.

(** C5, amended: normalizing a normalized title returns it unchanged
    exactly when the normalized title does not end with a space; a title
    cut at 150 characters just after a word is shortened once more. *)
Theorem normalize_title_twice (t : pystr) :
  exists r, normalize_title (JStr t) = Ok r
    /\ (normalize_title (JStr r) = Ok r <-> last r <> Some SPACE).
Proof.
  exists (normalize_str t). split; [apply normalize_title_str|].
  rewrite normalize_title_str. rewrite <- normalize_str_twice.
  split; [by intros [= ->] | by intros ->].
Qed.

End NormalizeTitle.

(** ** Canonical keys *)

Section KeyResolver.

(** A field that is missing, [null] or a string. *)
Definition text_or_absent (v : option json) : bool :=
  match v with
  | None | Some JNull | Some (JStr _) => true
  | Some _ => false
  end.

Definition identifying_fields : list string :=
  ["title"; "doi"; "arxiv_id"; "openalex_id"; "s2_id"]%string.

(** A record is a JSON object whose identifying fields are each missing,
    [null] or a string. *)
Definition well_typed (paper : json) : bool :=
  match paper with
  | JDict d =>
      forallb (fun f => text_or_absent (dict_lookup (lit f) d))
        identifying_fields
  | _ => false
  end.

(** The text of a field; empty when the field is missing or [null]. *)
Definition field_text (paper : json) (f : string) : pystr :=
  match paper with
  | JDict d => match dict_lookup (lit f) d with
               | Some (JStr s) => s
               | _ => []
               end
  | _ => []
  end.

(** The key in a name space when the identifier [id] is not empty. *)
Definition in_namespace (ns : string) (id : pystr) : option pystr :=
  match id with
  | [] => None
  | _ => Some (lit ns ++ id)
  end.

(** The priority order of the design document: the name spaces from the
    first to the last, each with the key it gives when it is satisfied. *)
Definition namespaces (paper : json) : list (option pystr) :=
  [ in_namespace "title:" (Analyze.normalize_str (field_text paper "title"));
    in_namespace "arxiv:"
      (default [] (Analyze.search_arxiv_doi (lower (field_text paper "doi"))));
    in_namespace "arxiv:" (lower (field_text paper "arxiv_id"));
    in_namespace "doi:" (lower (field_text paper "doi"));
    in_namespace "openalex:" (lower (field_text paper "openalex_id"));
    in_namespace "s2:" (lower (field_text paper "s2_id")) ].

(** The order the visualization follows. *)
Definition graph_namespaces (paper : json) : list (option pystr) :=
  [ in_namespace "doi:" (lower (field_text paper "doi"));
    in_namespace "arxiv:" (lower (field_text paper "arxiv_id"));
    in_namespace "openalex:" (lower (field_text paper "openalex_id"));
    in_namespace "s2:" (lower (field_text paper "s2_id"));
    match field_text paper "title" with
    | [] => None
    | t => Some (lit "title:" ++ take 100 (lower t))
    end ].

(** First satisfied wins. *)
Fixpoint first_satisfied (l : list (option pystr)) : option pystr :=
  match l with
  | [] => None
  | Some key :: _ => Some key
  | None :: l' => first_satisfied l'
  end.

Lemma lower_nil_iff s : lower s = [] <-> s = [].
Proof. by destruct s. Qed.

Lemma in_namespace_lower ns s :
  in_namespace ns (lower s)
  = match s with [] => None | _ => Some (lit ns ++ lower s) end.
Proof. by destruct s. Qed.

Lemma match_arxiv_doi_at_nonempty s g :
  Analyze.match_arxiv_doi_at s = Some g -> g <> [].
Proof.
  unfold Analyze.match_arxiv_doi_at. intros H.
  repeat case_match; simplify_eq; by destruct (take_while is_digit _).
Qed.

Lemma search_arxiv_doi_nonempty s g :
  Analyze.search_arxiv_doi s = Some g -> g <> [].
Proof.
  induction s as [|c s IH]; simpl; [done|].
  destruct (Analyze.match_arxiv_doi_at (c :: s)) as [g'|] eqn:E; [|done].
  intros [= <-]. by apply match_arxiv_doi_at_nonempty in E.
Qed.

Definition text (v : option json) : pystr :=
  match v with
  | Some (JStr s) => s
  | _ => []
  end.

(** What a condition and [.lower()] see of a field that is missing,
    [null] or a string. *)
Lemma text_or_absent_inv v dflt :
  text_or_absent v = true -> dflt = JNull \/ dflt = JStr [] ->
  let x := from_option id dflt v in
  truthy x = match text v with [] => false | _ => true end
  /\ (truthy x = true -> py_lower x = Ok (lower (text v))).
Proof.
  intros Hv Hd. destruct v as [[| | |t| |]|]; try discriminate Hv; simpl.
  - done.
  - by destruct t.
  - destruct Hd as [-> | ->]; by simpl.
Qed.

Lemma well_typed_inv d :
  well_typed (JDict d) = true ->
  Forall (fun f => text_or_absent (dict_lookup (lit f) d) = true)
    identifying_fields.
Proof.
  unfold well_typed. intros H. apply Forall_forall. intros f Hf.
  rewrite forallb_forall in H. apply H. by apply list_elem_of_In.
Qed.

Lemma analyze_key_resolve paper :
  well_typed paper = true ->
  Analyze.get_paper_key paper = Ok (first_satisfied (namespaces paper)).
Proof.
  destruct paper as [| | | | |d]; try done. intros H.
  apply well_typed_inv in H.
  unfold identifying_fields in H.
  repeat (apply Forall_cons in H as [? H]).
  unfold Analyze.get_paper_key, namespaces, field_text, py_get.
  fold (text (dict_lookup (lit "title") d)).
  fold (text (dict_lookup (lit "doi") d)).
  fold (text (dict_lookup (lit "arxiv_id") d)).
  fold (text (dict_lookup (lit "openalex_id") d)).
  fold (text (dict_lookup (lit "s2_id") d)).
  clear H. revert H0 H1 H2 H3 H4.
  generalize (dict_lookup (lit "title") d) (dict_lookup (lit "doi") d)
    (dict_lookup (lit "arxiv_id") d) (dict_lookup (lit "openalex_id") d)
    (dict_lookup (lit "s2_id") d).
  intros vt vd va vo vs Ht Hd Ha Ho Hs.
  (* the title *)
  assert (forall k : option pystr -> result (option pystr),
            (forall key, k (Some key) = Ok (Some key)) ->
            ((if truthy (default (JStr []) vt)
              then Analyze.normalize_title (default (JStr []) vt)
                   ≫= λ normalized : list N,
                     Ok match normalized with
                        | [] => None
                        | _ :: _ => Some (lit "title:" ++ normalized)
                        end
              else Ok None) ≫= k)
            = match in_namespace "title:" (Analyze.normalize_str (text vt)) with
              | Some key => Ok (Some key)
              | None => k None
              end) as Htitle.
  { intros k Hk. destruct vt as [[| | |t| |]|]; try discriminate Ht; try done.
    destruct t as [|c t]; [done|]. cbn [default id truthy text].
    rewrite normalize_title_str. cbn [mbind result_bind Py.bind].
    unfold in_namespace. by destruct (Analyze.normalize_str (c :: t)). }
  etrans; [apply Htitle; done|]. clear Htitle Ht.
  cbn [first_satisfied].
  destruct (in_namespace "title:" _); [done|].
  (* the DOI of an arXiv paper *)
  unfold Analyze.extract_arxiv_id_from_doi.
  cbn [mbind result_bind Py.bind].
  destruct (text_or_absent_inv vd (JStr []) Hd) as [Hd1 Hd2]; [by right|].
  destruct (text_or_absent_inv va (JStr []) Ha) as [Ha1 Ha2]; [by right|].
  destruct (text_or_absent_inv vo JNull Ho) as [Ho1 Ho2]; [by left|].
  destruct (text_or_absent_inv vs JNull Hs) as [Hs1 Hs2]; [by left|].
  cbv zeta in *.
  rewrite !in_namespace_lower.
  destruct (truthy (default (JStr []) vd)) eqn:Ed.
  - rewrite Hd2 by done. cbn [negb mbind result_bind Py.bind].
    destruct (Analyze.search_arxiv_doi (lower (text vd))) as [g|] eqn:Eg.
    + apply search_arxiv_doi_nonempty in Eg. cbn [default id].
      unfold in_namespace. by destruct g.
    + cbn [default id in_namespace].
      destruct (truthy (default (JStr []) va)) eqn:Ea.
      * rewrite Ha2 by done. by destruct (text va).
      * destruct (text va); [|done]. by destruct (text vd).
  - cbn [negb mbind result_bind Py.bind].
    destruct (text vd); [|done]. cbn [lower map Analyze.search_arxiv_doi].
    change (Analyze.search_arxiv_doi []) with (@None pystr).
    cbn [default id in_namespace].
    destruct (truthy (default (JStr []) va)) eqn:Ea.
    + rewrite Ha2 by done. by destruct (text va).
    + destruct (text va); [|done].
      destruct (truthy (default JNull vo)) eqn:Eo.
      * rewrite Ho2 by done. by destruct (text vo).
      * destruct (text vo); [|done].
        destruct (truthy (default JNull vs)) eqn:Es.
        -- rewrite Hs2 by done. by destruct (text vs).
        -- by destruct (text vs).
Qed.

Lemma graph_key_resolve paper :
  well_typed paper = true ->
  Visualize.get_paper_key paper
  = Ok (first_satisfied (graph_namespaces paper)).
Proof.
  destruct paper as [| | | | |d]; try done. intros H.
  apply well_typed_inv in H. unfold identifying_fields in H.
  repeat (apply Forall_cons in H as [? H]). clear H.
  unfold Visualize.get_paper_key, graph_namespaces, field_text, py_get, py_item.
  repeat match goal with
         | H : text_or_absent ?v = true |- _ => revert H; generalize v
         end.
  intros vs Hs vo Ho va Ha vd Hd vt Ht.
  destruct vd as [[| | |[|? ?]| |]|]; try discriminate Hd; try done;
  destruct va as [[| | |[|? ?]| |]|]; try discriminate Ha; try done;
  destruct vo as [[| | |[|? ?]| |]|]; try discriminate Ho; try done;
  destruct vs as [[| | |[|? ?]| |]|]; try discriminate Hs; try done;
  destruct vt as [[| | |[|? ?]| |]|]; try discriminate Ht; done.
Qed.

(** The record of a paper with a title and a DOI. *)
Definition titled_with_doi : json :=
  JDict [kv "title" (jstr "Paper X"); kv "doi" (jstr "10.1/X")].

(** C2, as stated, fails for the visualization: on a record with a title
    and a DOI the priority order gives the title key, and the
    visualization's [get_paper_key] returns the DOI key. *)
Lemma graph_key_not_title_first :
  first_satisfied (namespaces titled_with_doi) = Some (lit "title:paper x")
  /\ Analyze.get_paper_key titled_with_doi = Ok (Some (lit "title:paper x"))
  /\ Visualize.get_paper_key titled_with_doi = Ok (Some (lit "doi:10.1/x")).
Proof. repeat split; vm_compute; reflexivity. Qed.

(** C2, amended: on every record whose identifying fields are each
    missing, [null] or a string, the analysis derives the key of the first
    satisfied name space in the order normalized title, arXiv id found in
    the DOI, arXiv id, DOI, OpenAlex id, Semantic Scholar id, and no key
    when none is satisfied; the visualization follows the order DOI,
    arXiv id, OpenAlex id, Semantic Scholar id, then the lower-cased
    title cut at 100 characters. *)
Theorem key_priority (paper : json) :
  well_typed paper = true ->
  Analyze.get_paper_key paper = Ok (first_satisfied (namespaces paper))
  /\ Visualize.get_paper_key paper
     = Ok (first_satisfied (graph_namespaces paper)).
Proof.
  intros H. split; [by apply analyze_key_resolve | by apply graph_key_resolve].
Qed.

Lemma key_priority_witness :
  well_typed titled_with_doi = true
  /\ Analyze.get_paper_key titled_with_doi
     = Ok (first_satisfied (namespaces titled_with_doi))
  /\ Visualize.get_paper_key titled_with_doi
     = Ok (first_satisfied (graph_namespaces titled_with_doi)).
Proof.
  split; [reflexivity | apply (key_priority titled_with_doi); reflexivity].
Defined.

(** A record whose title is a number, and a [null] in place of a record. *)
Definition numeric_title : json := JDict [kv "title" (JNum 5)].

(** C8, as stated, fails: a truthy field of another type than string
    raises when the function reaches it, and so does a record that is
    not an object. *)
Lemma get_paper_key_raises :
  Analyze.get_paper_key numeric_title = Raise AttributeError
  /\ Analyze.get_paper_key (JDict [kv "doi" (JNum 5)]) = Raise AttributeError
  /\ Analyze.get_paper_key JNull = Raise AttributeError
  /\ Analyze.normalize_title (JNum 5) = Raise AttributeError
  /\ Analyze.extract_arxiv_id_from_doi (JNum 5) = Raise AttributeError.
Proof. repeat split; vm_compute; reflexivity. Qed.

(** A step of the derivation: the value of a field, and the key a string
    in that field gives, if it gives one. *)
Definition stage : Type := json * (pystr -> option pystr).

(** Going through the steps: a falsy value is passed over; a string
    decides when it gives a key and is passed over when it gives none; a
    truthy value that is not a string raises.  What comes after the
    deciding step is not looked at. *)
Fixpoint resolve (stages : list stage) : result (option pystr) :=
  match stages with
  | [] => Ok None
  | (v, key_of) :: rest =>
      if truthy v then
        match v with
        | JStr s => match key_of s with
                    | Some k => Ok (Some k)
                    | None => resolve rest
                    end
        | _ => Raise AttributeError
        end
      else resolve rest
  end.

(** [paper.get(f, dflt)] on the bindings of an object. *)
Definition got (d : odict json) (f : string) (dflt : json) : json :=
  default dflt (dict_lookup (lit f) d).

(** The steps of the analysis: the title, the DOI for the arXiv pattern,
    the arXiv id, the DOI, the OpenAlex id, the Semantic Scholar id. *)
Definition analysis_stages (d : odict json) : list stage :=
  [ (got d "title" (JStr []),
     fun t => in_namespace "title:" (Analyze.normalize_str t));
    (got d "doi" (JStr []),
     fun s => in_namespace "arxiv:"
                (default [] (Analyze.search_arxiv_doi (lower s))));
    (got d "arxiv_id" (JStr []), fun s => Some (lit "arxiv:" ++ lower s));
    (got d "doi" (JStr []), fun s => Some (lit "doi:" ++ lower s));
    (got d "openalex_id" JNull, fun s => Some (lit "openalex:" ++ lower s));
    (got d "s2_id" JNull, fun s => Some (lit "s2:" ++ lower s)) ].

(** A value a key function can work with: falsy, or a string. *)
Definition usable (v : json) : Prop := truthy v = true -> exists s, v = JStr s.

(** A value on which [.lower()] fails: truthy and not a string. *)
Definition unusable (v : json) : Prop :=
  truthy v = true /\ forall s, v <> JStr s.

Lemma resolve_total stages :
  Forall (fun st : stage => usable st.1) stages ->
  exists key, resolve stages = Ok key.
Proof.
  induction 1 as [|[v key_of] stages Hv _ IH]; [by eexists|].
  cbn [resolve]. unfold usable in Hv. cbn [fst] in Hv.
  destruct (truthy v) eqn:Et; [|exact IH].
  destruct (Hv eq_refl) as (s & ->). destruct (key_of s); [by eexists | exact IH].
Qed.

Lemma resolve_raises stages e :
  resolve stages = Raise e ->
  e = AttributeError /\ Exists (fun st : stage => unusable st.1) stages.
Proof.
  induction stages as [|[v key_of] stages IH]; [done|]. cbn [resolve].
  destruct (truthy v) eqn:Et.
  - destruct v as [|b|z|s|l|o];
      try (intros [= <-]; split; [done|]; apply Exists_cons_hd; by split).
    destruct (key_of s); [done|]. intros H.
    destruct (IH H) as [-> Hex]. split; [done|]. by apply Exists_cons_tl.
  - intros H. destruct (IH H) as [-> Hex]. split; [done|].
    by apply Exists_cons_tl.
Qed.

(** The title step of the code. *)
Lemma title_stage (t : json) (K : result (option pystr)) :
  ((if truthy t
    then Analyze.normalize_title t
         ≫= λ normalized : list N,
           Ok match normalized with
              | [] => None
              | _ :: _ => Some (lit "title:" ++ normalized)
              end
    else Ok None)
   ≫= λ by_title : option pystr,
     match by_title with
     | Some key => Ok (Some key)
     | None => K
     end)
  = if truthy t then
      match t with
      | JStr s => match in_namespace "title:" (Analyze.normalize_str s) with
                  | Some k => Ok (Some k)
                  | None => K
                  end
      | _ => Raise AttributeError
      end
    else K.
Proof.
  destruct (truthy t) eqn:Et; [|done].
  destruct t as [|b|z|s|l|o]; try discriminate Et;
    unfold Analyze.normalize_title; rewrite Et; cbn [negb]; try done.
Qed.

(** The step that looks for the arXiv pattern in the DOI. *)
Lemma arxiv_doi_stage (doi : json) (K : result (option pystr)) :
  (Analyze.extract_arxiv_id_from_doi doi
   ≫= λ arxiv_from_doi : option pystr,
     match arxiv_from_doi with
     | Some a => Ok (Some (lit "arxiv:" ++ a))
     | None => K
     end)
  = if truthy doi then
      match doi with
      | JStr s =>
          match in_namespace "arxiv:"
                  (default [] (Analyze.search_arxiv_doi (lower s))) with
          | Some k => Ok (Some k)
          | None => K
          end
      | _ => Raise AttributeError
      end
    else K.
Proof.
  unfold Analyze.extract_arxiv_id_from_doi.
  destruct (truthy doi) eqn:Et; [|done]. cbn [negb].
  destruct doi as [|b|z|s|l|o]; try discriminate Et; try done.
  cbn [py_lower mbind result_bind Py.bind].
  destruct (Analyze.search_arxiv_doi (lower s)) as [g|] eqn:Eg; [|done].
  apply search_arxiv_doi_nonempty in Eg. cbn [default from_option id].
  unfold in_namespace. by destruct g.
Qed.

(** A step that lower-cases an identifier. *)
Lemma id_stage (v : json) (ns : string) (K : result (option pystr)) :
  (if truthy v
   then py_lower v ≫= λ l : pystr, Ok (Some (lit ns ++ l))
   else K)
  = if truthy v then
      match v with
      | JStr s => Ok (Some (lit ns ++ lower s))
      | _ => Raise AttributeError
      end
    else K.
Proof. destruct (truthy v); [|done]. by destruct v. Qed.

(** The analysis' key function goes through its steps. *)
Lemma analyze_key_stages d :
  Analyze.get_paper_key (JDict d) = resolve (analysis_stages d).
Proof.
  unfold Analyze.get_paper_key, analysis_stages.
  cbn [py_get mbind result_bind Py.bind resolve].
  fold (got d "title" (JStr [])). fold (got d "doi" (JStr [])).
  fold (got d "arxiv_id" (JStr [])). fold (got d "openalex_id" JNull).
  fold (got d "s2_id" JNull).
  etrans; [apply title_stage|].
  destruct (truthy (got d "title" (JStr []))) eqn:Et.
  - destruct (got d "title" (JStr [])) as [| | |s| |]; try done.
    destruct (in_namespace "title:" (Analyze.normalize_str s)); [done|].
    etrans; [apply arxiv_doi_stage|].
    rewrite (id_stage (got d "arxiv_id" (JStr [])) "arxiv:"),
      (id_stage (got d "doi" (JStr [])) "doi:"),
      (id_stage (got d "openalex_id" JNull) "openalex:"),
      (id_stage (got d "s2_id" JNull) "s2:").
    done.
  - etrans; [apply arxiv_doi_stage|].
    rewrite (id_stage (got d "arxiv_id" (JStr [])) "arxiv:"),
      (id_stage (got d "doi" (JStr [])) "doi:"),
      (id_stage (got d "openalex_id" JNull) "openalex:"),
      (id_stage (got d "s2_id" JNull) "s2:").
    done.
Qed.

(** C8, amended: on every JSON value [get_paper_key] returns a key or
    no key, or raises [AttributeError]; it raises nothing else.  On an
    object it goes through the title (a key when the normalized title is
    not empty), the DOI (a key when the arXiv pattern is found in it), the
    arXiv id, the DOI, the OpenAlex id and the Semantic Scholar id: a
    falsy value (missing, [null], empty, zero, false) is passed over, the
    first string that gives a key decides, and a truthy value that is not
    a string raises when it is reached; what comes after the deciding
    field is not examined.  So the function returns on every object whose
    identifying fields are each falsy or a string, and raises only on a
    value that is not an object or on an object with a truthy field that
    is not a string.  [normalize_title] and [extract_arxiv_id_from_doi]
    return on a falsy value and on a string, and raise on every other
    value. *)
Theorem get_paper_key_total (paper : json) :
  match paper with
  | JDict d =>
      Analyze.get_paper_key paper = resolve (analysis_stages d)
      /\ (Forall (fun st : stage => usable st.1) (analysis_stages d) ->
          exists key, Analyze.get_paper_key paper = Ok key)
      /\ (forall e, Analyze.get_paper_key paper = Raise e ->
            e = AttributeError
            /\ Exists (fun st : stage => unusable st.1) (analysis_stages d))
  | _ => Analyze.get_paper_key paper = Raise AttributeError
  end
  /\ (forall v, usable v ->
        (exists n, Analyze.normalize_title v = Ok n)
        /\ (exists a, Analyze.extract_arxiv_id_from_doi v = Ok a))
  /\ (forall v, unusable v ->
        Analyze.normalize_title v = Raise AttributeError
        /\ Analyze.extract_arxiv_id_from_doi v = Raise AttributeError).
Proof.
  split; [|split].
  - destruct paper as [| | | | |d]; try reflexivity.
    rewrite analyze_key_stages. split; [done|]. split.
    + apply resolve_total.
    + apply resolve_raises.
  - intros v Hv. unfold Analyze.normalize_title,
      Analyze.extract_arxiv_id_from_doi.
    destruct (truthy v) eqn:Et; cbn [negb]; [|split; by eexists].
    destruct (Hv Et) as (s & ->). split; by eexists.
  - intros v [Et Hv]. unfold Analyze.normalize_title,
      Analyze.extract_arxiv_id_from_doi. rewrite Et. cbn [negb].
    destruct v as [| | |s| |]; try done. by destruct (Hv s).
Qed.

(** A degenerate record: every identifying field is [null] or empty. *)
Definition degenerate : json :=
  JDict [kv "title" JNull; kv "doi" (jstr ""); kv "arxiv_id" JNull;
         kv "authors" (JList [])].

(** A record with a title, and a number where the DOI should be. *)
Definition titled_with_numeric_doi : odict json :=
  [kv "title" (jstr "Paper X"); kv "doi" (JNum 5)].

(** A record whose identifying fields are falsy values of other types. *)
Definition falsy_fields : odict json :=
  [kv "title" (JNum 0); kv "doi" (JBool false); kv "arxiv_id" (JList []);
   kv "openalex_id" (JDict []); kv "s2_id" (jstr "S2")].

Lemma get_paper_key_total_witness :
  Analyze.get_paper_key (JDict titled_with_numeric_doi)
  = Ok (Some (lit "title:paper x"))
  /\ Forall (fun st : stage => usable st.1) (analysis_stages falsy_fields)
  /\ (exists key, Analyze.get_paper_key (JDict falsy_fields) = Ok key)
  /\ Analyze.get_paper_key (JDict falsy_fields) = Ok (Some (lit "s2:s2"))
  /\ (exists key, Analyze.get_paper_key degenerate = Ok key).
Proof.
  assert (Hf : Forall (fun st : stage => usable st.1)
                 (analysis_stages falsy_fields)).
  { repeat constructor; intros H; vm_compute in H; try discriminate H.
    by eexists. }
  assert (Hd : Forall (fun st : stage => usable st.1)
                 (analysis_stages [kv "title" JNull; kv "doi" (jstr "");
                                   kv "arxiv_id" JNull;
                                   kv "authors" (JList [])])).
  { repeat constructor; intros H; vm_compute in H; discriminate H. }
  split.
  - rewrite (proj1 (proj1 (get_paper_key_total
                             (JDict titled_with_numeric_doi)))).
    vm_compute. reflexivity.
  - split; [exact Hf|]. split; [|split].
    + exact (proj1 (proj2 (proj1 (get_paper_key_total (JDict falsy_fields))))
               Hf).
    + vm_compute. reflexivity.
    + exact (proj1 (proj2 (proj1 (get_paper_key_total degenerate))) Hd).
Defined.

End KeyResolver.

(** ** Loops and dicts *)

Section Loops.

Context {A S : Type}.
Implicit Types (f : S -> A -> result S) (l : list A).

Lemma bind_Ok {X Y} (m : result X) (k : X -> result Y) y :
  m ≫= k = Ok y <-> exists x, m = Ok x /\ k x = Ok y.
Proof.
  destruct m as [x|e]; simpl; split.
  - intros H. by exists x.
  - by intros (x' & [= ->] & H).
  - done.
  - by intros (x' & [=] & _).
Qed.

Lemma foldM_app f l1 l2 s :
  foldM f (l1 ++ l2) s = foldM f l1 s ≫= foldM f l2.
Proof.
  revert s. induction l1 as [|x l1 IH]; intros s; simpl; [done|].
  destruct (f s x) as [s'|e]; simpl; [apply IH | done].
Qed.

(** An invariant of a loop that ends without an exception, indexed by the
    elements already processed. *)
Lemma foldM_invariant f (Q : list A -> S -> Prop) l s0 s :
  Q [] s0 ->
  (forall pre x post s s',
      l = pre ++ x :: post -> Q pre s -> f s x = Ok s' -> Q (pre ++ [x]) s') ->
  foldM f l s0 = Ok s -> Q l s.
Proof.
  intros H0 Hstep.
  enough (forall post pre s1, l = pre ++ post -> Q pre s1 ->
            foldM f post s1 = Ok s -> Q l s) as H.
  { intros Hl. by apply (H l [] s0). }
  induction post as [|x post IH]; intros pre s1 Hl HQ Hf.
  - injection Hf as <-. by rewrite Hl, app_nil_r.
  - simpl in Hf. apply bind_Ok in Hf as (s' & Hx & Hf).
    apply (IH (pre ++ [x]) s'); [by rewrite <- app_assoc | | done].
    by eapply Hstep.
Qed.

(** An element whose step leaves every state as it is can be removed. *)
Lemma foldM_skip f pre x post s :
  (forall s, f s x = Ok s) ->
  foldM f (pre ++ x :: post) s = foldM f (pre ++ post) s.
Proof.
  intros Hx. rewrite !foldM_app. destruct (foldM f pre s) as [s'|e]; [|done].
  simpl. by rewrite Hx.
Qed.

End Loops.

Section Dicts.

Context {V : Type}.
Implicit Types (d : odict V) (k : pystr) (v : V).

Lemma str_eqb_eq (a b : pystr) : str_eqb a b = true <-> a = b.
Proof. unfold str_eqb. apply bool_decide_eq_true. Qed.

Lemma str_eqb_refl (a : pystr) : str_eqb a a = true.
Proof. by apply str_eqb_eq. Qed.

Lemma str_eqb_ne (a b : pystr) : a <> b -> str_eqb a b = false.
Proof. unfold str_eqb. apply bool_decide_eq_false. Qed.

Lemma od_lookup_cons k k' v d :
  od_lookup k ((k', v) :: d) = if decide (k = k') then Some v else od_lookup k d.
Proof.
  simpl. destruct (decide (k = k')) as [->|Hne].
  - by rewrite str_eqb_refl.
  - by rewrite str_eqb_ne.
Qed.

Lemma od_lookup_None k d : od_lookup k d = None <-> k ∉ od_keys d.
Proof.
  induction d as [|[k' v] d IH].
  - split; [intros _; apply not_elem_of_nil | done].
  - rewrite od_lookup_cons. unfold od_keys in *. simpl.
    rewrite not_elem_of_cons. case_decide; [|tauto].
    split; [done | by intros [? _]].
Qed.

Lemma od_lookup_Some_elem k v d : od_lookup k d = Some v -> (k, v) ∈ d.
Proof.
  induction d as [|[k' v'] d IH]; [done|]. rewrite od_lookup_cons.
  case_decide as Hk; [intros [= ->]; subst; by left | intros Hl; right; by apply IH].
Qed.

Lemma od_lookup_is_Some k d : is_Some (od_lookup k d) <-> k ∈ od_keys d.
Proof.
  rewrite <- not_eq_None_Some, od_lookup_None.
  split; [apply dec_stable | by intros ? ?].
Qed.

Lemma od_elem_lookup k v d : NoDup (od_keys d) -> (k, v) ∈ d -> od_lookup k d = Some v.
Proof.
  induction d as [|[k' v'] d IH]; intros Hnd Hin.
  - by apply elem_of_nil in Hin.
  - unfold od_keys in Hnd. simpl in Hnd. apply NoDup_cons in Hnd as [Hk Hnd].
    rewrite od_lookup_cons. apply elem_of_cons in Hin as [[= -> ->]|Hin].
    + by rewrite decide_True.
    + rewrite decide_False; [by apply IH|]. intros ->. apply Hk.
      apply list_elem_of_fmap. by exists (k', v).
Qed.

Lemma od_lookup_app k d d' :
  od_lookup k (d ++ d')
  = match od_lookup k d with Some v => Some v | None => od_lookup k d' end.
Proof.
  induction d as [|[k' v] d IH]; [done|]. simpl.
  by destruct (str_eqb k k').
Qed.

Lemma od_keys_alter g k d : od_keys (od_alter g k d) = od_keys d.
Proof.
  unfold od_keys. induction d as [|[k' v] d IH]; [done|]. simpl.
  destruct (str_eqb k k'); simpl; [done | by rewrite IH].
Qed.

Lemma od_lookup_alter g k k' d :
  od_lookup k' (od_alter g k d)
  = if decide (k = k') then g <$> od_lookup k d else od_lookup k' d.
Proof.
  induction d as [|[k0 v] d IH]; simpl.
  - by case_decide.
  - destruct (str_eqb k k0) eqn:E.
    + apply str_eqb_eq in E as ->. rewrite od_lookup_cons.
      destruct (decide (k0 = k')) as [->|Hne].
      * by rewrite decide_True.
      * rewrite decide_False by done. by rewrite str_eqb_ne.
    + rewrite od_lookup_cons, IH.
      destruct (decide (k = k')) as [->|Hne].
      * rewrite decide_False; [done|]. intros ->. by rewrite str_eqb_refl in E.
      * case_decide; [by subst; rewrite str_eqb_refl | ].
        by rewrite str_eqb_ne.
Qed.

Lemma od_keys_touch k v d :
  od_keys (od_touch k v d)
  = if decide (k ∈ od_keys d) then od_keys d else od_keys d ++ [k].
Proof.
  unfold od_touch. destruct (od_lookup k d) eqn:E.
  - rewrite decide_True; [done|]. by apply od_lookup_is_Some.
  - apply od_lookup_None in E. rewrite decide_False by done.
    unfold od_keys. by rewrite fmap_app.
Qed.

Lemma od_lookup_touch k k' v d :
  od_lookup k' (od_touch k v d)
  = if decide (k = k') then Some (default v (od_lookup k d)) else od_lookup k' d.
Proof.
  unfold od_touch. destruct (od_lookup k d) as [v0|] eqn:E.
  - case_decide; [by subst | done].
  - rewrite od_lookup_app. simpl. destruct (decide (k = k')) as [<-|Hne].
    + by rewrite E, str_eqb_refl.
    + rewrite (str_eqb_ne k' k) by done. by destruct (od_lookup k' d).
Qed.

Lemma od_keys_set k v d :
  od_keys (od_set k v d)
  = if decide (k ∈ od_keys d) then od_keys d else od_keys d ++ [k].
Proof.
  unfold od_keys. induction d as [|[k' v'] d IH]; simpl.
  - done.
  - destruct (str_eqb k k') eqn:E.
    + apply str_eqb_eq in E as ->. rewrite decide_True; [done | by left].
    + simpl. rewrite IH. assert (k <> k') by (intros ->; by rewrite str_eqb_refl in E).
      destruct (decide (k ∈ map fst d)).
      * rewrite decide_True; [done | by right].
      * rewrite decide_False; [done|]. by apply not_elem_of_cons.
Qed.

Lemma od_lookup_set k k' v d :
  od_lookup k' (od_set k v d)
  = if decide (k = k') then Some v else od_lookup k' d.
Proof.
  induction d as [|[k0 v0] d IH]; simpl.
  - case_decide; [by subst; rewrite str_eqb_refl | by rewrite str_eqb_ne].
  - destruct (str_eqb k k0) eqn:E.
    + apply str_eqb_eq in E as ->. rewrite od_lookup_cons.
      destruct (decide (k0 = k')) as [->|Hne].
      * by rewrite decide_True.
      * rewrite decide_False by done. by rewrite str_eqb_ne.
    + rewrite od_lookup_cons, IH.
      assert (k <> k0) by (intros ->; by rewrite str_eqb_refl in E).
      destruct (decide (k = k')) as [->|Hne].
      * by rewrite decide_False.
      * case_decide; [by subst; rewrite str_eqb_refl | by rewrite str_eqb_ne].
Qed.

End Dicts.

(** ** Views of the input document *)

(** What the loops of both entry points read of a seed entry; [key_of] is
    the entry point's [get_paper_key]. *)
Section Views.

Variable key_of : json -> result (option pystr).

(** The test [if paper.get("metadata")]. *)
Definition has_metadata (paper : json) : bool :=
  match py_get paper "metadata" JNull with
  | Ok m => truthy m
  | Raise _ => false
  end.

Definition metadata_of (paper : json) : json :=
  match py_get paper "metadata" JNull with
  | Ok m => m
  | Raise _ => JNull
  end.

(** The key of a record, when it has one. *)
Definition resolved (record : json) : option pystr :=
  match key_of record with
  | Ok (Some (c :: k)) => Some (c :: k)
  | _ => None
  end.

(** The seed key contributed by a seed entry. *)
Definition seed_key (paper : json) : option pystr :=
  if has_metadata paper then resolved (metadata_of paper) else None.

(** The records listed under the field [relation] of a seed entry. *)
Definition related (relation : string) (paper : json) : list json :=
  match py_get paper relation (JList []) with
  | Ok v => match py_iter v with Ok l => l | Raise _ => [] end
  | Raise _ => []
  end.

(** The keys listed under [relation], one for each resolvable record, in
    the order of the list. *)
Definition related_keys (relation : string) (paper : json) : list pystr :=
  omap resolved (related relation paper).

End Views.

(** The seed entries of a document. *)
Definition papers_of (data : json) : list json := related "papers" data.

(** ** The analysis *)

Section Aggregation.

Import Analyze.

Implicit Types (idx : index) (k : pystr) (paper ref : json).

(** The element recorded for a seed entry in [cited_by_seed] and
    [cites_seed]: its input DOI and its display label. *)
Definition occurrence_of (paper : json) : occurrence :=
  {| occ_doi := match py_get paper "input_doi" (JStr []) with
                | Ok d => d
                | Raise _ => JStr []
                end;
     occ_title := match get_seed_paper_label paper with
                  | Ok l => l
                  | Raise _ => JNull
                  end |}.

(** All pairs of a listed key and the seed entry listing it, in the order
    the loops meet them: one pair for each resolvable record of the
    relation list of each seed entry with metadata. *)
Definition listing (relation : string) (papers : list json)
  : list (pystr * occurrence) :=
  flat_map (fun paper =>
              if has_metadata paper
              then map (fun k => (k, occurrence_of paper))
                     (related_keys get_paper_key relation paper)
              else []) papers.

(** The occurrences recorded for key [k]. *)
Definition occurrences (k : pystr) (L : list (pystr * occurrence))
  : list occurrence :=
  map snd (filter (fun p => p.1 = k) L).

(** An index holds exactly the pairs of [L]. *)
Definition represents (L : list (pystr * occurrence)) (idx : index) : Prop :=
  NoDup (od_keys idx)
  /\ (forall k, k ∈ od_keys idx <-> k ∈ map fst L)
  /\ (forall k e, od_lookup k idx = Some e ->
         by_seed e = occurrences k L /\ metadata e <> None).

Lemma key_truthy_resolved key_of record (key : option pystr) :
  key_of record = Ok key -> key_truthy key = resolved key_of record.
Proof. intros H. unfold resolved. rewrite H. by destruct key as [[|]|]. Qed.

Lemma occurrences_app k L L' :
  occurrences k (L ++ L') = occurrences k L ++ occurrences k L'.
Proof. unfold occurrences. by rewrite filter_app, map_app. Qed.

Lemma occurrences_absent k L : k ∉ map fst L -> occurrences k L = [].
Proof.
  unfold occurrences. induction L as [|[k' o] L IH]; intros H; [done|].
  simpl in H. apply not_elem_of_cons in H as [Hne H].
  rewrite filter_cons_False by (simpl; congruence). by apply IH.
Qed.

Lemma record_occurrence_inv k ref occ idx idx' :
  record_occurrence k ref occ idx = Ok idx' ->
  od_keys idx'
  = (if decide (k ∈ od_keys idx) then od_keys idx else od_keys idx ++ [k])
  /\ (forall k', k' <> k -> od_lookup k' idx' = od_lookup k' idx)
  /\ exists e', od_lookup k idx' = Some e'
       /\ by_seed e' = by_seed (default default_entry (od_lookup k idx)) ++ [occ]
       /\ metadata e' <> None.
Proof.
  unfold record_occurrence. intros H.
  apply bind_Ok in H as (idx2 & H2 & [= <-]).
  set (idx1 := od_touch k default_entry idx) in *.
  set (e1 := default default_entry (od_lookup k idx)).
  assert (od_lookup k idx1 = Some e1) as H1.
  { unfold idx1. rewrite od_lookup_touch. by rewrite decide_True. }
  assert (od_keys idx2 = od_keys idx1
          /\ (forall k', k' <> k -> od_lookup k' idx2 = od_lookup k' idx1)
          /\ exists e2, od_lookup k idx2 = Some e2
               /\ by_seed e2 = by_seed e1 /\ metadata e2 <> None)
    as (Hk2 & Ho2 & e2 & He2 & Hb2 & Hm2).
  { rewrite H1 in H2. destruct e1 as [[m|] b] eqn:Ee1.
    - injection H2 as <-. split; [done|]. split; [done|].
      eexists. split; [exact H1|]. by split.
    - apply bind_Ok in H2 as (c & Hc & [= <-]).
      rewrite od_keys_alter. split; [done|]. split.
      + intros k' Hne. rewrite od_lookup_alter. by rewrite decide_False.
      + rewrite od_lookup_alter, decide_True, H1 by done.
        eexists. split; [done|]. by split. }
  rewrite od_keys_alter, Hk2. split; [apply od_keys_touch|]. split.
  - intros k' Hne. rewrite od_lookup_alter, decide_False by done.
    rewrite Ho2 by done. unfold idx1. rewrite od_lookup_touch.
    by rewrite decide_False.
  - rewrite od_lookup_alter, decide_True, He2 by done.
    eexists. split; [done|]. simpl. by rewrite Hb2.
Qed.

Lemma record_occurrence_represents L idx k ref occ idx' :
  represents L idx -> record_occurrence k ref occ idx = Ok idx' ->
  represents (L ++ [(k, occ)]) idx'.
Proof.
  intros (Hnd & Hkeys & Hocc) H.
  apply record_occurrence_inv in H as (Hk' & Ho' & e' & He' & Hb' & Hm').
  split; [|split].
  - rewrite Hk'. case_decide; [done|].
    apply NoDup_app. split; [done|]. split; [|apply NoDup_singleton].
    intros x Hx Hx'. apply list_elem_of_singleton in Hx'. by subst.
  - intros k'. rewrite Hk', map_app, elem_of_app. simpl.
    rewrite list_elem_of_singleton, <- Hkeys.
    case_decide; [|by rewrite elem_of_app, list_elem_of_singleton].
    split; [by left | by intros [?| ->]].
  - intros k' e He. rewrite occurrences_app.
    destruct (decide (k' = k)) as [->|Hne].
    + rewrite He' in He. injection He as <-. split; [|done].
      rewrite Hb'. unfold occurrences at 2. simpl.
      rewrite filter_cons_True, filter_nil by done. simpl. f_equal.
      destruct (od_lookup k idx) as [e|] eqn:E; simpl.
      * by apply Hocc.
      * symmetry. apply occurrences_absent. rewrite <- Hkeys.
        by apply od_lookup_None.
    + rewrite Ho' in He by done. apply Hocc in He as [-> ?]. split; [|done].
      unfold occurrences at 3. simpl.
      rewrite filter_cons_False, filter_nil by (simpl; congruence).
      by rewrite app_nil_r.
Qed.

Lemma represents_nil : represents [] [].
Proof.
  split; [constructor|]. split; [done|]. by intros k e.
Qed.

Lemma relation_loop_represents L occ refs idx idx' :
  represents L idx ->
  foldM (relation_step occ) refs idx = Ok idx' ->
  represents (L ++ map (fun k => (k, occ)) (omap (resolved get_paper_key) refs))
    idx'.
Proof.
  intros HL.
  apply (foldM_invariant (relation_step occ)
           (fun pre idx =>
              represents
                (L ++ map (fun k => (k, occ)) (omap (resolved get_paper_key) pre))
                idx)).
  - simpl. by rewrite app_nil_r.
  - intros pre ref post i i' _ Hi Hstep. unfold relation_step in Hstep.
    apply bind_Ok in Hstep as (key & Hkey & Hstep).
    rewrite omap_app, map_app, app_assoc. simpl.
    rewrite <- (key_truthy_resolved _ _ _ Hkey).
    destruct (key_truthy key) as [k|].
    + by eapply record_occurrence_represents.
    + injection Hstep as <-. by rewrite app_nil_r.
Qed.

Lemma listing_app relation ps ps' :
  listing relation (ps ++ ps') = listing relation ps ++ listing relation ps'.
Proof. unfold listing. by rewrite flat_map_app. Qed.

Lemma paper_step_represents relation L paper idx idx' :
  represents L idx -> paper_step relation idx paper = Ok idx' ->
  represents (L ++ listing relation [paper]) idx'.
Proof.
  intros HL H. unfold paper_step in H.
  apply bind_Ok in H as (m & Hm & H).
  unfold listing. simpl. rewrite app_nil_r. unfold has_metadata. rewrite Hm.
  destruct (truthy m); simpl in H.
  - apply bind_Ok in H as (label & Hlabel & H).
    apply bind_Ok in H as (d & Hd & H).
    apply bind_Ok in H as (rel & Hrel & H).
    apply bind_Ok in H as (refs & Hrefs & H).
    eapply relation_loop_represents in H; [|exact HL].
    unfold related_keys, related, occurrence_of.
    by rewrite Hrel, Hrefs, Hd, Hlabel.
  - injection H as <-. by rewrite app_nil_r.
Qed.

(** The index built over the papers holds exactly the listed pairs. *)
Lemma build_index_represents relation papers idx :
  build_index relation papers = Ok idx ->
  represents (listing relation papers) idx.
Proof.
  apply (foldM_invariant (paper_step relation)
           (fun pre idx => represents (listing relation pre) idx)).
  - apply represents_nil.
  - intros pre paper post i i' _ Hi Hstep. rewrite listing_app.
    by eapply paper_step_represents.
Qed.

(** *** Filtering and sorting *)

(** The items of an index that pass the filter. *)
Definition selected (seed_keys : gset pystr) (kmin : Z)
    (item : pystr * index_entry) : Prop :=
  (item.1 ∉ seed_keys) /\ (kmin <= Z.of_nat (length (by_seed item.2)))%Z.

#[local] Instance selected_dec seed_keys kmin item :
  Decision (selected seed_keys kmin item).
Proof. unfold selected. apply _. Defined.

(** An entry of a result list made from an item. *)
Definition entry_of (item : pystr * index_entry) (e : entry) : Prop :=
  key e = item.1 /\ count e = length (by_seed item.2)
  /\ seed_papers e = by_seed item.2 /\ is_in_seed_set e = false.

Lemma select_step_inv seed_keys kmin acc item acc' :
  select_step seed_keys kmin acc item = Ok acc' ->
  if decide (selected seed_keys kmin item)
  then exists e, acc' = acc ++ [e] /\ entry_of item e
  else acc' = acc.
Proof.
  destruct item as [k data]. unfold select_step, selected. simpl.
  destruct (bool_decide (k ∈ seed_keys)) eqn:Ein.
  - apply bool_decide_eq_true in Ein. intros [= <-].
    rewrite decide_False; [done | by intros [? _]].
  - apply bool_decide_eq_false in Ein.
    destruct (kmin <=? Z.of_nat (length (by_seed data))) eqn:Ele.
    + apply Z.leb_le in Ele. rewrite decide_True by done.
      destruct (metadata data) as [m|]; [|done]. intros H.
      repeat (apply bind_Ok in H as (? & _ & H)). injection H as <-.
      eexists. split; [done|]. by repeat split.
    + apply Z.leb_gt in Ele. intros [= <-].
      rewrite decide_False; [done|]. intros [_ ?]. lia.
Qed.

Lemma select_inv seed_keys kmin idx l :
  select seed_keys kmin idx = Ok l ->
  Forall2 (fun e item => entry_of item e) l
    (filter (selected seed_keys kmin) idx).
Proof.
  apply (foldM_invariant (select_step seed_keys kmin)
           (fun pre acc =>
              Forall2 (fun e item => entry_of item e) acc
                (filter (selected seed_keys kmin) pre))).
  - constructor.
  - intros pre item post acc acc' _ Hacc Hstep.
    apply select_step_inv in Hstep. rewrite filter_app.
    destruct (decide (selected seed_keys kmin item)) as [Hs|Hs].
    + destruct Hstep as (e & -> & He).
      rewrite filter_cons_True, filter_nil by done.
      apply Forall2_app; [done|]. constructor; [done | constructor].
    + subst acc'. rewrite filter_cons_False, filter_nil by done.
      by rewrite app_nil_r.
Qed.

Lemma sort_insert_perm x sorted r :
  sort_insert x sorted = Ok r -> r ≡ₚ x :: sorted.
Proof.
  revert r. induction sorted as [|y sorted IH]; intros r H; simpl in H.
  - by injection H as <-.
  - apply bind_Ok in H as (b & _ & H). destruct b.
    + by injection H as <-.
    + apply bind_Ok in H as (r' & Hr' & [= <-]).
      rewrite (IH r' Hr'). apply Permutation_swap.
Qed.

(** Sorting keeps the entries. *)
Lemma sort_entries_perm l l' : sort_entries l = Ok l' -> l' ≡ₚ l.
Proof.
  apply (foldM_invariant (fun sorted x => sort_insert x sorted)
           (fun pre sorted => sorted ≡ₚ pre)).
  - done.
  - intros pre x post sorted sorted' _ Hs Hstep.
    apply sort_insert_perm in Hstep. rewrite Hstep, Hs.
    by rewrite Permutation_cons_append.
Qed.

(** *** The seed set *)

Definition seed_key_set (papers : list json) : gset pystr :=
  list_to_set (omap (seed_key get_paper_key) papers).

Lemma seed_step_inv st paper st' :
  seed_step st paper = Ok st' ->
  st'.1 = match seed_key get_paper_key paper with
          | Some k => {[ k ]} ∪ st.1
          | None => st.1
          end.
Proof.
  destruct st as [keys by_key]. unfold seed_step, seed_key, has_metadata, metadata_of.
  intros H. apply bind_Ok in H as (m & Hm & H). rewrite Hm.
  destruct (truthy m); [|by injection H as <-].
  apply bind_Ok in H as (key & Hkey & H).
  rewrite <- (key_truthy_resolved _ _ _ Hkey).
  destruct (key_truthy key) as [k|]; [|by injection H as <-].
  repeat (apply bind_Ok in H as (? & _ & H)). by injection H as <-.
Qed.

Lemma build_seed_index_keys papers st :
  build_seed_index papers = Ok st -> st.1 = seed_key_set papers.
Proof.
  apply (foldM_invariant seed_step (fun pre st => st.1 = seed_key_set pre)).
  - done.
  - intros pre paper post s s' _ Hs Hstep. apply seed_step_inv in Hstep.
    rewrite Hstep, Hs. unfold seed_key_set. rewrite omap_app. simpl.
    destruct (seed_key get_paper_key paper);
      rewrite list_to_set_app_L; simpl; set_solver.
Qed.

(** *** The result lists *)

(** What a run of the analysis computes, step by step. *)
Lemma analyze_citations_inv data k_cited k_citing cited citing :
  analyze_citations data k_cited k_citing = Ok (cited, citing) ->
  exists st references_index citing_index cited0 citing0,
    build_seed_index (papers_of data) = Ok st
    /\ build_index "references" (papers_of data) = Ok references_index
    /\ select st.1 k_cited references_index = Ok cited0
    /\ sort_entries cited0 = Ok cited
    /\ build_index "cited_by" (papers_of data) = Ok citing_index
    /\ select st.1 k_citing citing_index = Ok citing0
    /\ sort_entries citing0 = Ok citing.
Proof.
  unfold analyze_citations. intros H.
  apply bind_Ok in H as (p & Hp & H).
  apply bind_Ok in H as (papers & Hpapers & H).
  assert (papers_of data = papers) as ->.
  { unfold papers_of, related. by rewrite Hp, Hpapers. }
  apply bind_Ok in H as (st & Hst & H).
  apply bind_Ok in H as (ridx & Hridx & H).
  apply bind_Ok in H as (cited0 & Hcited0 & H).
  apply bind_Ok in H as (cited' & Hcited & H).
  apply bind_Ok in H as (cidx & Hcidx & H).
  apply bind_Ok in H as (citing0 & Hciting0 & H).
  apply bind_Ok in H as (citing' & Hciting & H).
  injection H as <- <-. by exists st, ridx, cidx, cited0, citing0.
Qed.

(** The entries of a result list: the listed keys outside the seed set
    whose number of recorded occurrences reaches the threshold, each
    with its occurrences. *)
Lemma result_list relation papers kmin idx l0 l :
  build_index relation papers = Ok idx ->
  select (seed_key_set papers) kmin idx = Ok l0 ->
  sort_entries l0 = Ok l ->
  (forall e, e ∈ l ->
     (key e ∉ seed_key_set papers)
     /\ is_in_seed_set e = false
     /\ seed_papers e = occurrences (key e) (listing relation papers)
     /\ count e = length (seed_papers e)
     /\ (kmin <= Z.of_nat (count e))%Z)
  /\ (forall k, k ∈ map key l <->
         k ∈ map fst (listing relation papers)
         /\ (k ∉ seed_key_set papers)
         /\ (kmin <= Z.of_nat (length (occurrences k (listing relation papers))))%Z).
Proof.
  intros Hidx Hsel Hsort.
  apply build_index_represents in Hidx as (Hnd & Hkeys & Hocc).
  apply select_inv in Hsel. apply sort_entries_perm in Hsort.
  assert (forall item, item ∈ idx ->
            by_seed item.2 = occurrences item.1 (listing relation papers))
    as Hitem.
  { intros [k data] Hin. simpl. by apply (od_elem_lookup _ _ _ Hnd), Hocc in Hin as [? _]. }
  split.
  - intros e He. rewrite Hsort in He.
    apply list_elem_of_lookup in He as [i Hi].
    destruct (Forall2_lookup_l _ _ _ _ _ Hsel Hi) as (item & Hitem' & Hk & Hc & Hs & Hf).
    apply list_elem_of_lookup_2, list_elem_of_filter in Hitem' as [[Hseed Hmin] Hin].
    rewrite Hk, Hc, Hs, (Hitem item Hin). by rewrite <- (Hitem item Hin).
  - intros k. rewrite Hsort. split.
    + intros He. apply list_elem_of_fmap in He as (e & -> & He).
      apply list_elem_of_lookup in He as [i Hi].
      destruct (Forall2_lookup_l _ _ _ _ _ Hsel Hi) as (item & Hitem' & Hk & Hc & Hs & Hf).
      apply list_elem_of_lookup_2, list_elem_of_filter in Hitem' as [[Hseed Hmin] Hin].
      rewrite Hk, <- (Hitem item Hin). split; [|done].
      apply Hkeys. apply list_elem_of_fmap. by exists item.
    + intros (Hk & Hseed & Hmin). apply Hkeys, od_lookup_is_Some in Hk as [data Hdata].
      pose proof (od_lookup_Some_elem _ _ _ Hdata) as Hin.
      assert ((k, data) ∈ filter (selected (seed_key_set papers) kmin) idx) as Hf.
      { apply list_elem_of_filter. split; [|done]. split; [done|].
        by rewrite (Hitem _ Hin). }
      apply list_elem_of_lookup in Hf as [i Hi].
      destruct (Forall2_lookup_r _ _ _ _ _ Hsel Hi) as (e & He & Hke & _).
      apply list_elem_of_fmap. exists e. split; [done|].
      by eapply list_elem_of_lookup_2.
Qed.

Lemma foldM_elem_ok {A S} (f : S -> A -> result S) l s s' x :
  foldM f l s = Ok s' -> x ∈ l -> exists s1 s2, f s1 x = Ok s2.
Proof.
  intros H Hx. apply list_elem_of_split in Hx as (l1 & l2 & ->).
  rewrite foldM_app in H. apply bind_Ok in H as (s1 & _ & H).
  simpl in H. apply bind_Ok in H as (s2 & H & _). by exists s1, s2.
Qed.

(** *** Concrete documents *)

Definition titled (t : string) : json := JDict [kv "title" (jstr t)].

Definition seed_entry (input_doi : string) (metadata : json)
    (references cited_by : list json) : json :=
  JDict [kv "input_doi" (jstr input_doi); kv "metadata" metadata;
         kv "references" (JList references); kv "cited_by" (JList cited_by)].

Definition document (papers : list json) : json :=
  JDict [kv "papers" (JList papers)].

(** Seed papers A and B both list X; C cites A. *)
Definition two_seeds_doc : json :=
  document
    [seed_entry "10.1/a" (titled "Paper A") [titled "Paper X"] [titled "Paper C"];
     seed_entry "10.1/b" (titled "Paper B") [titled "Paper X"] []].

(** Malformed input: seed paper A lists itself among its references and
    among the papers citing it. *)
Definition self_citing_doc : json :=
  document
    [seed_entry "10.1/a" (titled "Paper A")
       [titled "Paper A"; titled "Paper X"] [titled "paper  a"]].

(** One seed paper whose reference list holds the preprint and the
    published version of the same paper: two records with the same title
    and different DOIs. *)
Definition preprint_and_published_doc : json :=
  document
    [seed_entry "10.1/a" (titled "Paper A")
       [JDict [kv "title" (jstr "Paper X"); kv "doi" (jstr "10.1000/x")];
        JDict [kv "title" (jstr "Paper X");
               kv "doi" (jstr "10.48550/arXiv.2201.05125")]]
       []].

(** A seed entry whose metadata has no title and no identifier, and a
    second seed; both list X and are cited by C. *)
Definition keyless_seed : json :=
  seed_entry "10.1/k" (JDict [kv "authors" (JList [jstr "Ann"])])
    [titled "Paper X"] [titled "Paper C"].

Definition keyless_seed_doc : json :=
  document
    [keyless_seed;
     seed_entry "10.1/b" (titled "Paper B") [titled "Paper X"] [titled "Paper C"]].

(** *** Seed exclusion *)

(** C4: no entry of the cited-result list and no entry of the
    citing-result list has the key of a seed entry, whatever the
    thresholds; the seed key set is the one the run builds, and it holds
    the key of the metadata of every seed entry. *)
Theorem seed_exclusion (data : json) (k_cited k_citing : Z)
    (cited citing : list entry) :
  analyze_citations data k_cited k_citing = Ok (cited, citing) ->
  exists seed_keys seed_by_key,
    build_seed_index (papers_of data) = Ok (seed_keys, seed_by_key)
    /\ (forall paper k, paper ∈ papers_of data ->
          seed_key get_paper_key paper = Some k -> k ∈ seed_keys)
    /\ forall e, e ∈ cited \/ e ∈ citing ->
          (key e ∉ seed_keys) /\ is_in_seed_set e = false.
Proof.
  intros H.
  apply analyze_citations_inv in H
    as ([S by_key] & ridx & cidx & cited0 & citing0
        & Hst & Hridx & Hcited0 & Hcited & Hcidx & Hciting0 & Hciting).
  exists S, by_key. split; [done|].
  apply build_seed_index_keys in Hst. simpl in *. subst S. split.
  - intros paper k Hin Hk. unfold seed_key_set.
    apply elem_of_list_to_set, list_elem_of_omap. by exists paper.
  - intros e [He|He].
    + by apply (result_list _ _ _ _ _ _ Hridx Hcited0 Hcited) in He as (? & ? & _).
    + by apply (result_list _ _ _ _ _ _ Hcidx Hciting0 Hciting) in He as (? & ? & _).
Qed.

Lemma seed_exclusion_witness :
  exists cited citing,
    analyze_citations self_citing_doc 1 1 = Ok (cited, citing)
    /\ map key cited = [lit "title:paper x"] /\ citing = []
    /\ exists seed_keys seed_by_key,
        build_seed_index (papers_of self_citing_doc)
        = Ok (seed_keys, seed_by_key)
        /\ (forall paper k, paper ∈ papers_of self_citing_doc ->
              seed_key get_paper_key paper = Some k -> k ∈ seed_keys)
        /\ forall e, e ∈ cited \/ e ∈ citing ->
              (key e ∉ seed_keys) /\ is_in_seed_set e = false.
Proof.
  eexists _, _. split; [vm_compute; reflexivity|].
  split; [reflexivity|]. split; [reflexivity|].
  apply (seed_exclusion self_citing_doc 1 1). vm_compute. reflexivity.
Defined.

(** *** What the counts count *)

(** The number of records under [relation] of a seed entry that resolve
    to key [k]. *)
Definition times_listed (relation : string) (paper : json) (k : pystr) : nat :=
  length (filter (fun k' => k' = k) (related_keys get_paper_key relation paper)).

Lemma occurrences_paper relation paper k :
  has_metadata paper = true ->
  occurrences k (listing relation [paper])
  = replicate (times_listed relation paper k) (occurrence_of paper).
Proof.
  intros Hm. unfold listing, times_listed. simpl. rewrite Hm, app_nil_r.
  unfold occurrences.
  induction (related_keys get_paper_key relation paper) as [|k' ks IH]; [done|].
  simpl. destruct (decide (k' = k)) as [->|Hne].
  - rewrite !filter_cons_True by done. simpl. by rewrite IH.
  - rewrite !filter_cons_False by done. exact IH.
Qed.

(** C1 fails in the analysis: the seed paper A is the only seed paper of
    the document, and X is reported as cited by two seed papers, with A
    recorded twice, because two records of A's reference list resolve
    to X's key. *)
Theorem c_in_counts_list_entries :
  exists e,
    analyze_citations preprint_and_published_doc 2 2 = Ok ([e], [])
    /\ key e = lit "title:paper x"
    /\ count e = 2%nat
    /\ seed_papers e
       = [ {| occ_doi := jstr "10.1/a"; occ_title := jstr "Paper A" |};
           {| occ_doi := jstr "10.1/a"; occ_title := jstr "Paper A" |} ]
    /\ omap (seed_key get_paper_key) (papers_of preprint_and_published_doc)
       = [lit "title:paper a"].
Proof.
  eexists. split; [vm_compute; reflexivity|].
  do 3 (split; [vm_compute; reflexivity|]). vm_compute. reflexivity.
Qed.

(** *** A seed entry without a key *)

Lemma seed_step_keyless paper st st' :
  seed_step st paper = Ok st' ->
  seed_key get_paper_key paper = None ->
  forall st0, seed_step st0 paper = Ok st0.
Proof.
  unfold seed_step, seed_key, has_metadata, metadata_of.
  destruct st as [keys by_key]. intros H Hk [keys0 by_key0].
  apply bind_Ok in H as (m & Hm & H). rewrite Hm in *. simpl.
  destruct (truthy m); [|done].
  apply bind_Ok in H as (key & Hkey & _). rewrite Hkey. simpl.
  by rewrite (key_truthy_resolved _ _ _ Hkey), Hk.
Qed.

Lemma paper_step_attribution relation idx paper idx' :
  paper_step relation idx paper = Ok idx' -> has_metadata paper = true ->
  py_get paper "input_doi" (JStr []) = Ok (occ_doi (occurrence_of paper))
  /\ get_seed_paper_label paper = Ok (occ_title (occurrence_of paper)).
Proof.
  unfold paper_step, has_metadata, occurrence_of. intros H Hm.
  apply bind_Ok in H as (m & Hmeta & H). rewrite Hmeta in Hm. rewrite Hm in H.
  simpl in H. apply bind_Ok in H as (label & -> & H).
  by apply bind_Ok in H as (d & -> & H).
Qed.

(** A seed entry whose metadata is present and empty, and a second seed;
    both list X and are cited by C. *)
Definition empty_metadata_seed : json :=
  seed_entry "10.1/k" (JDict []) [titled "Paper X"] [titled "Paper C"].

Definition empty_metadata_doc : json :=
  document
    [empty_metadata_seed;
     seed_entry "10.1/b" (titled "Paper B") [titled "Paper X"] [titled "Paper C"]].

(** C10, as stated, fails: the metadata of the first seed entry is present
    and resolves to no key, and the entry is passed over with its lists:
    X and C are recorded once, for the second seed entry only, and no
    entry reaches a threshold of two. *)
Lemma empty_metadata_seed_is_skipped :
  py_get empty_metadata_seed "metadata" JNull = Ok (JDict [])
  /\ get_paper_key (JDict []) = Ok None
  /\ (exists cited citing,
        analyze_citations empty_metadata_doc 1 1 = Ok (cited, citing)
        /\ map key cited = [lit "title:paper x"]
        /\ map count cited = [1%nat]
        /\ map seed_papers cited
           = [[ {| occ_doi := jstr "10.1/b"; occ_title := jstr "Paper B" |} ]]
        /\ map key citing = [lit "title:paper c"]
        /\ map count citing = [1%nat])
  /\ analyze_citations empty_metadata_doc 2 2 = Ok ([], []).
Proof.
  split; [vm_compute; reflexivity|]. split; [vm_compute; reflexivity|].
  split; [|vm_compute; reflexivity].
  eexists _, _. split; [vm_compute; reflexivity|].
  do 4 (split; [vm_compute; reflexivity|]). vm_compute. reflexivity.
Qed.

(** C10, amended: in the analysis, a seed entry whose metadata is not
    empty (not [null], not an empty object) and has no key adds nothing
    to the seed index, and its relation lists are processed: in every
    entry of a result list, the recorded seed papers are those of the
    seed entries before it, then the keyless entry once for each of its
    listed records that resolves to the entry's key, then those of the
    seed entries after it, and the count is their number.  The keyless
    entry is recorded by its input DOI and its display label. *)
Theorem keyless_seed_is_counted (data : json) (k_cited k_citing : Z)
    (cited citing : list entry) (pre post : list json) (paper : json) :
  analyze_citations data k_cited k_citing = Ok (cited, citing) ->
  papers_of data = pre ++ paper :: post ->
  has_metadata paper = true ->
  seed_key get_paper_key paper = None ->
  build_seed_index (papers_of data) = build_seed_index (pre ++ post)
  /\ py_get paper "input_doi" (JStr []) = Ok (occ_doi (occurrence_of paper))
  /\ get_seed_paper_label paper = Ok (occ_title (occurrence_of paper))
  /\ (forall e, e ∈ cited ->
        seed_papers e
        = occurrences (key e) (listing "references" pre)
          ++ replicate (times_listed "references" paper (key e))
               (occurrence_of paper)
          ++ occurrences (key e) (listing "references" post)
        /\ count e = length (seed_papers e))
  /\ (forall e, e ∈ citing ->
        seed_papers e
        = occurrences (key e) (listing "cited_by" pre)
          ++ replicate (times_listed "cited_by" paper (key e))
               (occurrence_of paper)
          ++ occurrences (key e) (listing "cited_by" post)
        /\ count e = length (seed_papers e)).
Proof.
  intros H Hpapers Hm Hk.
  apply analyze_citations_inv in H
    as (st & ridx & cidx & cited0 & citing0
        & Hst & Hridx & Hcited0 & Hcited & Hcidx & Hciting0 & Hciting).
  assert (paper ∈ papers_of data) as Hin.
  { rewrite Hpapers. apply elem_of_app. right. by left. }
  rewrite (build_seed_index_keys _ _ Hst) in Hcited0, Hciting0.
  split; [|split; [|split; [|split]]].
  - destruct (foldM_elem_ok _ _ _ _ _ Hst Hin) as (s1 & s2 & Hstep).
    rewrite Hpapers. apply foldM_skip. by eapply seed_step_keyless.
  - destruct (foldM_elem_ok _ _ _ _ _ Hridx Hin) as (s1 & s2 & Hstep).
    by apply (paper_step_attribution _ _ _ _ Hstep).
  - destruct (foldM_elem_ok _ _ _ _ _ Hridx Hin) as (s1 & s2 & Hstep).
    by apply (paper_step_attribution _ _ _ _ Hstep).
  - intros e He.
    apply (result_list _ _ _ _ _ _ Hridx Hcited0 Hcited) in He
      as (_ & _ & -> & -> & _).
    split; [|done]. rewrite Hpapers.
    change (paper :: post) with ([paper] ++ post).
    by rewrite !listing_app, !occurrences_app, occurrences_paper.
  - intros e He.
    apply (result_list _ _ _ _ _ _ Hcidx Hciting0 Hciting) in He
      as (_ & _ & -> & -> & _).
    split; [|done]. rewrite Hpapers.
    change (paper :: post) with ([paper] ++ post).
    by rewrite !listing_app, !occurrences_app, occurrences_paper.
Qed.

Lemma keyless_seed_is_counted_witness :
  exists cited citing,
    analyze_citations keyless_seed_doc 2 2 = Ok (cited, citing)
    /\ map key cited = [lit "title:paper x"]
    /\ map count cited = [2%nat]
    /\ map key citing = [lit "title:paper c"]
    /\ occurrence_of keyless_seed
       = {| occ_doi := jstr "10.1/k"; occ_title := jstr "Unknown" |}
    /\ times_listed "references" keyless_seed (lit "title:paper x") = 1%nat
    /\ forall e, e ∈ cited ->
         seed_papers e
         = occurrences (key e) (listing "references" [])
           ++ replicate (times_listed "references" keyless_seed (key e))
                (occurrence_of keyless_seed)
           ++ occurrences (key e)
                (listing "references"
                   [seed_entry "10.1/b" (titled "Paper B")
                      [titled "Paper X"] [titled "Paper C"]])
         /\ count e = length (seed_papers e).
Proof.
  eexists _, _. split; [vm_compute; reflexivity|].
  do 5 (split; [vm_compute; reflexivity|]).
  refine (proj1 (proj2 (proj2 (proj2
    (keyless_seed_is_counted keyless_seed_doc 2 2 _ _ [] _ keyless_seed
       _ _ _ _))))); vm_compute; reflexivity.
Defined.

End Aggregation.

(** ** The graph *)

Section Graph.

Import Visualize.

Implicit Types (idx : index) (k : pystr) (paper ref : json) (st : loop_state).

(** All pairs of a listed key and the key of the seed entry listing it:
    one pair for each resolvable record of the relation list of each
    seed entry that has a key. *)
Definition graph_listing (relation : string) (papers : list json)
  : list (pystr * pystr) :=
  flat_map (fun paper =>
              match seed_key get_paper_key paper with
              | Some s => map (fun k => (k, s))
                            (related_keys get_paper_key relation paper)
              | None => []
              end) papers.

(** The seed keys recorded for key [k]. *)
Definition contributors (k : pystr) (L : list (pystr * pystr)) : list pystr :=
  map snd (filter (fun p => p.1 = k) L).

Definition cites : pystr := lit "cites".

(** The edges a seed entry gives: to each of its references, then from
    each of the papers citing it. *)
Definition paper_edges (paper : json) : list edge :=
  match seed_key get_paper_key paper with
  | Some s =>
      map (fun k => (s, k, cites)) (related_keys get_paper_key "references" paper)
      ++ map (fun k => (k, s, cites)) (related_keys get_paper_key "cited_by" paper)
  | None => []
  end.

Definition graph_edges (papers : list json) : list edge :=
  flat_map paper_edges papers.

(** An index holds exactly the pairs of [L]. *)
Definition graph_represents (L : list (pystr * pystr)) (idx : index) : Prop :=
  NoDup (od_keys idx)
  /\ (forall k, k ∈ od_keys idx <-> k ∈ map fst L)
  /\ (forall k e, od_lookup k idx = Some e ->
         by_seed e = list_to_set (contributors k L) /\ metadata e <> None).

Lemma contributors_app k L L' :
  contributors k (L ++ L') = contributors k L ++ contributors k L'.
Proof. unfold contributors. by rewrite filter_app, map_app. Qed.

Lemma contributors_absent k L : k ∉ map fst L -> contributors k L = [].
Proof.
  unfold contributors. induction L as [|[k' o] L IH]; intros H; [done|].
  simpl in H. apply not_elem_of_cons in H as [Hne H].
  rewrite filter_cons_False by (simpl; congruence). by apply IH.
Qed.

Lemma record_seed_inv k ref s idx idx' :
  record_seed k ref s idx = Ok idx' ->
  od_keys idx'
  = (if decide (k ∈ od_keys idx) then od_keys idx else od_keys idx ++ [k])
  /\ (forall k', k' <> k -> od_lookup k' idx' = od_lookup k' idx)
  /\ exists e', od_lookup k idx' = Some e'
       /\ by_seed e' = {[ s ]} ∪ by_seed (default default_entry (od_lookup k idx))
       /\ metadata e' <> None.
Proof.
  unfold record_seed. intros H.
  apply bind_Ok in H as (idx2 & H2 & [= <-]).
  set (idx1 := od_touch k default_entry idx) in *.
  set (e1 := default default_entry (od_lookup k idx)).
  assert (od_lookup k idx1 = Some e1) as H1.
  { unfold idx1. rewrite od_lookup_touch. by rewrite decide_True. }
  assert (od_keys idx2 = od_keys idx1
          /\ (forall k', k' <> k -> od_lookup k' idx2 = od_lookup k' idx1)
          /\ exists e2, od_lookup k idx2 = Some e2
               /\ by_seed e2 = by_seed e1 /\ metadata e2 <> None)
    as (Hk2 & Ho2 & e2 & He2 & Hb2 & Hm2).
  { rewrite H1 in H2. destruct e1 as [[m|] b] eqn:Ee1.
    - injection H2 as <-. split; [done|]. split; [done|].
      eexists. split; [exact H1|]. by split.
    - apply bind_Ok in H2 as (c & Hc & [= <-]).
      rewrite od_keys_alter. split; [done|]. split.
      + intros k' Hne. rewrite od_lookup_alter. by rewrite decide_False.
      + rewrite od_lookup_alter, decide_True, H1 by done.
        eexists. split; [done|]. by split. }
  rewrite od_keys_alter, Hk2. split; [apply od_keys_touch|]. split.
  - intros k' Hne. rewrite od_lookup_alter, decide_False by done.
    rewrite Ho2 by done. unfold idx1. rewrite od_lookup_touch.
    by rewrite decide_False.
  - rewrite od_lookup_alter, decide_True, He2 by done.
    eexists. split; [done|]. simpl. by rewrite Hb2.
Qed.

Lemma record_seed_represents L idx k ref s idx' :
  graph_represents L idx -> record_seed k ref s idx = Ok idx' ->
  graph_represents (L ++ [(k, s)]) idx'.
Proof.
  intros (Hnd & Hkeys & Hocc) H.
  apply record_seed_inv in H as (Hk' & Ho' & e' & He' & Hb' & Hm').
  split; [|split].
  - rewrite Hk'. case_decide; [done|].
    apply NoDup_app. split; [done|]. split; [|apply NoDup_singleton].
    intros x Hx Hx'. apply list_elem_of_singleton in Hx'. by subst.
  - intros k'. rewrite Hk', map_app, elem_of_app. simpl.
    rewrite list_elem_of_singleton, <- Hkeys.
    case_decide; [|by rewrite elem_of_app, list_elem_of_singleton].
    split; [by left | by intros [?| ->]].
  - intros k' e He. rewrite contributors_app.
    destruct (decide (k' = k)) as [->|Hne].
    + rewrite He' in He. injection He as <-. split; [|done].
      rewrite Hb'. unfold contributors at 2. simpl.
      rewrite filter_cons_True, filter_nil by done. simpl.
      rewrite list_to_set_app_L. simpl.
      destruct (od_lookup k idx) as [e|] eqn:E; simpl.
      * apply Hocc in E as [-> _]. set_solver.
      * rewrite contributors_absent; [set_solver|]. rewrite <- Hkeys.
        by apply od_lookup_None.
    + rewrite Ho' in He by done. apply Hocc in He as [-> ?]. split; [|done].
      unfold contributors at 3. simpl.
      rewrite filter_cons_False, filter_nil by (simpl; congruence).
      by rewrite app_nil_r.
Qed.

Lemma graph_represents_nil : graph_represents [] [].
Proof.
  split; [constructor|]. split; [done|]. by intros k e.
Qed.

(** The state of the loop over the papers after the seed entries [pre]. *)
Definition loop_invariant (pre : list json) st : Prop :=
  graph_represents (graph_listing "references" pre) (references_index st)
  /\ graph_represents (graph_listing "cited_by" pre) (citing_index st)
  /\ all_edges st = graph_edges pre.

Lemma reference_loop_invariant Lr s refs st st' :
  graph_represents Lr (references_index st) ->
  foldM (reference_step s) refs st = Ok st' ->
  graph_represents
    (Lr ++ map (fun k => (k, s)) (omap (resolved get_paper_key) refs))
    (references_index st')
  /\ citing_index st' = citing_index st
  /\ all_edges st'
     = all_edges st
       ++ map (fun k => (s, k, cites)) (omap (resolved get_paper_key) refs).
Proof.
  intros HL.
  apply (foldM_invariant (reference_step s)
           (fun pre st' =>
              graph_represents
                (Lr ++ map (fun k => (k, s)) (omap (resolved get_paper_key) pre))
                (references_index st')
              /\ citing_index st' = citing_index st
              /\ all_edges st'
                 = all_edges st
                   ++ map (fun k => (s, k, cites))
                        (omap (resolved get_paper_key) pre))).
  - simpl. by rewrite !app_nil_r.
  - intros pre ref post i i' _ (Hi & Hc & He) Hstep.
    unfold reference_step in Hstep.
    apply bind_Ok in Hstep as (key & Hkey & Hstep).
    rewrite omap_app, !map_app, !app_assoc. simpl.
    unfold resolved at 2 4. rewrite Hkey.
    destruct key as [[|c key]|]; simpl in Hstep.
    + injection Hstep as <-. by rewrite !app_nil_r.
    + apply bind_Ok in Hstep as (idx & Hidx & [= <-]). simpl.
      split; [by eapply record_seed_represents|]. split; [done|].
      by rewrite He.
    + injection Hstep as <-. by rewrite !app_nil_r.
Qed.

Lemma citing_loop_invariant Lc s refs st st' :
  graph_represents Lc (citing_index st) ->
  foldM (citing_step s) refs st = Ok st' ->
  graph_represents
    (Lc ++ map (fun k => (k, s)) (omap (resolved get_paper_key) refs))
    (citing_index st')
  /\ references_index st' = references_index st
  /\ all_edges st'
     = all_edges st
       ++ map (fun k => (k, s, cites)) (omap (resolved get_paper_key) refs).
Proof.
  intros HL.
  apply (foldM_invariant (citing_step s)
           (fun pre st' =>
              graph_represents
                (Lc ++ map (fun k => (k, s)) (omap (resolved get_paper_key) pre))
                (citing_index st')
              /\ references_index st' = references_index st
              /\ all_edges st'
                 = all_edges st
                   ++ map (fun k => (k, s, cites))
                        (omap (resolved get_paper_key) pre))).
  - simpl. by rewrite !app_nil_r.
  - intros pre ref post i i' _ (Hi & Hc & He) Hstep.
    unfold citing_step in Hstep.
    apply bind_Ok in Hstep as (key & Hkey & Hstep).
    rewrite omap_app, !map_app, !app_assoc. simpl.
    unfold resolved at 2 4. rewrite Hkey.
    destruct key as [[|c key]|]; simpl in Hstep.
    + injection Hstep as <-. by rewrite !app_nil_r.
    + apply bind_Ok in Hstep as (idx & Hidx & [= <-]). simpl.
      split; [by eapply record_seed_represents|]. split; [done|].
      by rewrite He.
    + injection Hstep as <-. by rewrite !app_nil_r.
Qed.

Lemma graph_listing_app relation ps ps' :
  graph_listing relation (ps ++ ps')
  = graph_listing relation ps ++ graph_listing relation ps'.
Proof. unfold graph_listing. by rewrite flat_map_app. Qed.

Lemma graph_edges_app ps ps' :
  graph_edges (ps ++ ps') = graph_edges ps ++ graph_edges ps'.
Proof. unfold graph_edges. by rewrite flat_map_app. Qed.

Lemma py_item_get obj (f : string) m m' :
  py_get obj f JNull = Ok m -> truthy m = true -> py_item obj f = Ok m' ->
  m' = m.
Proof.
  destruct obj as [| | | | |d]; try done. unfold py_get, py_item.
  destruct (dict_lookup (lit f) d) as [v|]; simpl; [congruence|].
  by intros [= <-].
Qed.

Lemma paper_step_seed_key st paper st' :
  paper_step st paper = Ok st' ->
  exists key, (if has_metadata paper
               then get_paper_key (metadata_of paper)
               else Ok None) = Ok key
              /\ key_truthy key = seed_key get_paper_key paper.
Proof.
  unfold paper_step, seed_key, has_metadata, metadata_of. intros H.
  apply bind_Ok in H as (m & Hm & H). rewrite Hm.
  apply bind_Ok in H as (key & Hkey & H). exists key.
  destruct (truthy m) eqn:Em.
  - apply bind_Ok in Hkey as (m' & Hm' & Hkey).
    assert (m' = m) as -> by (by eapply py_item_get).
    split; [done|]. by apply key_truthy_resolved.
  - by injection Hkey as <-.
Qed.

Lemma paper_step_invariant pre st paper st' :
  loop_invariant pre st -> paper_step st paper = Ok st' ->
  loop_invariant (pre ++ [paper]) st'.
Proof.
  intros (Hr & Hc & He) H.
  destruct (paper_step_seed_key _ _ _ H) as (key & Hkey & Hs).
  unfold loop_invariant.
  rewrite !graph_listing_app, graph_edges_app.
  unfold graph_listing at 2 4, graph_edges at 2. simpl.
  unfold paper_edges. rewrite !app_nil_r, <- Hs.
  unfold paper_step in H.
  apply bind_Ok in H as (m & Hm & H).
  apply bind_Ok in H as (key' & Hkey' & H).
  assert (key' = key) as ->.
  { unfold has_metadata, metadata_of in Hkey. rewrite Hm in Hkey.
    destruct (truthy m) eqn:Em.
    - apply bind_Ok in Hkey' as (m' & Hm' & Hkey').
      assert (m' = m) as -> by (by eapply py_item_get). congruence.
    - congruence. }
  destruct (key_truthy key) as [s|].
  - apply bind_Ok in H as (r & Hrel & H).
    apply bind_Ok in H as (refs & Hrefs & H).
    apply bind_Ok in H as (st1 & Hst1 & H).
    apply bind_Ok in H as (c & Hcrel & H).
    apply bind_Ok in H as (citing & Hciting & H).
    apply (reference_loop_invariant _ _ _ _ _ Hr) in Hst1 as (Hr1 & Hc1 & He1).
    rewrite <- Hc1 in Hc.
    apply (citing_loop_invariant _ _ _ _ _ Hc) in H as (Hc2 & Hr2 & He2).
    unfold related_keys, related. rewrite Hrel, Hrefs, Hcrel, Hciting.
    rewrite Hr2. split; [done|]. split; [done|].
    by rewrite He2, He1, He, !app_assoc.
  - injection H as <-. by rewrite !app_nil_r.
Qed.

(** The indices and the edge list after the loop over the papers. *)
Lemma paper_loop_invariant papers st :
  foldM paper_step papers
    {| references_index := []; citing_index := []; all_edges := [] |} = Ok st ->
  loop_invariant papers st.
Proof.
  apply (foldM_invariant paper_step loop_invariant).
  - split; [apply graph_represents_nil|]. split; [apply graph_represents_nil|done].
  - intros pre paper post s s' _ Hs Hstep. by eapply paper_step_invariant.
Qed.

(** *** Seed nodes *)

Lemma graph_seed_step_inv sp paper sp' :
  seed_step sp paper = Ok sp' ->
  od_keys sp'
  = match seed_key get_paper_key paper with
    | Some s => if decide (s ∈ od_keys sp) then od_keys sp else od_keys sp ++ [s]
    | None => od_keys sp
    end.
Proof.
  unfold seed_step, seed_key, has_metadata, metadata_of. intros H.
  apply bind_Ok in H as (m & Hm & H). rewrite Hm.
  destruct (truthy m) eqn:Em; [|by injection H as <-].
  apply bind_Ok in H as (m' & Hm' & H).
  assert (m' = m) as -> by (by eapply py_item_get).
  apply bind_Ok in H as (key & Hkey & H).
  rewrite <- (key_truthy_resolved _ _ _ Hkey).
  change (Analyze.key_truthy key) with (key_truthy key).
  destruct (key_truthy key) as [s|]; [|by injection H as <-].
  repeat (apply bind_Ok in H as (? & _ & H)). injection H as <-.
  apply od_keys_set.
Qed.

(** The seed nodes are the seed keys of the document, each once. *)
Lemma seed_nodes_keys papers sp :
  foldM seed_step papers [] = Ok sp ->
  NoDup (od_keys sp)
  /\ forall k, k ∈ od_keys sp <-> k ∈ omap (seed_key get_paper_key) papers.
Proof.
  apply (foldM_invariant seed_step
           (fun pre sp =>
              NoDup (od_keys sp)
              /\ forall k, k ∈ od_keys sp
                     <-> k ∈ omap (seed_key get_paper_key) pre)).
  - split; [constructor | done].
  - intros pre paper post s s' _ [Hnd Hs] Hstep.
    apply graph_seed_step_inv in Hstep. rewrite Hstep, omap_app. simpl.
    destruct (seed_key get_paper_key paper) as [x|].
    + case_decide as Hx.
      * split; [done|]. intros k. rewrite elem_of_app, list_elem_of_singleton, <- Hs.
        split; [by left | by intros [?| ->]].
      * split.
        -- apply NoDup_app. split; [done|]. split; [|apply NoDup_singleton].
           intros y Hy Hy'. apply list_elem_of_singleton in Hy'. by subst.
        -- intros k. by rewrite !elem_of_app, Hs.
    + split; [done|]. intros k. by rewrite app_nil_r.
Qed.

(** *** Filtering *)

Definition graph_selected (seed_papers : odict node) (kmin : Z)
    (item : pystr * index_entry) : Prop :=
  (kmin <= Z.of_nat (size (by_seed item.2)))%Z /\ (item.1 ∉ od_keys seed_papers).

#[local] Instance graph_selected_dec seed_papers kmin item :
  Decision (graph_selected seed_papers kmin item).
Proof. unfold graph_selected. apply _. Defined.

Lemma graph_select_step_inv seed_papers kmin acc item acc' :
  select_step seed_papers kmin acc item = Ok acc' ->
  if decide (graph_selected seed_papers kmin item)
  then exists n, acc' = od_set item.1 n acc
                 /\ key n = item.1 /\ count n = Some (size (by_seed item.2))
  else acc' = acc.
Proof.
  destruct item as [k data]. unfold select_step, graph_selected. simpl.
  destruct (kmin <=? Z.of_nat (size (by_seed data))) eqn:Ele; simpl.
  - apply Z.leb_le in Ele.
    destruct (bool_decide (k ∈ od_keys seed_papers)) eqn:Ein; simpl.
    + apply bool_decide_eq_true in Ein. intros [= <-].
      rewrite decide_False; [done | by intros [_ ?]].
    + apply bool_decide_eq_false in Ein. rewrite decide_True by done.
      destruct (metadata data) as [m|]; [|done]. intros H.
      repeat (apply bind_Ok in H as (? & _ & H)). injection H as <-.
      eexists. by repeat split.
  - apply Z.leb_gt in Ele. intros [= <-].
    rewrite decide_False; [done|]. intros [? _]. lia.
Qed.

(** The nodes of a partition: the items of the index that pass the
    filter, each under its key with its count. *)
Lemma graph_select_inv seed_papers kmin idx nodes :
  NoDup (od_keys idx) ->
  select seed_papers kmin idx = Ok nodes ->
  od_keys nodes = map fst (filter (graph_selected seed_papers kmin) idx)
  /\ forall k n, od_lookup k nodes = Some n ->
       key n = k
       /\ exists data, (k, data) ∈ idx /\ count n = Some (size (by_seed data)).
Proof.
  intros Hnd.
  apply (foldM_invariant (select_step seed_papers kmin)
           (fun pre acc =>
              od_keys acc = map fst (filter (graph_selected seed_papers kmin) pre)
              /\ forall k n, od_lookup k acc = Some n ->
                   key n = k
                   /\ exists data, (k, data) ∈ pre
                        /\ count n = Some (size (by_seed data)))).
  - split; [done | by intros k n].
  - intros pre item post acc acc' Hidx [Hkeys Hnodes] Hstep.
    apply graph_select_step_inv in Hstep. rewrite filter_app, map_app.
    destruct (decide (graph_selected seed_papers kmin item)) as [Hs|Hs].
    + destruct Hstep as (n & -> & Hkn & Hcn).
      rewrite filter_cons_True, filter_nil by done. simpl.
      assert (item.1 ∉ od_keys acc) as Hfresh.
      { rewrite Hkeys. intros Hin.
        apply list_elem_of_fmap in Hin as (item' & Hk & Hin).
        apply list_elem_of_filter in Hin as [_ Hin].
        rewrite Hidx in Hnd. unfold od_keys in Hnd. rewrite map_app in Hnd.
        apply NoDup_app in Hnd as (_ & Hdis & _).
        apply (Hdis item'.1); [apply list_elem_of_fmap; by exists item'|].
        rewrite <- Hk. simpl. by left. }
      split.
      * rewrite od_keys_set, decide_False by done. by rewrite Hkeys.
      * intros k n'. rewrite od_lookup_set. case_decide as Hk.
        -- intros [= <-]. subst k. split; [done|]. exists item.2.
           split; [|done]. apply elem_of_app. right. destruct item. by left.
        -- intros Hl. apply Hnodes in Hl as (? & data & ? & ?).
           split; [done|]. exists data. split; [|done].
           apply elem_of_app. by left.
    + subst acc'. rewrite filter_cons_False, filter_nil by done.
      simpl. rewrite app_nil_r. split; [done|].
      intros k n Hl. apply Hnodes in Hl as (? & data & ? & ?).
      split; [done|]. exists data. split; [|done]. apply elem_of_app. by left.
Qed.

(** *** The graph handed to the renderer *)

Definition relevant (g : graph) (e : edge) : Prop :=
  let all_relevant_keys : gset pystr :=
    list_to_set (od_keys (seed_papers g))
    ∪ list_to_set (od_keys (cited_papers g))
    ∪ list_to_set (od_keys (citing_papers g)) in
  e.1.1 ∈ all_relevant_keys /\ e.1.2 ∈ all_relevant_keys.

#[local] Instance relevant_dec g e : Decision (relevant g e).
Proof. unfold relevant. apply _. Defined.

(** What a run of [analyze_for_graph] computes, step by step. *)
Lemma analyze_for_graph_inv data k_cited k_citing g :
  analyze_for_graph data k_cited k_citing = Ok g ->
  exists st,
    foldM seed_step (papers_of data) [] = Ok (seed_papers g)
    /\ foldM paper_step (papers_of data)
         {| references_index := []; citing_index := []; all_edges := [] |}
       = Ok st
    /\ select (seed_papers g) k_cited (references_index st) = Ok (cited_papers g)
    /\ select (seed_papers g) k_citing (citing_index st) = Ok (citing_papers g)
    /\ edges g = list_of_set (filter (relevant g) (all_edges st)).
Proof.
  unfold analyze_for_graph. intros H.
  apply bind_Ok in H as (p & Hp & H).
  apply bind_Ok in H as (papers & Hpapers & H).
  assert (papers_of data = papers) as ->.
  { unfold papers_of, related. by rewrite Hp, Hpapers. }
  apply bind_Ok in H as (sp & Hsp & H).
  apply bind_Ok in H as (st & Hst & H).
  apply bind_Ok in H as (cited & Hcited & H).
  apply bind_Ok in H as (citing & Hciting & H).
  injection H as <-. by exists st.
Qed.

(** The keys of the three node partitions. *)
Definition node_keys (g : graph) : list pystr :=
  od_keys (seed_papers g) ++ od_keys (cited_papers g)
  ++ od_keys (citing_papers g).

Lemma elem_of_flat_map {X Y} (f : X -> list Y) (l : list X) (y : Y) :
  y ∈ flat_map f l <-> exists x, x ∈ l /\ y ∈ f x.
Proof.
  rewrite list_elem_of_In, in_flat_map.
  split; intros (x & Hx & Hy); exists x; by rewrite ?list_elem_of_In in *.
Qed.

Lemma graph_edges_cites papers e : e ∈ graph_edges papers -> e.2 = cites.
Proof.
  unfold graph_edges. intros H.
  apply elem_of_flat_map in H as (paper & _ & He).
  unfold paper_edges in He. destruct (seed_key get_paper_key paper); [|by apply elem_of_nil in He].
  apply elem_of_app in He as [He|He];
    apply list_elem_of_fmap in He as (k & -> & _); done.
Qed.

(** C9: both ends of every edge of the graph are keys of nodes of the
    three partitions, and no two edges have the same source and target. *)
Theorem edge_integrity (data : json) (k_cited k_citing : Z) (g : graph) :
  analyze_for_graph data k_cited k_citing = Ok g ->
  (forall src tgt etype, (src, tgt, etype) ∈ edges g ->
     src ∈ node_keys g /\ tgt ∈ node_keys g)
  /\ NoDup (map (fun e : edge => (e.1.1, e.1.2)) (edges g)).
Proof.
  intros H.
  apply analyze_for_graph_inv in H as (st & _ & Hst & _ & _ & Hedges).
  apply paper_loop_invariant in Hst as (_ & _ & Hall).
  rewrite Hedges. unfold list_of_set. split.
  - intros src tgt etype He.
    apply elem_of_remove_dups, list_elem_of_filter in He as [[Hs Ht] _].
    unfold node_keys. simpl in Hs, Ht.
    rewrite !elem_of_union, !elem_of_list_to_set in Hs, Ht.
    rewrite !elem_of_app. tauto.
  - apply NoDup_fmap_2_strong; [|apply NoDup_remove_dups].
    intros [[s t] ty] [[s' t'] ty'] He He' [= <- <-].
    apply elem_of_remove_dups, list_elem_of_filter in He as [_ He].
    apply elem_of_remove_dups, list_elem_of_filter in He' as [_ He'].
    rewrite Hall in He, He'.
    apply graph_edges_cites in He, He'. simpl in He, He'. by subst.
Qed.

Lemma edge_integrity_witness :
  exists g,
    analyze_for_graph two_seeds_doc 2 1 = Ok g
    /\ edges g
       = [ (lit "title:paper a", lit "title:paper x", lit "cites");
           (lit "title:paper c", lit "title:paper a", lit "cites");
           (lit "title:paper b", lit "title:paper x", lit "cites") ]
    /\ (forall src tgt etype, (src, tgt, etype) ∈ edges g ->
          src ∈ node_keys g /\ tgt ∈ node_keys g)
    /\ NoDup (map (fun e : edge => (e.1.1, e.1.2)) (edges g)).
Proof.
  eexists. split; [vm_compute; reflexivity|]. split; [vm_compute; reflexivity|].
  apply (edge_integrity two_seeds_doc 2 1). vm_compute. reflexivity.
Defined.

End Graph.

(** ** The analysis and the graph compared *)

Section Comparison.

Implicit Types (k : pystr) (paper : json) (papers : list json).

(** The records of a document that get a key: the metadata and the two
    relation lists of every seed entry with metadata. *)
Definition records_of (papers : list json) : list json :=
  flat_map (fun paper =>
              if has_metadata paper
              then metadata_of paper :: related "references" paper
                   ++ related "cited_by" paper
              else []) papers.

(** Documents on which the two entry points can be compared: both derive
    the same key for every record; every seed entry with metadata has a
    key; no two seed entries have the same key; no relation list holds
    two records with the same key. *)
Definition comparable (papers : list json) : Prop :=
  Forall (fun record => resolved Analyze.get_paper_key record
                        = resolved Visualize.get_paper_key record)
    (records_of papers)
  /\ Forall (fun paper => has_metadata paper = true ->
                          is_Some (seed_key Analyze.get_paper_key paper)) papers
  /\ NoDup (omap (seed_key Analyze.get_paper_key) papers)
  /\ Forall (fun paper =>
               NoDup (related_keys Analyze.get_paper_key "references" paper)
               /\ NoDup (related_keys Analyze.get_paper_key "cited_by" paper))
       papers.

#[local] Instance comparable_dec papers : Decision (comparable papers).
Proof. unfold comparable. apply _. Defined.

Lemma comparable_cons paper papers :
  comparable (paper :: papers) -> comparable [paper] /\ comparable papers.
Proof.
  intros (H1 & H2 & H3 & H4). unfold records_of in H1. simpl in H1.
  apply Forall_app in H1 as [H1 H1'].
  apply Forall_cons in H2 as [H2 H2']. apply Forall_cons in H4 as [H4 H4'].
  split.
  - split; [|split; [|split]].
    + unfold records_of. simpl. by rewrite app_nil_r.
    + constructor; [done | constructor].
    + simpl. destruct (seed_key _ paper); [apply NoDup_singleton | constructor].
    + constructor; [done | constructor].
  - split; [done|]. split; [done|]. split; [|done].
    simpl in H3. destruct (seed_key _ paper); [|done].
    by apply NoDup_cons in H3 as [_ ?].
Qed.

Lemma comparable_seed_key paper :
  comparable [paper] ->
  seed_key Visualize.get_paper_key paper = seed_key Analyze.get_paper_key paper.
Proof.
  intros (H1 & _). unfold seed_key. unfold records_of in H1. simpl in H1.
  destruct (has_metadata paper); [|done].
  by apply Forall_cons in H1 as [-> _].
Qed.

Lemma omap_ext_Forall {X Y} (f g : X -> option Y) l :
  Forall (fun x => f x = g x) l -> omap f l = omap g l.
Proof.
  induction 1 as [|x l Hx _ IH]; [done|].
  cbn [omap list_omap]. rewrite Hx. destruct (g x); [|done].
  f_equal. exact IH.
Qed.

Lemma comparable_related_keys relation paper :
  relation = "references"%string \/ relation = "cited_by"%string ->
  comparable [paper] -> has_metadata paper = true ->
  related_keys Visualize.get_paper_key relation paper
  = related_keys Analyze.get_paper_key relation paper.
Proof.
  intros Hrel (H1 & _) Hm. unfold records_of in H1. simpl in H1.
  rewrite Hm, app_nil_r in H1. apply Forall_cons in H1 as [_ H1].
  apply Forall_app in H1 as [Hr Hc]. unfold related_keys. symmetry.
  destruct Hrel as [-> | ->]; by apply omap_ext_Forall.
Qed.

(** On a comparable document the keys of the seed entries are the same
    for both entry points. *)
Lemma comparable_seed_keys papers :
  comparable papers ->
  omap (seed_key Visualize.get_paper_key) papers
  = omap (seed_key Analyze.get_paper_key) papers.
Proof.
  induction papers as [|paper papers IH]; [done|]. intros H.
  apply comparable_cons in H as [Hp Hps]. cbn [omap list_omap].
  rewrite (comparable_seed_key _ Hp).
  destruct (seed_key Analyze.get_paper_key paper); [f_equal|]; by apply IH.
Qed.

Lemma filter_eq_absent (l : list pystr) k :
  k ∉ l -> filter (fun k' => k' = k) l = [].
Proof.
  induction l as [|y l IH]; [done|]. intros Hn.
  apply not_elem_of_cons in Hn as [? ?].
  rewrite filter_cons_False by congruence. by apply IH.
Qed.

Lemma filter_eq_NoDup_length (l : list pystr) k :
  NoDup l -> (length (filter (fun k' => k' = k) l) <= 1)%nat.
Proof.
  induction 1 as [|x l Hx Hnd IH]; [simpl; lia|].
  destruct (decide (x = k)) as [->|Hne].
  - rewrite filter_cons_True by done.
    rewrite filter_eq_absent by done. simpl. lia.
  - by rewrite filter_cons_False.
Qed.

Lemma contributors_paper relation paper s k :
  seed_key Visualize.get_paper_key paper = Some s ->
  contributors k (graph_listing relation [paper])
  = replicate
      (length (filter (fun k' => k' = k)
                 (related_keys Visualize.get_paper_key relation paper))) s.
Proof.
  intros Hs. unfold graph_listing. simpl. rewrite Hs, app_nil_r.
  unfold contributors.
  induction (related_keys Visualize.get_paper_key relation paper)
    as [|k' ks IH]; [done|].
  simpl. destruct (decide (k' = k)) as [->|Hne].
  - rewrite !filter_cons_True by done. simpl. by rewrite IH.
  - rewrite !filter_cons_False by done. exact IH.
Qed.

Lemma contributors_seed relation papers k s :
  s ∈ contributors k (graph_listing relation papers) ->
  s ∈ omap (seed_key Visualize.get_paper_key) papers.
Proof.
  unfold contributors, graph_listing. intros H.
  apply list_elem_of_fmap in H as ([k' s'] & -> & H).
  apply list_elem_of_filter in H as [_ H].
  apply elem_of_flat_map in H as (paper & Hin & H).
  destruct (seed_key Visualize.get_paper_key paper) as [x|] eqn:E;
    [|by apply elem_of_nil in H].
  apply list_elem_of_fmap in H as (? & [= -> ->] & _).
  apply list_elem_of_omap. by exists paper.
Qed.

(** On a comparable document the seed keys recorded for a key in the
    graph's index are distinct and as many as the occurrences recorded
    for it in the analysis' index. *)
Lemma comparable_counts relation papers k :
  relation = "references"%string \/ relation = "cited_by"%string ->
  comparable papers ->
  NoDup (contributors k (graph_listing relation papers))
  /\ length (contributors k (graph_listing relation papers))
     = length (occurrences k (listing relation papers))
  /\ map fst (graph_listing relation papers)
     = map fst (listing relation papers).
Proof.
  intros Hrel. induction papers as [|paper papers IH]; intros H.
  - split; [constructor | done].
  - pose proof H as (_ & _ & Hnd & _).
    apply comparable_cons in H as [Hp Hps].
    destruct (IH Hps) as (IHnd & IHlen & IHkeys).
    change (paper :: papers) with ([paper] ++ papers).
    rewrite graph_listing_app, listing_app, contributors_app, occurrences_app.
    rewrite !map_app, !length_app, IHlen, IHkeys.
    pose proof (comparable_seed_key _ Hp) as Hs.
    pose proof (comparable_related_keys relation _ Hrel Hp) as Hk.
    destruct Hp as (_ & Hkeyed & _ & Hlists).
    apply Forall_cons in Hkeyed as [Hkeyed _].
    apply Forall_cons in Hlists as [[Hrefs Hcit] _].
    destruct (has_metadata paper) eqn:Hm.
    + destruct (Hkeyed eq_refl) as [s Hseed].
      rewrite Hseed in Hs. specialize (Hk eq_refl).
      rewrite (contributors_paper _ _ _ _ Hs), (occurrences_paper _ _ _ Hm).
      rewrite !length_replicate. unfold times_listed. rewrite Hk.
      split; [|split; [done|]].
      * apply NoDup_app. split; [|split; [|done]].
        -- assert (length (filter (fun k' => k' = k)
                             (related_keys Analyze.get_paper_key relation paper))
                   <= 1)%nat as Hle.
           { apply filter_eq_NoDup_length. by destruct Hrel as [-> | ->]. }
           revert Hle.
           generalize (length (filter (fun k' => k' = k)
                                 (related_keys Analyze.get_paper_key
                                    relation paper))).
           intros [|[|n]] Hle; simpl; [constructor | apply NoDup_singleton | lia].
        -- intros x Hx Hx'. apply elem_of_replicate in Hx as [-> _].
           apply contributors_seed in Hx'.
           rewrite (comparable_seed_keys _ Hps) in Hx'.
           simpl in Hnd. rewrite Hseed in Hnd.
           by apply NoDup_cons in Hnd as [? _].
      * f_equal. unfold graph_listing, listing. simpl.
        rewrite Hs, Hm, !app_nil_r, Hk, !map_map. by apply map_ext.
    + unfold seed_key in Hs. rewrite Hm in Hs.
      unfold graph_listing at 1 3, listing at 1 3. simpl.
      unfold seed_key at 1 2. rewrite Hm. simpl.
      unfold seed_key. rewrite Hm. simpl. by split.
Qed.

(** The nodes of a partition of the graph: the listed keys that are not
    seed nodes and whose number of distinct recorded seed keys reaches
    the threshold. *)
Lemma graph_partition relation papers kmin sp idx nodes :
  graph_represents (graph_listing relation papers) idx ->
  Visualize.select sp kmin idx = Ok nodes ->
  forall k, k ∈ od_keys nodes <->
    k ∈ map fst (graph_listing relation papers)
    /\ (kmin <= Z.of_nat (size (list_to_set (C := gset pystr)
                                  (contributors k (graph_listing relation papers)))))%Z
    /\ (k ∉ od_keys sp).
Proof.
  intros (Hnd & Hkeys & Hocc) Hsel k.
  apply graph_select_inv in Hsel as [-> _]; [|done].
  rewrite list_elem_of_fmap. split.
  - intros ([k' data] & -> & Hin). simpl.
    apply list_elem_of_filter in Hin as [[Hmin Hseed] Hin]. simpl in *.
    pose proof (od_elem_lookup _ _ _ Hnd Hin) as Hl.
    apply Hocc in Hl as [<- _]. split; [|done].
    apply Hkeys. apply list_elem_of_fmap. by exists (k', data).
  - intros (Hk & Hmin & Hseed).
    apply Hkeys, od_lookup_is_Some in Hk as [data Hdata].
    exists (k, data). split; [done|]. apply list_elem_of_filter.
    split; [|by apply od_lookup_Some_elem].
    split; [|done]. simpl. by apply Hocc in Hdata as [-> _].
Qed.

(** One seed paper lists the same reference twice. *)
Definition twice_listed_doc : json :=
  document
    [seed_entry "10.1/a" (titled "Paper A")
       [titled "Paper X"; titled "Paper X"] []].

(** C3, as stated, fails.  A reference listed twice by one seed paper is
    in the cited-result for [k_cited = 2] and not in the cited partition;
    and records with a title and a DOI get different keys in the two
    entry points. *)
Lemma partitions_differ :
  (exists cited citing g,
      Analyze.analyze_citations twice_listed_doc 2 2 = Ok (cited, citing)
      /\ Visualize.analyze_for_graph twice_listed_doc 2 2 = Ok g
      /\ map Analyze.key cited = [lit "title:paper x"]
      /\ od_keys (Visualize.cited_papers g) = [])
  /\ (exists cited citing g,
        Analyze.analyze_citations preprint_and_published_doc 1 1
        = Ok (cited, citing)
        /\ Visualize.analyze_for_graph preprint_and_published_doc 1 1 = Ok g
        /\ map Analyze.key cited = [lit "title:paper x"]
        /\ od_keys (Visualize.cited_papers g)
           = [lit "doi:10.1000/x"; lit "doi:10.48550/arxiv.2201.05125"]).
Proof.
  split; eexists _, _, _;
    (split; [vm_compute; reflexivity|]); (split; [vm_compute; reflexivity|]);
    split; vm_compute; reflexivity.
Qed.

(** C3, amended: on a document for which both entry points derive the
    same key for every record, every seed entry with metadata has a key,
    no two seed entries have the same key and no relation list holds two
    records with the same key, the keys of the cited partition are the
    keys of the cited-result list for the same [k_cited], and the keys of
    the citing partition are the keys of the citing-result list for the
    same [k_citing]. *)
Theorem partitions_agree (data : json) (k_cited k_citing : Z)
    (cited citing : list Analyze.entry) (g : Visualize.graph) :
  comparable (papers_of data) ->
  Analyze.analyze_citations data k_cited k_citing = Ok (cited, citing) ->
  Visualize.analyze_for_graph data k_cited k_citing = Ok g ->
  (forall k, k ∈ od_keys (Visualize.cited_papers g)
             <-> k ∈ map Analyze.key cited)
  /\ (forall k, k ∈ od_keys (Visualize.citing_papers g)
               <-> k ∈ map Analyze.key citing).
Proof.
  intros Hcomp Ha Hg.
  apply analyze_citations_inv in Ha
    as (st & ridx & cidx & cited0 & citing0
        & Hst & Hridx & Hcited0 & Hcited & Hcidx & Hciting0 & Hciting).
  rewrite (build_seed_index_keys _ _ Hst) in Hcited0, Hciting0.
  apply analyze_for_graph_inv in Hg as (gst & Hsp & Hgst & Hgc & Hgq & _).
  apply paper_loop_invariant in Hgst as (Hgr & Hgi & _).
  apply seed_nodes_keys in Hsp as [_ Hsp].
  assert (forall k, k ∉ od_keys (Visualize.seed_papers g)
                    <-> k ∉ seed_key_set (papers_of data)) as Hseeds.
  { intros k. rewrite Hsp, (comparable_seed_keys _ Hcomp).
    unfold seed_key_set. by rewrite elem_of_list_to_set. }
  split; intros k.
  - rewrite (graph_partition _ _ _ _ _ _ Hgr Hgc).
    rewrite (proj2 (result_list _ _ _ _ _ _ Hridx Hcited0 Hcited)).
    destruct (comparable_counts "references" (papers_of data) k)
      as (Hnd & Hlen & Hkeys); [by left | done |].
    rewrite size_list_to_set by done. rewrite Hlen, Hkeys, Hseeds. tauto.
  - rewrite (graph_partition _ _ _ _ _ _ Hgi Hgq).
    rewrite (proj2 (result_list _ _ _ _ _ _ Hcidx Hciting0 Hciting)).
    destruct (comparable_counts "cited_by" (papers_of data) k)
      as (Hnd & Hlen & Hkeys); [by right | done |].
    rewrite size_list_to_set by done. rewrite Hlen, Hkeys, Hseeds. tauto.
Qed.

Lemma partitions_agree_witness :
  exists cited citing g,
    comparable (papers_of two_seeds_doc)
    /\ Analyze.analyze_citations two_seeds_doc 2 1 = Ok (cited, citing)
    /\ Visualize.analyze_for_graph two_seeds_doc 2 1 = Ok g
    /\ map Analyze.key cited = [lit "title:paper x"]
    /\ map Analyze.key citing = [lit "title:paper c"]
    /\ (forall k, k ∈ od_keys (Visualize.cited_papers g)
                  <-> k ∈ map Analyze.key cited)
    /\ (forall k, k ∈ od_keys (Visualize.citing_papers g)
                  <-> k ∈ map Analyze.key citing).
Proof.
  assert (comparable (papers_of two_seeds_doc)) as Hcomp.
  { apply (bool_decide_unpack _). by vm_compute. }
  eexists _, _, _. split; [exact Hcomp|].
  split; [vm_compute; reflexivity|]. split; [vm_compute; reflexivity|].
  split; [vm_compute; reflexivity|]. split; [vm_compute; reflexivity|].
  apply (partitions_agree two_seeds_doc 2 1);
    [exact Hcomp | vm_compute; reflexivity | vm_compute; reflexivity].
Defined.

End Comparison.

(** ** Merging *)

Section Merging.

Import Fetch.

Implicit Types (h : store) (a b : loc) (f : string) (k : pystr).

#[local] Instance exn_eq_dec : EqDecision exn.
Proof. solve_decision. Defined.

#[local] Instance result_eq_dec {X} `{EqDecision X} : EqDecision (result X).
Proof. solve_decision. Defined.

(** [record.get(field)] on the object at [a]. *)
Definition field_of h a f : json :=
  default JNull (dict_lookup (lit f) (h a)).

(** The objects of a list, without the [None] elements. *)
Definition objects (l : list (option loc)) : list loc := omap id l.

(** The records of [objs] with key [k], in the order of the list. *)
Definition group h k (objs : list loc) : list loc :=
  filter (fun b => get_paper_key h b = Ok k) objs.

(** The first non-empty value of a field in a sequence of records. *)
Definition first_nonempty h f (grp : list loc) : option json :=
  head (filter (fun v => truthy v = true) (map (fun b => field_of h b f) grp)).

Lemma get_paper_key_ext h h' a : h a = h' a -> get_paper_key h a = get_paper_key h' a.
Proof. unfold get_paper_key. by intros ->. Qed.

Lemma field_of_set_same h a f v :
  field_of (store_set h a (od_set (lit f) v (h a))) a f = v.
Proof.
  unfold field_of, store_set, dict_lookup. rewrite Nat.eqb_refl.
  by rewrite od_lookup_set, decide_True.
Qed.

Lemma field_of_set_other h a f g v :
  lit f <> lit g ->
  field_of (store_set h a (od_set (lit f) v (h a))) a g = field_of h a g.
Proof.
  intros Hne. unfold field_of, store_set, dict_lookup. rewrite Nat.eqb_refl.
  by rewrite od_lookup_set, decide_False.
Qed.

Lemma store_set_other h a b d : a <> b -> store_set h a d b = h b.
Proof. intros Hne. unfold store_set. by apply Nat.eqb_neq in Hne as ->. Qed.

(** The value of a merged field after [existing] met [paper]. *)
Definition merged_value h (existing paper : loc) f : json :=
  if negb (truthy (field_of h existing f)) && truthy (field_of h paper f)
  then field_of h paper f else field_of h existing f.

Lemma merge_field_inv h a b f :
  a <> b ->
  let h' := merge_field a b h f in
  (forall c, c <> a -> h' c = h c)
  /\ field_of h' a f = merged_value h a b f
  /\ (forall g, lit f <> lit g -> field_of h' a g = field_of h a g).
Proof.
  intros Hne. unfold merge_field, merged_value.
  fold (field_of h a f). fold (field_of h b f).
  destruct (negb (truthy (field_of h a f)) && truthy (field_of h b f)); simpl.
  - split; [intros c Hc; by apply store_set_other|].
    split; [apply field_of_set_same|]. intros g Hg. by apply field_of_set_other.
  - done.
Qed.

Lemma merge_fields_inv (fields : list string) h a b :
  a <> b -> NoDup (map lit fields) ->
  let h' := fold_left (merge_field a b) fields h in
  (forall c, c <> a -> h' c = h c)
  /\ (forall f, f ∈ fields -> field_of h' a f = merged_value h a b f)
  /\ (forall g, lit g ∉ map lit fields -> field_of h' a g = field_of h a g).
Proof.
  intros Hne. revert h. induction fields as [|x fields IH]; intros h Hnd.
  - simpl. split; [done|]. split; [|done]. intros f Hf. by apply elem_of_nil in Hf.
  - simpl in Hnd. apply NoDup_cons in Hnd as [Hx Hnd]. simpl.
    destruct (merge_field_inv h a b x Hne) as (Hc0 & Hx0 & Hg0).
    destruct (IH (merge_field a b h x) Hnd) as (Hc1 & Hf1 & Hg1).
    split; [|split].
    + intros c Hc. by rewrite Hc1, Hc0.
    + intros f Hf. apply elem_of_cons in Hf as [->|Hf].
      * by rewrite Hg1, Hx0.
      * rewrite Hf1 by done. unfold merged_value, field_of.
        rewrite (Hc0 b) by done. fold (field_of (merge_field a b h x) a f).
        fold (field_of h b f).
        rewrite Hg0; [done|]. intros Heq. apply Hx. rewrite Heq.
        apply list_elem_of_fmap. by exists f.
    + intros g Hg. apply not_elem_of_cons in Hg as [Hgx Hg].
      rewrite Hg1 by done. by apply Hg0.
Qed.

Lemma merge_source_inv h a b :
  a <> b ->
  let h' := merge_source a b h in
  (forall c, c <> a -> h' c = h c)
  /\ (forall g, lit "source" <> lit g -> field_of h' a g = field_of h a g).
Proof.
  intros Hne. unfold merge_source.
  destruct (negb _); simpl; [|done].
  split; [intros c Hc; by apply store_set_other|].
  intros g Hg. by apply field_of_set_other.
Qed.

(** What meeting a later record with the same key does to the record
    kept: each merged field that was empty takes the later record's
    value when that one is not empty; nothing else of the six fields
    changes, and no other object is written. *)
Lemma merge_existing_inv h a b :
  a <> b ->
  let h' := merge_source a b (fold_left (merge_field a b) merged_fields h) in
  (forall c, c <> a -> h' c = h c)
  /\ (forall f, f ∈ merged_fields -> field_of h' a f = merged_value h a b f).
Proof.
  intros Hne.
  destruct (merge_fields_inv merged_fields h a b Hne) as (Hc & Hf & _).
  { apply (bool_decide_unpack _). by vm_compute. }
  destruct (merge_source_inv (fold_left (merge_field a b) merged_fields h) a b Hne)
    as (Hc' & Hg').
  split.
  - intros c Hca. by rewrite Hc', Hc.
  - intros f Hin. rewrite Hg'; [by apply Hf|].
    revert Hin. unfold merged_fields. rewrite !elem_of_cons, elem_of_nil.
    intros [->|[->|[->|[->|[->|[->|[]]]]]]]; by vm_compute.
Qed.

Lemma od_set_absent {V} k (v : V) (d : odict V) :
  od_lookup k d = None -> od_set k v d = d ++ [(k, v)].
Proof.
  induction d as [|[k' v'] d IH]; [done|]. simpl.
  destruct (str_eqb k k'); [done|]. intros H. by rewrite IH.
Qed.

Lemma merge_existing_frame (fields : list string) h a b c :
  c <> a ->
  merge_source a b (fold_left (merge_field a b) fields h) c = h c.
Proof.
  intros Hc.
  assert (fold_left (merge_field a b) fields h c = h c) as Hf.
  { revert h. induction fields as [|x fields IH]; intros h; [done|].
    simpl. rewrite IH. unfold merge_field.
    destruct (negb _ && _); [by apply store_set_other | done]. }
  unfold merge_source. destruct (negb _); [|done].
  by rewrite store_set_other.
Qed.

Lemma objects_app l l' : objects (l ++ l') = objects l ++ objects l'.
Proof. unfold objects. apply omap_app. Qed.

(** Two records for the same DOI from two providers: the first has a
    venue, the second a year. *)
Definition two_sources : store :=
  fun a =>
    match a with
    | 0%nat => [kv "openalex_id" (jstr "W1"); kv "doi" (jstr "10.1/x");
                kv "title" (jstr "T"); kv "year" JNull;
                kv "venue" (jstr "NeurIPS"); kv "source" (jstr "openalex")]
    | 1%nat => [kv "s2_id" (jstr "abc"); kv "doi" (jstr "10.1/X");
                kv "title" (jstr "T"); kv "year" (JNum 2020);
                kv "venue" (jstr ""); kv "source" (jstr "semantic_scholar")]
    | _ => []
    end.

(** C7, as stated, fails: the first input record is not what it was
    before the call; the year of the second record was written into it. *)
Lemma merge_mutates_input :
  exists h' out,
    merge_paper_lists two_sources [Some 0%nat] [Some 1%nat] = Ok (h', out)
    /\ out = [0%nat]
    /\ field_of two_sources 0%nat "year" = JNull
    /\ field_of h' 0%nat "year" = JNum 2020
    /\ h' 0%nat <> two_sources 0%nat.
Proof.
  eexists _, _. split; [vm_compute; reflexivity|].
  do 3 (split; [vm_compute; reflexivity|]). by vm_compute.
Qed.

(** C7, amended: merging writes only into the records it returns, which
    are records of the input lists (the objects themselves, not copies);
    every other record is after the call what it was before. *)
Theorem merge_writes_only_kept (h h' : store) (list1 list2 : list (option loc))
    (out : list loc) :
  merge_paper_lists h list1 list2 = Ok (h', out) ->
  (forall a, a ∉ out -> h' a = h a)
  /\ (forall a, a ∈ out -> a ∈ objects (list1 ++ list2)).
Proof.
  unfold merge_paper_lists. intros H.
  apply bind_Ok in H as ([hc seen] & H & [= <- <-]). simpl.
  revert H.
  apply (foldM_invariant merge_step
           (fun pre st =>
              (forall a, a ∉ od_values st.2 -> st.1 a = h a)
              /\ (forall a, a ∈ od_values st.2 -> a ∈ objects pre))).
  - split; [done|]. intros a Ha. by apply elem_of_nil in Ha.
  - intros pre paper post [h1 seen1] [h2 seen2] _ [Hframe Hin] Hstep.
    cbn [fst snd] in *. rewrite objects_app. unfold merge_step in Hstep.
    destruct paper as [b|].
    + apply bind_Ok in Hstep as (k & Hk & Hstep).
      destruct (od_lookup k seen1) as [a|] eqn:Hl.
      * injection Hstep as <- <-. split.
        -- intros c Hc.
           etrans; [apply (merge_existing_frame merged_fields h1 a b c)
                   | by apply Hframe].
           intros ->. apply Hc. unfold od_values.
           apply list_elem_of_fmap. exists (k, a).
           split; [done | by apply od_lookup_Some_elem].
        -- intros c Hc. apply elem_of_app. left. by apply Hin.
      * injection Hstep as <- <-. rewrite od_set_absent by done.
        unfold od_values in *. rewrite map_app. simpl. split.
        -- intros c Hc. apply Hframe. intros Hc'. apply Hc.
           apply elem_of_app. by left.
        -- intros c Hc. apply elem_of_app in Hc as [Hc|Hc].
           ++ apply elem_of_app. left. by apply Hin.
           ++ apply list_elem_of_singleton in Hc as ->.
              apply elem_of_app. right. by left.
    + injection Hstep as <- <-. split; [done|].
      intros c Hc. apply elem_of_app. left. by apply Hin.
Qed.

Lemma merge_writes_only_kept_witness :
  exists h' out,
    merge_paper_lists two_sources [Some 0%nat] [Some 1%nat] = Ok (h', out)
    /\ out = [0%nat]
    /\ h' 1%nat = two_sources 1%nat
    /\ (forall a, a ∉ out -> h' a = two_sources a)
    /\ (forall a, a ∈ out -> a ∈ objects ([Some 0%nat] ++ [Some 1%nat])).
Proof.
  eexists _, _. split; [vm_compute; reflexivity|].
  split; [reflexivity|]. split; [vm_compute; reflexivity|].
  apply (merge_writes_only_kept two_sources _ [Some 0%nat] [Some 1%nat]).
  vm_compute. reflexivity.
Defined.

(** *** First non-empty value wins *)

Lemma group_app h k objs objs' :
  group h k (objs ++ objs') = group h k objs ++ group h k objs'.
Proof. unfold group. apply filter_app. Qed.

Lemma group_singleton h k b :
  group h k [b] = if decide (get_paper_key h b = Ok k) then [b] else [].
Proof.
  unfold group. case_decide.
  - by rewrite filter_cons_True.
  - by rewrite filter_cons_False.
Qed.

Lemma head_group_inv h k objs a :
  head (group h k objs) = Some a -> a ∈ objs /\ get_paper_key h a = Ok k.
Proof.
  intros H. apply head_Some_elem_of in H.
  by apply list_elem_of_filter in H as [? ?].
Qed.

Lemma first_nonempty_snoc h f grp b :
  first_nonempty h f (grp ++ [b])
  = match first_nonempty h f grp with
    | Some v => Some v
    | None => if truthy (field_of h b f) then Some (field_of h b f) else None
    end.
Proof.
  unfold first_nonempty. rewrite map_app, filter_app. simpl.
  destruct (filter _ (map _ grp)) as [|v vs]; simpl.
  - destruct (truthy (field_of h b f)) eqn:E.
    + by rewrite filter_cons_True.
    + rewrite filter_cons_False; [done|]. by rewrite E.
  - done.
Qed.

Lemma first_nonempty_Some h f grp v :
  first_nonempty h f grp = Some v -> truthy v = true.
Proof.
  unfold first_nonempty. intros H. apply head_Some_elem_of in H.
  by apply list_elem_of_filter in H as [? _].
Qed.

Lemma first_nonempty_None h f grp a :
  first_nonempty h f grp = None -> a ∈ grp -> truthy (field_of h a f) = false.
Proof.
  unfold first_nonempty. intros H Ha.
  destruct (truthy (field_of h a f)) eqn:E; [|done].
  assert (field_of h a f ∈ filter (fun v => truthy v = true)
                             (map (fun b => field_of h b f) grp)) as Hin.
  { apply list_elem_of_filter. split; [done|].
    apply list_elem_of_fmap. by exists a. }
  destruct (filter _ _); [by apply elem_of_nil in Hin | done].
Qed.

Lemma first_nonempty_head h f grp a :
  head grp = Some a -> truthy (field_of h a f) = true ->
  first_nonempty h f grp = Some (field_of h a f).
Proof.
  destruct grp as [|x grp]; [done|]. intros [= ->] Ht.
  unfold first_nonempty. simpl. by rewrite filter_cons_True.
Qed.

(** The state of the loop of [merge_paper_lists] after the distinct
    objects [pre]: [seen] keeps for each key the first record met with it;
    objects not met yet are as they were; each merged field of a kept
    record holds the first non-empty value among the records met with
    its key, or what the kept record had when there is none. *)
Definition merged h (pre : list loc) (hc : store) (seen : odict loc) : Prop :=
  NoDup (od_keys seen)
  /\ (forall k a, od_lookup k seen = Some a -> head (group h k pre) = Some a)
  /\ (forall k, od_lookup k seen = None -> group h k pre = [])
  /\ (forall b, b ∉ pre -> hc b = h b)
  /\ (forall k a, od_lookup k seen = Some a ->
       forall f, f ∈ merged_fields ->
         field_of hc a f
         = default (field_of h a f) (first_nonempty h f (group h k pre))).

Lemma field_of_ext h h' a f : h a = h' a -> field_of h a f = field_of h' a f.
Proof. unfold field_of. by intros ->. Qed.

Lemma merged_step h pre hc seen b hc' seen' :
  merged h pre hc seen -> b ∉ pre ->
  merge_step (hc, seen) (Some b) = Ok (hc', seen') ->
  merged h (pre ++ [b]) hc' seen'.
Proof.
  intros (Hnd & Hhead & Hnone & Hframe & Hval) Hb Hstep.
  unfold merge_step in Hstep.
  apply bind_Ok in Hstep as (k & Hk & Hstep).
  rewrite (get_paper_key_ext hc h b (Hframe b Hb)) in Hk.
  destruct (od_lookup k seen) as [a|] eqn:Hl.
  - (* a record with this key is kept already *)
    injection Hstep as <- <-.
    destruct (head_group_inv _ _ _ _ (Hhead k a Hl)) as [Hain Hka].
    assert (a <> b) as Hab by (by intros ->).
    destruct (merge_existing_inv hc a b Hab) as (Hc' & Hf').
    split; [done|]. split; [|split; [|split]].
    + intros k' a' Hl'. rewrite group_app.
      pose proof (Hhead k' a' Hl') as Hh.
      destruct (group h k' pre); [done|]. done.
    + intros k' Hl'. rewrite group_app, (Hnone k' Hl'), group_singleton.
      rewrite decide_False; [done|]. rewrite Hk. intros [= ->]. congruence.
    + intros c Hc. apply not_elem_of_app in Hc as [Hc Hcb].
      rewrite Hc'; [by apply Hframe|]. by intros ->.
    + intros k' a' Hl' f Hf. rewrite group_app, group_singleton.
      destruct (decide (k' = k)) as [->|Hne].
      * assert (a' = a) as -> by congruence.
        rewrite decide_True by done. rewrite first_nonempty_snoc.
        rewrite Hf' by done. unfold merged_value.
        rewrite (field_of_ext hc h b f (Hframe b Hb)).
        rewrite (Hval k a Hl f Hf).
        destruct (first_nonempty h f (group h k pre)) as [v|] eqn:Ev; simpl.
        -- by rewrite (first_nonempty_Some _ _ _ _ Ev).
        -- rewrite (first_nonempty_None _ _ _ a Ev).
           ++ simpl. by destruct (truthy (field_of h b f)).
           ++ by apply head_Some_elem_of, Hhead.
      * rewrite decide_False by (rewrite Hk; congruence).
        rewrite app_nil_r.
        destruct (head_group_inv _ _ _ _ (Hhead k' a' Hl')) as [_ Hka'].
        assert (a' <> a) as Hne' by (intros ->; congruence).
        etrans; [apply (field_of_ext _ hc a' f), (Hc' a' Hne') | by apply Hval].
  - (* the first record with this key *)
    injection Hstep as <- <-.
    split; [|split; [|split; [|split]]].
    + rewrite od_keys_set, decide_False by (by apply od_lookup_None).
      apply NoDup_app. split; [done|]. split; [|apply NoDup_singleton].
      intros x Hx Hx'. apply list_elem_of_singleton in Hx' as ->.
      by apply od_lookup_None in Hl.
    + intros k' a' Hl'. rewrite od_lookup_set in Hl'.
      rewrite group_app, group_singleton. case_decide as Hkk.
      * injection Hl' as <-. subst k'. rewrite (Hnone k Hl).
        by rewrite decide_True.
      * pose proof (Hhead k' a' Hl') as Hh.
        destruct (group h k' pre); [done|]. done.
    + intros k' Hl'. rewrite od_lookup_set in Hl'. case_decide as Hkk; [done|].
      rewrite group_app, (Hnone k' Hl'), group_singleton.
      rewrite decide_False; [done|]. rewrite Hk. congruence.
    + intros c Hc. apply not_elem_of_app in Hc as [Hc _]. by apply Hframe.
    + intros k' a' Hl' f Hf. rewrite od_lookup_set in Hl'.
      rewrite group_app, group_singleton. case_decide as Hkk.
      * injection Hl' as <-. subst k'. rewrite (Hnone k Hl).
        rewrite decide_True by done. simpl.
        rewrite (field_of_ext hc h b f (Hframe b Hb)).
        unfold first_nonempty. simpl.
        destruct (truthy (field_of h b f)) eqn:E.
        -- by rewrite filter_cons_True.
        -- rewrite filter_cons_False; [done|]. by rewrite E.
      * rewrite decide_False by (rewrite Hk; congruence).
        rewrite app_nil_r. by apply Hval.
Qed.

Lemma merge_loop_merged h l hc seen :
  NoDup (objects l) ->
  foldM merge_step l (h, []) = Ok (hc, seen) ->
  merged h (objects l) hc seen.
Proof.
  intros Hnd H.
  apply (foldM_invariant merge_step
           (fun pre st => merged h (objects pre) st.1 st.2) l (h, []) (hc, seen));
    [| |done].
  - split; [constructor|]. by repeat split.
  - intros pre paper post [h1 seen1] [h2 seen2] Hl Hm Hstep.
    cbn [fst snd] in *. rewrite objects_app.
    destruct paper as [b|].
    + apply (merged_step _ _ _ _ _ _ _ Hm); [|done].
      rewrite Hl, objects_app in Hnd. simpl in Hnd.
      apply NoDup_app in Hnd as (_ & Hdis & _). intros Hb.
      apply (Hdis b Hb). by left.
    + injection Hstep as <- <-. simpl. by rewrite app_nil_r.
Qed.

(** *** Fields that are not merged *)














End Merging.

(** * Further properties of the code *)

(** ** The result lists of the analysis *)

Section ResultLists.

Import Analyze.

Implicit Types (k : pystr) (data : json) (e : entry).

(** The key is listed by a seed entry under [relation], is not a seed key,
    and is recorded at least [kmin] times. *)
Definition qualifies (relation : string) (papers : list json) (kmin : Z)
    (k : pystr) : Prop :=
  k ∈ map fst (listing relation papers)
  /\ (k ∉ seed_key_set papers)
  /\ (kmin <= Z.of_nat (length (occurrences k (listing relation papers))))%Z.

Lemma analyze_citations_lists data k_cited k_citing cited citing :
  analyze_citations data k_cited k_citing = Ok (cited, citing) ->
  exists ridx cidx cited0 citing0,
    build_index "references" (papers_of data) = Ok ridx
    /\ select (seed_key_set (papers_of data)) k_cited ridx = Ok cited0
    /\ sort_entries cited0 = Ok cited
    /\ build_index "cited_by" (papers_of data) = Ok cidx
    /\ select (seed_key_set (papers_of data)) k_citing cidx = Ok citing0
    /\ sort_entries citing0 = Ok citing.
Proof.
  intros H. apply analyze_citations_inv in H
    as (st & ridx & cidx & cited0 & citing0
        & Hst & Hridx & Hcited0 & Hcited & Hcidx & Hciting0 & Hciting).
  rewrite (build_seed_index_keys _ _ Hst) in Hcited0, Hciting0.
  by exists ridx, cidx, cited0, citing0.
Qed.

(** The cited-result is exactly the set of keys outside the seed set that
    the reference lists of the seed entries with metadata hold at least
    [k_cited] times in all; the citing-result likewise, with the [cited_by]
    lists and [k_citing]. *)
Theorem results_characterized (data : json) (k_cited k_citing : Z)
    (cited citing : list entry) :
  analyze_citations data k_cited k_citing = Ok (cited, citing) ->
  forall k,
    (k ∈ map key cited <-> qualifies "references" (papers_of data) k_cited k)
    /\ (k ∈ map key citing <-> qualifies "cited_by" (papers_of data) k_citing k).
Proof.
  intros H k. apply analyze_citations_lists in H
    as (ridx & cidx & cited0 & citing0 & Hr & Hc0 & Hc & Hq & Hq0 & Hqs).
  split.
  - apply (proj2 (result_list _ _ _ _ _ _ Hr Hc0 Hc)).
  - apply (proj2 (result_list _ _ _ _ _ _ Hq Hq0 Hqs)).
Qed.

Lemma results_characterized_witness :
  exists cited citing,
    analyze_citations two_seeds_doc 2 1 = Ok (cited, citing)
    /\ map key cited = [lit "title:paper x"]
    /\ forall k,
        (k ∈ map key cited
         <-> qualifies "references" (papers_of two_seeds_doc) 2 k)
        /\ (k ∈ map key citing
            <-> qualifies "cited_by" (papers_of two_seeds_doc) 1 k).
Proof.
  eexists _, _. split; [vm_compute; reflexivity|].
  split; [vm_compute; reflexivity|].
  apply (results_characterized two_seeds_doc 2 1). vm_compute. reflexivity.
Defined.

Lemma entries_keys (l : list entry) (items : list (pystr * index_entry)) :
  Forall2 (fun e item => entry_of item e) l items ->
  map key l = map fst items.
Proof.
  induction 1 as [|e item l1 l2 (He & _) _ IH]; [done|].
  simpl. by rewrite He, IH.
Qed.

Lemma selected_keys_NoDup relation papers idx kmin l0 l :
  build_index relation papers = Ok idx ->
  select (seed_key_set papers) kmin idx = Ok l0 ->
  sort_entries l0 = Ok l ->
  NoDup (map key l).
Proof.
  intros Hidx Hsel Hsort.
  apply build_index_represents in Hidx as (Hnd & _ & _).
  apply select_inv in Hsel. apply sort_entries_perm in Hsort.
  rewrite Hsort, (entries_keys _ _ Hsel).
  eapply sublist_NoDup; [exact Hnd|].
  unfold od_keys. apply fmap_sublist, sublist_filter.
Qed.

(** No key appears twice in a result list. *)
Theorem result_keys_distinct (data : json) (k_cited k_citing : Z)
    (cited citing : list entry) :
  analyze_citations data k_cited k_citing = Ok (cited, citing) ->
  NoDup (map key cited) /\ NoDup (map key citing).
Proof.
  intros H. apply analyze_citations_lists in H
    as (ridx & cidx & cited0 & citing0 & Hr & Hc0 & Hc & Hq & Hq0 & Hqs).
  split; [exact (selected_keys_NoDup _ _ _ _ _ _ Hr Hc0 Hc)
         | exact (selected_keys_NoDup _ _ _ _ _ _ Hq Hq0 Hqs)].
Qed.

Lemma result_keys_distinct_witness :
  exists cited citing,
    analyze_citations preprint_and_published_doc 1 1 = Ok (cited, citing)
    /\ map key cited = [lit "title:paper x"]
    /\ NoDup (map key cited) /\ NoDup (map key citing).
Proof.
  eexists _, _. split; [vm_compute; reflexivity|].
  split; [vm_compute; reflexivity|].
  apply (result_keys_distinct preprint_and_published_doc 1 1).
  vm_compute. reflexivity.
Defined.

(** The count of an entry is the length of its list of seed papers; it
    reaches the threshold and is at least one. *)
Theorem result_counts (data : json) (k_cited k_citing : Z)
    (cited citing : list entry) :
  analyze_citations data k_cited k_citing = Ok (cited, citing) ->
  (forall e, e ∈ cited ->
     count e = length (seed_papers e)
     /\ (k_cited <= Z.of_nat (count e))%Z /\ (1 <= count e)%nat)
  /\ (forall e, e ∈ citing ->
        count e = length (seed_papers e)
        /\ (k_citing <= Z.of_nat (count e))%Z /\ (1 <= count e)%nat).
Proof.
  intros H. apply analyze_citations_lists in H
    as (ridx & cidx & cited0 & citing0 & Hr & Hc0 & Hc & Hq & Hq0 & Hqs).
  assert (forall relation papers kmin idx l0 l e,
            build_index relation papers = Ok idx ->
            select (seed_key_set papers) kmin idx = Ok l0 ->
            sort_entries l0 = Ok l -> e ∈ l ->
            count e = length (seed_papers e)
            /\ (kmin <= Z.of_nat (count e))%Z /\ (1 <= count e)%nat) as Hall.
  { intros relation papers kmin idx l0 l e Hi Hs Hso He.
    destruct (result_list _ _ _ _ _ _ Hi Hs Hso) as [Hent Hkeys].
    destruct (Hent e He) as (_ & _ & Hsp & Hcount & Hmin).
    split; [done|]. split; [done|].
    assert (key e ∈ map key l) as Hk by (apply list_elem_of_fmap; by exists e).
    apply Hkeys in Hk as (Hk & _ & _).
    rewrite Hcount, Hsp. unfold occurrences.
    apply list_elem_of_fmap in Hk as ([k' o] & Hk' & Hin). simpl in Hk'.
    assert ((k', o) ∈ filter (fun p : pystr * occurrence => p.1 = key e)
                         (listing relation papers)) as Hf.
    { apply list_elem_of_filter. by split. }
    rewrite length_map. destruct (filter _ _); [by apply elem_of_nil in Hf|].
    simpl. lia. }
  split; intros e He;
    [exact (Hall _ _ _ _ _ _ _ Hr Hc0 Hc He)
    | exact (Hall _ _ _ _ _ _ _ Hq Hq0 Hqs He)].
Qed.

Lemma result_counts_witness :
  exists cited citing,
    analyze_citations two_seeds_doc 2 1 = Ok (cited, citing)
    /\ map count cited = [2%nat] /\ map count citing = [1%nat]
    /\ (forall e, e ∈ cited ->
          count e = length (seed_papers e)
          /\ (2 <= Z.of_nat (count e))%Z /\ (1 <= count e)%nat)
    /\ (forall e, e ∈ citing ->
          count e = length (seed_papers e)
          /\ (1 <= Z.of_nat (count e))%Z /\ (1 <= count e)%nat).
Proof.
  eexists _, _. split; [vm_compute; reflexivity|].
  do 2 (split; [vm_compute; reflexivity|]).
  apply (result_counts two_seeds_doc 2 1). vm_compute. reflexivity.
Defined.

(** Raising a threshold can only remove keys from a result list. *)
Theorem thresholds_monotone (data : json) (k1 k1' k2 k2' : Z)
    (cited citing cited' citing' : list entry) :
  analyze_citations data k1 k2 = Ok (cited, citing) ->
  analyze_citations data k1' k2' = Ok (cited', citing') ->
  (k1 <= k1')%Z -> (k2 <= k2')%Z ->
  (forall k, k ∈ map key cited' -> k ∈ map key cited)
  /\ (forall k, k ∈ map key citing' -> k ∈ map key citing).
Proof.
  intros H H' Hk1 Hk2.
  apply analyze_citations_lists in H
    as (ridx & cidx & c0 & q0 & Hr & Hc0 & Hc & Hq & Hq0 & Hqs).
  apply analyze_citations_lists in H'
    as (ridx' & cidx' & c0' & q0' & Hr' & Hc0' & Hc' & Hq' & Hq0' & Hqs').
  split; intros k Hk.
  - apply (proj2 (result_list _ _ _ _ _ _ Hr Hc0 Hc)).
    apply (proj2 (result_list _ _ _ _ _ _ Hr' Hc0' Hc')) in Hk as (? & ? & ?).
    split; [done|]. split; [done|]. lia.
  - apply (proj2 (result_list _ _ _ _ _ _ Hq Hq0 Hqs)).
    apply (proj2 (result_list _ _ _ _ _ _ Hq' Hq0' Hqs')) in Hk as (? & ? & ?).
    split; [done|]. split; [done|]. lia.
Qed.

Lemma thresholds_monotone_witness :
  exists cited citing cited' citing',
    analyze_citations two_seeds_doc 1 1 = Ok (cited, citing)
    /\ analyze_citations two_seeds_doc 2 2 = Ok (cited', citing')
    /\ map key citing = [lit "title:paper c"] /\ citing' = []
    /\ (forall k, k ∈ map key cited' -> k ∈ map key cited)
    /\ (forall k, k ∈ map key citing' -> k ∈ map key citing).
Proof.
  eexists _, _, _, _. split; [vm_compute; reflexivity|].
  split; [vm_compute; reflexivity|].
  do 2 (split; [vm_compute; reflexivity|]).
  apply (thresholds_monotone two_seeds_doc 1 2 1 2);
    [vm_compute; reflexivity | vm_compute; reflexivity | lia | lia].
Defined.

(** *** Ranking *)

Definition has_text_title (e : entry) : Prop := exists t, title e = JStr t.

Definition title_text (e : entry) : pystr :=
  match title e with
  | JStr t => t
  | _ => []
  end.

(** [x] may stand before [y] in a sorted list: a larger count, or the same
    count and a title that is not after [y]'s. *)
Definition ranked (x y : entry) : Prop :=
  (count y < count x)%nat
  \/ (count x = count y /\ str_ltb (title_text y) (title_text x) = false).

Lemma str_ltb_irrefl (a : pystr) : str_ltb a a = false.
Proof.
  induction a as [|x a IH]; [done|]. simpl.
  by rewrite N.ltb_irrefl, N.eqb_refl, IH.
Qed.

Lemma str_ltb_asym (a b : pystr) : str_ltb a b = true -> str_ltb b a = false.
Proof.
  revert b. induction a as [|x a IH]; intros [|y b]; simpl; try done.
  rewrite orb_true_iff, andb_true_iff, N.ltb_lt, N.eqb_eq.
  intros [Hlt|[-> Hab]].
  - apply orb_false_iff. split; [by apply N.ltb_ge, N.lt_le_incl|].
    apply andb_false_iff. left. apply N.eqb_neq. lia.
  - by rewrite N.ltb_irrefl, N.eqb_refl, (IH _ Hab).
Qed.

(** The comparison of two sort keys whose titles are strings. *)
Lemma sort_key_lt_text x y :
  has_text_title x -> has_text_title y ->
  sort_key_lt x y
  = Ok ((count y <? count x)%nat
        || (count x =? count y)%nat && str_ltb (title_text x) (title_text y)).
Proof.
  intros [tx Hx] [ty Hy]. unfold sort_key_lt, title_text. rewrite Hx, Hy.
  destruct (Z.of_nat (count x) =? Z.of_nat (count y)) eqn:E; simpl.
  - apply Z.eqb_eq, Nat2Z.inj in E. rewrite E, Nat.ltb_irrefl, Nat.eqb_refl.
    simpl. destruct (str_eqb tx ty) eqn:Et; [|done].
    apply str_eqb_eq in Et as ->. by rewrite str_ltb_irrefl.
  - apply Z.eqb_neq in E. f_equal.
    assert ((count x =? count y)%nat = false) as -> by (apply Nat.eqb_neq; lia).
    rewrite andb_false_l, orb_false_r.
    destruct (count y <? count x)%nat eqn:El.
    + apply Nat.ltb_lt in El. apply Z.ltb_lt. lia.
    + apply Nat.ltb_ge in El. apply Z.ltb_ge. lia.
Qed.

Lemma sort_key_lt_true x y :
  has_text_title x -> has_text_title y ->
  sort_key_lt x y = Ok true -> ranked x y.
Proof.
  intros Hx Hy. rewrite sort_key_lt_text by done. intros [= H].
  apply orb_true_iff in H as [H|H].
  - left. by apply Nat.ltb_lt.
  - apply andb_true_iff in H as [Hc Ht]. right.
    split; [by apply Nat.eqb_eq|]. by apply str_ltb_asym.
Qed.

Lemma sort_key_lt_false x y :
  has_text_title x -> has_text_title y ->
  sort_key_lt x y = Ok false -> ranked y x.
Proof.
  intros Hx Hy. rewrite sort_key_lt_text by done. intros [= H].
  apply orb_false_iff in H as [Hlt H]. apply Nat.ltb_ge in Hlt.
  destruct (decide (count x = count y)) as [Heq|Hne].
  - right. split; [done|]. rewrite Heq, Nat.eqb_refl in H. done.
  - left. lia.
Qed.

Lemma sort_insert_sorted x sorted r :
  Sorted ranked sorted -> has_text_title x -> Forall has_text_title sorted ->
  sort_insert x sorted = Ok r ->
  Sorted ranked r
  /\ forall y, HdRel ranked y sorted -> ranked y x -> HdRel ranked y r.
Proof.
  intros Hs Hx. revert r.
  induction sorted as [|z sorted IH]; intros r Hall H; simpl in H.
  - injection H as <-. split; [by repeat constructor|]. by constructor.
  - apply Forall_cons in Hall as [Hz Hall].
    apply bind_Ok in H as (b & Hb & H). destruct b.
    + injection H as <-. split.
      * constructor; [done|]. constructor. by apply sort_key_lt_true.
      * intros y _ Hyx. by constructor.
    + apply bind_Ok in H as (r' & Hr' & [= <-]).
      apply Sorted_inv in Hs as [Hs Hhd].
      destruct (IH Hs r' Hall Hr') as [Hsr Hhdr]. split.
      * constructor; [done|]. apply Hhdr; [done|]. by apply sort_key_lt_false.
      * intros y Hy _. apply HdRel_inv in Hy. by constructor.
Qed.

Lemma sort_insert_total x sorted :
  has_text_title x -> Forall has_text_title sorted ->
  exists r, sort_insert x sorted = Ok r.
Proof.
  intros Hx. induction 1 as [|z sorted Hz _ [r IH]]; simpl; [by eexists|].
  rewrite sort_key_lt_text by done. simpl.
  destruct (_ || _); [by eexists|]. rewrite IH. by eexists.
Qed.

(** On entries whose titles are strings the sort returns, and its result
    is a reordering of the list by decreasing count, and by increasing
    title among equal counts. *)
Lemma sort_entries_sorted l :
  Forall has_text_title l ->
  exists l', sort_entries l = Ok l' /\ l' ≡ₚ l /\ Sorted ranked l'.
Proof.
  intros Hl. unfold sort_entries.
  enough (forall sorted, Sorted ranked sorted -> Forall has_text_title sorted ->
            exists l', foldM (fun sorted x => sort_insert x sorted) l sorted = Ok l'
                       /\ Sorted ranked l') as Hgen.
  { destruct (Hgen [] (Sorted_nil _) (Forall_nil_2 _)) as (l' & Hl' & Hs).
    exists l'. split; [done|]. split; [by apply sort_entries_perm | done]. }
  induction Hl as [|x l Hx Hl IH]; intros sorted Hs Hall; simpl.
  - by exists sorted.
  - destruct (sort_insert_total x sorted Hx Hall) as [r Hr]. rewrite Hr. simpl.
    apply IH.
    + by apply (sort_insert_sorted x sorted r).
    + apply sort_insert_perm in Hr. rewrite Hr. by constructor.
Qed.

(** When the titles of the entries of a result list are strings, the list
    is in order of decreasing count and, among equal counts, of
    increasing title (by code points). *)
Theorem results_ranked (data : json) (k_cited k_citing : Z)
    (cited citing : list entry) :
  analyze_citations data k_cited k_citing = Ok (cited, citing) ->
  Forall has_text_title (cited ++ citing) ->
  Sorted ranked cited /\ Sorted ranked citing.
Proof.
  intros H Hall. apply Forall_app in Hall as [Hall1 Hall2].
  apply analyze_citations_lists in H
    as (ridx & cidx & cited0 & citing0 & Hr & Hc0 & Hc & Hq & Hq0 & Hqs).
  split.
  - pose proof (sort_entries_perm _ _ Hc) as Hp. rewrite Hp in Hall1.
    destruct (sort_entries_sorted _ Hall1) as (l' & Hl' & _ & Hs). congruence.
  - pose proof (sort_entries_perm _ _ Hqs) as Hp. rewrite Hp in Hall2.
    destruct (sort_entries_sorted _ Hall2) as (l' & Hl' & _ & Hs). congruence.
Qed.

(** Seeds A and B list X; A alone lists W and V. *)
Definition ranking_doc : json :=
  document
    [seed_entry "10.1/a" (titled "Paper A")
       [titled "Paper W"; titled "Paper X"; titled "Paper V"] [];
     seed_entry "10.1/b" (titled "Paper B") [titled "Paper X"] []].

Lemma results_ranked_witness :
  exists cited citing,
    analyze_citations ranking_doc 1 1 = Ok (cited, citing)
    /\ map key cited
       = [lit "title:paper x"; lit "title:paper v"; lit "title:paper w"]
    /\ map count cited = [2%nat; 1%nat; 1%nat]
    /\ Forall has_text_title (cited ++ citing)
    /\ Sorted ranked cited /\ Sorted ranked citing.
Proof.
  eexists _, _. split; [vm_compute; reflexivity|].
  do 2 (split; [vm_compute; reflexivity|]).
  assert (forall A B : Prop, A -> (A -> B) -> A /\ B) as Hand by tauto.
  apply Hand.
  - repeat (apply Forall_cons; split; [eexists; reflexivity|]).
    apply Forall_nil_2.
  - apply (results_ranked ranking_doc 1 1). vm_compute. reflexivity.
Defined.

End ResultLists.

(** ** Documents at the edges *)

Section Documents.

Implicit Types (paper : json) (d pd : list (pystr * json)).

Lemma has_metadata_false_dict pd :
  has_metadata (JDict pd) = false ->
  exists m, py_get (JDict pd) "metadata" JNull = Ok m /\ truthy m = false.
Proof. unfold has_metadata. simpl. intros H. by eexists. Qed.

Lemma analyze_seed_step_no_metadata pd st :
  has_metadata (JDict pd) = false -> Analyze.seed_step st (JDict pd) = Ok st.
Proof.
  intros H. apply has_metadata_false_dict in H as (m & Hm & Ht).
  unfold Analyze.seed_step. destruct st. rewrite Hm. simpl. by rewrite Ht.
Qed.

Lemma analyze_paper_step_no_metadata relation pd idx :
  has_metadata (JDict pd) = false ->
  Analyze.paper_step relation idx (JDict pd) = Ok idx.
Proof.
  intros H. apply has_metadata_false_dict in H as (m & Hm & Ht).
  unfold Analyze.paper_step. rewrite Hm. simpl. by rewrite Ht.
Qed.

Lemma graph_seed_step_no_metadata pd sp :
  has_metadata (JDict pd) = false -> Visualize.seed_step sp (JDict pd) = Ok sp.
Proof.
  intros H. apply has_metadata_false_dict in H as (m & Hm & Ht).
  unfold Visualize.seed_step. rewrite Hm. simpl. by rewrite Ht.
Qed.

Lemma graph_paper_step_no_metadata pd st :
  has_metadata (JDict pd) = false -> Visualize.paper_step st (JDict pd) = Ok st.
Proof.
  intros H. apply has_metadata_false_dict in H as (m & Hm & Ht).
  unfold Visualize.paper_step. rewrite Hm. simpl. by rewrite Ht.
Qed.

(** A seed entry (a JSON object) whose metadata is missing, [null] or
    empty is ignored by both entry points: the results are those of the
    document without it. *)
Theorem entry_without_metadata_ignored d d' (pre post : list json) pd
    (k_cited k_citing : Z) :
  dict_lookup (lit "papers") d = Some (JList (pre ++ JDict pd :: post)) ->
  dict_lookup (lit "papers") d' = Some (JList (pre ++ post)) ->
  has_metadata (JDict pd) = false ->
  Analyze.analyze_citations (JDict d) k_cited k_citing
  = Analyze.analyze_citations (JDict d') k_cited k_citing
  /\ Visualize.analyze_for_graph (JDict d) k_cited k_citing
     = Visualize.analyze_for_graph (JDict d') k_cited k_citing.
Proof.
  intros Hd Hd' Hm. split.
  - unfold Analyze.analyze_citations, py_get. rewrite Hd, Hd'.
    cbn [default id mbind result_bind Py.bind py_iter].
    unfold Analyze.build_seed_index, Analyze.build_index.
    rewrite !(foldM_skip _ pre (JDict pd) post); [done|..];
      intros ?; first [by apply analyze_paper_step_no_metadata
                      | by apply analyze_seed_step_no_metadata].
  - unfold Visualize.analyze_for_graph, py_get. rewrite Hd, Hd'.
    cbn [default id mbind result_bind Py.bind py_iter].
    rewrite !(foldM_skip _ pre (JDict pd) post); [done|..];
      intros ?; first [by apply graph_paper_step_no_metadata
                      | by apply graph_seed_step_no_metadata].
Qed.

(** A seed entry with [null] metadata and a relation list. *)
Definition null_metadata_entry : list (pystr * json) :=
  [kv "input_doi" (jstr "10.1/n"); kv "metadata" JNull;
   kv "references" (JList [titled "Paper X"])].

Definition seed_a : json :=
  seed_entry "10.1/a" (titled "Paper A") [titled "Paper X"] [].

Lemma entry_without_metadata_ignored_witness :
  Analyze.analyze_citations
    (JDict [kv "papers" (JList ([seed_a] ++ JDict null_metadata_entry :: []))])
    1 1
  = Analyze.analyze_citations (JDict [kv "papers" (JList ([seed_a] ++ []))]) 1 1
  /\ Visualize.analyze_for_graph
       (JDict [kv "papers" (JList ([seed_a] ++ JDict null_metadata_entry :: []))])
       1 1
     = Visualize.analyze_for_graph
         (JDict [kv "papers" (JList ([seed_a] ++ []))]) 1 1.
Proof.
  apply (entry_without_metadata_ignored _ _ [seed_a] [] null_metadata_entry 1 1);
    reflexivity.
Defined.

(** A document that is not a JSON object is refused by both entry points
    before anything is computed; so is one whose ["papers"] is [null] or a
    number; a document without ["papers"], or with an empty list, gives
    empty results for all thresholds. *)
Theorem top_level_document (k_cited k_citing : Z) :
  (forall data, (forall d, data <> JDict d) ->
     Analyze.analyze_citations data k_cited k_citing = Raise AttributeError
     /\ Visualize.analyze_for_graph data k_cited k_citing = Raise AttributeError)
  /\ (forall d v,
        dict_lookup (lit "papers") d = Some v ->
        v = JNull \/ (exists b, v = JBool b) \/ (exists z, v = JNum z) ->
        Analyze.analyze_citations (JDict d) k_cited k_citing = Raise TypeError
        /\ Visualize.analyze_for_graph (JDict d) k_cited k_citing
           = Raise TypeError)
  /\ (forall d,
        dict_lookup (lit "papers") d = None
        \/ dict_lookup (lit "papers") d = Some (JList []) ->
        Analyze.analyze_citations (JDict d) k_cited k_citing = Ok ([], [])
        /\ Visualize.analyze_for_graph (JDict d) k_cited k_citing
           = Ok {| Visualize.seed_papers := []; Visualize.cited_papers := [];
                   Visualize.citing_papers := []; Visualize.edges := [] |}).
Proof.
  split; [|split].
  - intros data Hd. destruct data; try done. by destruct (Hd d).
  - intros d v Hv Hkind.
    unfold Analyze.analyze_citations, Visualize.analyze_for_graph, py_get.
    rewrite Hv. by destruct Hkind as [->|[[b ->]|[z ->]]].
  - intros d Hd.
    unfold Analyze.analyze_citations, Visualize.analyze_for_graph, py_get.
    by destruct Hd as [-> | ->].
Qed.

Lemma top_level_document_witness :
  (Analyze.analyze_citations (JList []) 2 2 = Raise AttributeError
   /\ Visualize.analyze_for_graph (JList []) 2 2 = Raise AttributeError)
  /\ (Analyze.analyze_citations (JDict [kv "papers" JNull]) 2 2 = Raise TypeError
      /\ Visualize.analyze_for_graph (JDict [kv "papers" JNull]) 2 2
         = Raise TypeError)
  /\ (Analyze.analyze_citations (JDict [kv "query_info" JNull]) 2 2 = Ok ([], [])
      /\ Visualize.analyze_for_graph (JDict [kv "query_info" JNull]) 2 2
         = Ok {| Visualize.seed_papers := []; Visualize.cited_papers := [];
                 Visualize.citing_papers := []; Visualize.edges := [] |}).
Proof.
  destruct (top_level_document 2 2) as (H1 & H2 & H3).
  split; [|split].
  - apply H1. by intros d.
  - apply (H2 _ JNull); [reflexivity | by left].
  - apply H3. by left.
Defined.

End Documents.

(** ** Display labels *)

Section Labels.

Import Analyze.

(** The metadata of a seed entry is empty, or an object whose title is
    missing, [null] or a string. *)
Definition labelled (paper : json) : bool :=
  match metadata_of paper with
  | JDict md => text_or_absent (dict_lookup (lit "title") md)
  | m => negb (truthy m)
  end.

(** The label of a seed entry is never empty and never longer than 60
    characters: it is the title of the metadata when that has at most 60
    characters, its first 57 characters followed by three dots when it has
    more, and ["Unknown"] when there is no title. *)
Theorem seed_label_bounded (pd : list (pystr * json)) :
  labelled (JDict pd) = true ->
  let t := field_text (metadata_of (JDict pd)) "title" in
  exists s,
    get_seed_paper_label (JDict pd) = Ok (JStr s)
    /\ (1 <= length s <= 60)%nat
    /\ (t = [] -> s = lit "Unknown")
    /\ (t <> [] -> (length t <= 60)%nat -> s = t)
    /\ ((60 < length t)%nat -> s = take 57 t ++ lit "...").
Proof.
  unfold labelled, get_seed_paper_label, metadata_of.
  cbn [py_get mbind result_bind Py.bind].
  generalize (from_option id JNull (dict_lookup (lit "metadata") pd)).
  intros m Hm.
  assert (Hunknown : exists s,
    Ok (JStr (lit "Unknown")) = Ok (JStr s)
    /\ (1 <= length s <= 60)%nat
    /\ (@nil N = [] -> s = lit "Unknown")
    /\ (@nil N <> [] -> (0 <= 60)%nat -> s = [])
    /\ ((60 < 0)%nat -> s = take 57 [] ++ lit "...")).
  { exists (lit "Unknown"). split; [done|]. split; [simpl; lia|].
    split; [done|]. split; [done | intros ?; lia]. }
  destruct m as [|b|z|x|l|md];
    try (apply negb_true_iff in Hm; rewrite Hm; exact Hunknown).
  cbn [field_text].
    assert (Hmd : py_get (if truthy (JDict md) then JDict md else JDict [])
                  "title" (JStr (lit "Unknown"))
                = Ok (from_option id (JStr (lit "Unknown"))
                        (dict_lookup (lit "title") md))).
  { by destruct md. }
  rewrite Hmd. cbn [mbind result_bind Py.bind].
  destruct (dict_lookup (lit "title") md) as [[| | |t| |]|];
    try discriminate Hm; try exact Hunknown.
  destruct t as [|c t]; [exact Hunknown|].
  cbn [from_option id truthy py_len mbind result_bind Py.bind].
  destruct (60 <? length (c :: t))%nat eqn:El.
  - apply Nat.ltb_lt in El. eexists. split; [done|].
    rewrite length_app, length_take.
    split; [simpl length in *; lia|]. split; [done|].
    split; [intros _ ?; lia | done].
  - apply Nat.ltb_ge in El. eexists. split; [done|].
    split; [simpl length in *; lia|]. split; [done|].
    split; [done | intros ?; lia].
Qed.

(** A seed entry whose title has 70 characters. *)
Definition long_titled_seed : list (pystr * json) :=
  [kv "input_doi" (jstr "10.1/l");
   kv "metadata" (JDict [(lit "title", JStr (repeat 97%N 70))])].

Lemma seed_label_bounded_witness :
  exists s,
    get_seed_paper_label (JDict long_titled_seed) = Ok (JStr s)
    /\ (1 <= length s <= 60)%nat
    /\ s = repeat 97%N 57 ++ lit "...".
Proof.
  destruct (seed_label_bounded long_titled_seed)
    as (s & Hs & Hlen & _ & _ & Hlong); [by vm_compute|].
  exists s. split; [exact Hs|]. split; [exact Hlen|].
  rewrite Hlong; [by vm_compute | vm_compute; lia].
Defined.

End Labels.

(** ** The node partitions and the edges of the graph *)

Section GraphNodes.

Import Visualize.

Implicit Types (k : pystr) (papers : list json) (g : graph).

(** The number of distinct seed keys that list [k] under [relation]. *)
Definition distinct_seeds (relation : string) papers k : nat :=
  length (remove_dups (contributors k (graph_listing relation papers))).

(** The key is listed under [relation] by a seed entry that has a key, is
    not a seed key itself, and is listed by at least [kmin] distinct seed
    keys. *)
Definition graph_qualifies (relation : string) papers (kmin : Z) k : Prop :=
  k ∈ map fst (graph_listing relation papers)
  /\ (k ∉ omap (seed_key get_paper_key) papers)
  /\ (kmin <= Z.of_nat (distinct_seeds relation papers k))%Z.

Lemma size_list_to_set_remove_dups (l : list pystr) :
  size (list_to_set (C := gset pystr) l) = length (remove_dups l).
Proof.
  rewrite <- (size_list_to_set (C := gset pystr) (remove_dups l))
    by apply NoDup_remove_dups.
  f_equal. apply set_eq. intros x.
  by rewrite !elem_of_list_to_set, elem_of_remove_dups.
Qed.

(** The keys and the counts of a partition, read off the listing. *)
Lemma graph_partition_nodes L idx sp (seeds : list pystr) kmin nodes :
  graph_represents L idx ->
  (forall k, k ∈ od_keys sp <-> k ∈ seeds) ->
  select sp kmin idx = Ok nodes ->
  NoDup (od_keys nodes)
  /\ (forall k, k ∈ od_keys nodes
        <-> k ∈ map fst L /\ (k ∉ seeds)
            /\ (kmin <= Z.of_nat (length (remove_dups (contributors k L))))%Z)
  /\ (forall k n, od_lookup k nodes = Some n ->
        key n = k
        /\ count n = Some (length (remove_dups (contributors k L)))).
Proof.
  intros (Hnd & Hkeys & Hdata) Hsp Hsel.
  apply graph_select_inv in Hsel as [Hnodes Hlook]; [|done].
  split; [|split].
  - rewrite Hnodes. eapply sublist_NoDup; [exact Hnd|].
    unfold od_keys. apply fmap_sublist, sublist_filter.
  - intros k. rewrite Hnodes. split.
    + intros Hin. apply list_elem_of_fmap in Hin as ([k' data] & -> & Hin).
      apply list_elem_of_filter in Hin as [[Hle Hns] Hin]. simpl in *.
      pose proof (od_elem_lookup _ _ _ Hnd Hin) as Hl.
      apply Hdata in Hl as [Hby _].
      rewrite Hby, size_list_to_set_remove_dups in Hle.
      split; [|split; [by rewrite <- Hsp | done]].
      apply Hkeys. unfold od_keys. apply list_elem_of_fmap.
      by exists (k', data).
    + intros (Hin & Hns & Hle). apply Hkeys in Hin.
      apply od_lookup_is_Some in Hin as [data Hl].
      apply list_elem_of_fmap. exists (k, data). split; [done|].
      apply list_elem_of_filter. split; [|by apply od_lookup_Some_elem].
      split; simpl; [|by rewrite Hsp].
      apply Hdata in Hl as [-> _]. by rewrite size_list_to_set_remove_dups.
  - intros k n Hl. apply Hlook in Hl as (Hk & data & Hin & Hc).
    split; [done|]. rewrite Hc.
    pose proof (od_elem_lookup _ _ _ Hnd Hin) as Hl.
    apply Hdata in Hl as [-> _]. by rewrite size_list_to_set_remove_dups.
Qed.

(** What a run of [analyze_for_graph] gives, in terms of the document. *)
Lemma analyze_for_graph_nodes data k_cited k_citing g :
  analyze_for_graph data k_cited k_citing = Ok g ->
  let papers := papers_of data in
  let seeds := omap (seed_key get_paper_key) papers in
  (NoDup (od_keys (seed_papers g))
   /\ forall k, k ∈ od_keys (seed_papers g) <-> k ∈ seeds)
  /\ (NoDup (od_keys (cited_papers g))
      /\ (forall k, k ∈ od_keys (cited_papers g)
            <-> graph_qualifies "references" papers k_cited k)
      /\ (forall k n, od_lookup k (cited_papers g) = Some n ->
            key n = k /\ count n = Some (distinct_seeds "references" papers k)))
  /\ (NoDup (od_keys (citing_papers g))
      /\ (forall k, k ∈ od_keys (citing_papers g)
            <-> graph_qualifies "cited_by" papers k_citing k)
      /\ (forall k n, od_lookup k (citing_papers g) = Some n ->
            key n = k /\ count n = Some (distinct_seeds "cited_by" papers k)))
  /\ edges g
     = remove_dups (filter (relevant g) (graph_edges papers)).
Proof.
  intros H papers seeds.
  apply analyze_for_graph_inv in H as (st & Hseed & Hst & Hcited & Hciting & He).
  apply seed_nodes_keys in Hseed as [Hnd Hseeds].
  apply paper_loop_invariant in Hst as (Hr & Hc & Hall).
  split; [done|].
  split; [exact (graph_partition_nodes _ _ _ _ _ _ Hr Hseeds Hcited)|].
  split; [exact (graph_partition_nodes _ _ _ _ _ _ Hc Hseeds Hciting)|].
  by rewrite He, Hall.
Qed.

(** The nodes of the graph: the seed partition holds the seed keys of the
    document; the cited partition holds the keys outside the seed set that
    at least [k_cited] distinct seed keys list among their references, the
    citing partition likewise with the [cited_by] lists and [k_citing];
    no key appears twice in a partition, and no seed key is in the cited
    or the citing partition. *)
Theorem graph_nodes_characterized (data : json) (k_cited k_citing : Z) g :
  analyze_for_graph data k_cited k_citing = Ok g ->
  (NoDup (od_keys (seed_papers g))
   /\ NoDup (od_keys (cited_papers g))
   /\ NoDup (od_keys (citing_papers g)))
  /\ (forall k,
        (k ∈ od_keys (seed_papers g)
           <-> k ∈ omap (seed_key get_paper_key) (papers_of data))
        /\ (k ∈ od_keys (cited_papers g)
           <-> graph_qualifies "references" (papers_of data) k_cited k)
        /\ (k ∈ od_keys (citing_papers g)
           <-> graph_qualifies "cited_by" (papers_of data) k_citing k))
  /\ (forall k, k ∈ od_keys (seed_papers g) ->
        (k ∉ od_keys (cited_papers g)) /\ (k ∉ od_keys (citing_papers g))).
Proof.
  intros H. apply analyze_for_graph_nodes in H
    as ([Hnd Hs] & (Hndr & Hr & _) & (Hndc & Hc & _) & _).
  split; [done|]. split; [done|].
  intros k Hk. apply Hs in Hk.
  split; intros Hin; [apply Hr in Hin | apply Hc in Hin];
    by destruct Hin as (_ & Hns & _).
Qed.

Lemma graph_nodes_characterized_witness :
  exists g,
    analyze_for_graph two_seeds_doc 2 1 = Ok g
    /\ od_keys (seed_papers g) = [lit "title:paper a"; lit "title:paper b"]
    /\ od_keys (cited_papers g) = [lit "title:paper x"]
    /\ od_keys (citing_papers g) = [lit "title:paper c"]
    /\ (forall k, k ∈ od_keys (cited_papers g)
          <-> graph_qualifies "references" (papers_of two_seeds_doc) 2 k)
    /\ (forall k, k ∈ od_keys (seed_papers g) ->
          (k ∉ od_keys (cited_papers g)) /\ (k ∉ od_keys (citing_papers g))).
Proof.
  eexists. split; [vm_compute; reflexivity|].
  do 3 (split; [vm_compute; reflexivity|]).
  destruct (graph_nodes_characterized two_seeds_doc 2 1 _ eq_refl)
    as (_ & Hk & Hs).
  split; [intros k; apply (Hk k) | exact Hs].
Defined.

(** The count of a node of the cited or the citing partition is the number
    of distinct seed keys that list its key, however often each lists it;
    it reaches the threshold and never exceeds the number of seed nodes. *)
Theorem graph_counts_distinct_seeds (data : json) (k_cited k_citing : Z) g :
  analyze_for_graph data k_cited k_citing = Ok g ->
  (forall k n, od_lookup k (cited_papers g) = Some n ->
     key n = k
     /\ count n = Some (distinct_seeds "references" (papers_of data) k)
     /\ (k_cited <= Z.of_nat (distinct_seeds "references" (papers_of data) k))%Z
     /\ (distinct_seeds "references" (papers_of data) k
         <= length (od_keys (seed_papers g)))%nat)
  /\ (forall k n, od_lookup k (citing_papers g) = Some n ->
     key n = k
     /\ count n = Some (distinct_seeds "cited_by" (papers_of data) k)
     /\ (k_citing <= Z.of_nat (distinct_seeds "cited_by" (papers_of data) k))%Z
     /\ (distinct_seeds "cited_by" (papers_of data) k
         <= length (od_keys (seed_papers g)))%nat).
Proof.
  intros H. apply analyze_for_graph_nodes in H
    as ([Hnd Hs] & (_ & Hr & Hrn) & (_ & Hc & Hcn) & _).
  assert (Hbound : forall relation k,
    (distinct_seeds relation (papers_of data) k
     <= length (od_keys (seed_papers g)))%nat).
  { intros relation k. unfold distinct_seeds.
    apply submseteq_length, NoDup_submseteq; [apply NoDup_remove_dups|].
    intros s Hin. rewrite elem_of_remove_dups in Hin.
    apply Hs. by eapply contributors_seed. }
  split; intros k n Hl.
  - destruct (Hrn k n Hl) as [Hk Hn]. split; [done|]. split; [done|].
    split; [|apply Hbound].
    assert (k ∈ od_keys (cited_papers g)) as Hin
      by (apply od_lookup_is_Some; by exists n).
    apply Hr in Hin. by destruct Hin as (_ & _ & ?).
  - destruct (Hcn k n Hl) as [Hk Hn]. split; [done|]. split; [done|].
    split; [|apply Hbound].
    assert (k ∈ od_keys (citing_papers g)) as Hin
      by (apply od_lookup_is_Some; by exists n).
    apply Hc in Hin. by destruct Hin as (_ & _ & ?).
Qed.

Lemma graph_counts_distinct_seeds_witness :
  exists g n,
    analyze_for_graph twice_listed_doc 1 1 = Ok g
    /\ od_lookup (lit "title:paper x") (cited_papers g) = Some n
    /\ length (related_keys get_paper_key "references"
                 (seed_entry "10.1/a" (titled "Paper A")
                    [titled "Paper X"; titled "Paper X"] [])) = 2%nat
    /\ count n = Some 1%nat
    /\ count n
       = Some (distinct_seeds "references" (papers_of twice_listed_doc)
                 (lit "title:paper x")).
Proof.
  eexists _, _. split; [vm_compute; reflexivity|].
  split; [vm_compute; reflexivity|].
  do 2 (split; [vm_compute; reflexivity|]).
  destruct (graph_counts_distinct_seeds twice_listed_doc 1 1 _ eq_refl)
    as [Hr _].
  refine (proj1 (proj2 (Hr (lit "title:paper x") _ _))).
  vm_compute. reflexivity.
Defined.

(** The edge list in terms of the document. *)
Lemma analyze_for_graph_edges data k_cited k_citing g :
  analyze_for_graph data k_cited k_citing = Ok g ->
  forall src tgt etype,
    (src, tgt, etype) ∈ edges g
    <-> etype = cites
        /\ src ∈ node_keys g /\ tgt ∈ node_keys g
        /\ ((tgt, src) ∈ graph_listing "references" (papers_of data)
            \/ (src, tgt) ∈ graph_listing "cited_by" (papers_of data)).
Proof.
  intros H. apply analyze_for_graph_nodes in H as (_ & _ & _ & He).
  assert (Hedge : forall src tgt etype,
    (src, tgt, etype) ∈ graph_edges (papers_of data)
    <-> etype = cites
        /\ ((tgt, src) ∈ graph_listing "references" (papers_of data)
            \/ (src, tgt) ∈ graph_listing "cited_by" (papers_of data))).
  { intros src tgt etype. unfold graph_edges, graph_listing, paper_edges.
    rewrite !elem_of_flat_map. split.
    - intros (paper & Hin & Hp).
      destruct (seed_key get_paper_key paper) as [s|] eqn:Es;
        [|by apply elem_of_nil in Hp].
      apply elem_of_app in Hp as [Hp|Hp];
        apply list_elem_of_fmap in Hp as (k & [= -> -> ->] & Hk);
        (split; [done|]); [left | right];
        exists paper; rewrite Es;
        (split; [done|]); apply list_elem_of_fmap; by exists k.
    - intros [-> [(paper & Hin & Hp)|(paper & Hin & Hp)]];
        exists paper; (split; [done|]);
        (destruct (seed_key get_paper_key paper) as [s|] eqn:Es;
           [|by apply elem_of_nil in Hp]);
        apply list_elem_of_fmap in Hp as (k & [= -> ->] & Hk);
        apply elem_of_app; [left | right];
        apply list_elem_of_fmap; by exists k. }
  assert (Hrel : forall src tgt etype,
    relevant g (src, tgt, etype) <-> src ∈ node_keys g /\ tgt ∈ node_keys g).
  { intros src tgt etype. unfold relevant, node_keys. simpl.
    rewrite !elem_of_union, !elem_of_list_to_set, !elem_of_app. tauto. }
  intros src tgt etype.
  rewrite He, elem_of_remove_dups, list_elem_of_filter, Hrel, Hedge. tauto.
Qed.

(** The edges of the graph: there is an edge from [src] to [tgt] exactly
    when both are keys of nodes and either the seed key [src] lists [tgt]
    among its references or the seed key [tgt] lists [src] among the
    papers citing it; every edge is tagged ["cites"], has a seed node at
    one end at least, and appears once. *)
Theorem graph_edges_characterized (data : json) (k_cited k_citing : Z) g :
  analyze_for_graph data k_cited k_citing = Ok g ->
  NoDup (edges g)
  /\ (forall src tgt etype,
        (src, tgt, etype) ∈ edges g
        <-> etype = cites
            /\ src ∈ node_keys g /\ tgt ∈ node_keys g
            /\ ((tgt, src) ∈ graph_listing "references" (papers_of data)
                \/ (src, tgt) ∈ graph_listing "cited_by" (papers_of data)))
  /\ (forall src tgt etype,
        (src, tgt, etype) ∈ edges g ->
        src ∈ od_keys (seed_papers g) \/ tgt ∈ od_keys (seed_papers g)).
Proof.
  intros H. pose proof (analyze_for_graph_edges _ _ _ _ H) as Hchar.
  apply analyze_for_graph_nodes in H as ([_ Hs] & _ & _ & He).
  split; [rewrite He; apply NoDup_remove_dups|]. split; [exact Hchar|].
  intros src tgt etype Hin. apply Hchar in Hin as (_ & _ & _ & [Hp|Hp]).
  - left. apply Hs. eapply (contributors_seed "references" _ tgt).
    unfold contributors. apply list_elem_of_fmap. exists (tgt, src).
    split; [done|]. by apply list_elem_of_filter.
  - right. apply Hs. eapply (contributors_seed "cited_by" _ src).
    unfold contributors. apply list_elem_of_fmap. exists (src, tgt).
    split; [done|]. by apply list_elem_of_filter.
Qed.

Lemma graph_edges_characterized_witness :
  exists g,
    analyze_for_graph two_seeds_doc 2 2 = Ok g
    /\ edges g
       = [ (lit "title:paper a", lit "title:paper x", lit "cites");
           (lit "title:paper b", lit "title:paper x", lit "cites") ]
    /\ NoDup (edges g)
    /\ (forall src tgt etype,
          (src, tgt, etype) ∈ edges g ->
          src ∈ od_keys (seed_papers g) \/ tgt ∈ od_keys (seed_papers g)).
Proof.
  eexists. split; [vm_compute; reflexivity|].
  split; [vm_compute; reflexivity|].
  destruct (graph_edges_characterized two_seeds_doc 2 2 _ eq_refl)
    as (Hnd & _ & Hs).
  split; [exact Hnd | exact Hs].
Defined.

(** Raising the thresholds can only remove nodes and edges from the graph:
    the seed partition stays as it is, the cited and the citing partition
    and the edges lose members at most. *)
Theorem graph_thresholds_monotone (data : json) (k1 k1' k2 k2' : Z) g g' :
  analyze_for_graph data k1 k2 = Ok g ->
  analyze_for_graph data k1' k2' = Ok g' ->
  (k1 <= k1')%Z -> (k2 <= k2')%Z ->
  od_keys (seed_papers g') = od_keys (seed_papers g)
  /\ (forall k, k ∈ od_keys (cited_papers g') -> k ∈ od_keys (cited_papers g))
  /\ (forall k, k ∈ od_keys (citing_papers g') -> k ∈ od_keys (citing_papers g))
  /\ (forall e, e ∈ edges g' -> e ∈ edges g).
Proof.
  intros H H' Hk1 Hk2.
  pose proof (analyze_for_graph_nodes _ _ _ _ H)
    as (_ & (_ & Hr & _) & (_ & Hc & _) & _).
  pose proof (analyze_for_graph_nodes _ _ _ _ H')
    as (_ & (_ & Hr' & _) & (_ & Hc' & _) & _).
  assert (Hcited : forall k,
    k ∈ od_keys (cited_papers g') -> k ∈ od_keys (cited_papers g)).
  { intros k Hk. apply Hr. apply Hr' in Hk. destruct Hk as (? & ? & ?).
    split; [done|]. split; [done|]. lia. }
  assert (Hciting : forall k,
    k ∈ od_keys (citing_papers g') -> k ∈ od_keys (citing_papers g)).
  { intros k Hk. apply Hc. apply Hc' in Hk. destruct Hk as (? & ? & ?).
    split; [done|]. split; [done|]. lia. }
  assert (Hseeds : od_keys (seed_papers g') = od_keys (seed_papers g)).
  { apply analyze_for_graph_inv in H as (_ & Hs & _).
    apply analyze_for_graph_inv in H' as (_ & Hs' & _).
    rewrite Hs in Hs'. by injection Hs' as ->. }
  split; [done|]. split; [done|]. split; [done|].
  assert (Hnodes : forall k, k ∈ node_keys g' -> k ∈ node_keys g).
  { intros k. unfold node_keys. rewrite Hseeds, !elem_of_app.
    intros [?|[?|?]]; auto. }
  pose proof (analyze_for_graph_edges _ _ _ _ H) as He.
  pose proof (analyze_for_graph_edges _ _ _ _ H') as He'.
  intros [[src tgt] etype] Hin. apply He. apply He' in Hin as (? & ? & ? & ?).
  auto.
Qed.

Lemma graph_thresholds_monotone_witness :
  exists g g',
    analyze_for_graph two_seeds_doc 1 1 = Ok g
    /\ analyze_for_graph two_seeds_doc 2 2 = Ok g'
    /\ od_keys (citing_papers g) = [lit "title:paper c"]
    /\ od_keys (citing_papers g') = []
    /\ length (edges g) = 3%nat /\ length (edges g') = 2%nat
    /\ (forall k, k ∈ od_keys (cited_papers g') -> k ∈ od_keys (cited_papers g))
    /\ (forall e, e ∈ edges g' -> e ∈ edges g).
Proof.
  eexists _, _. split; [vm_compute; reflexivity|].
  split; [vm_compute; reflexivity|].
  do 4 (split; [vm_compute; reflexivity|]).
  destruct (graph_thresholds_monotone two_seeds_doc 1 2 1 2 _ _ eq_refl eq_refl)
    as (_ & Hc & _ & He); [lia | lia |].
  split; [exact Hc | exact He].
Defined.

End GraphNodes.

(** ** What merging returns *)

Section MergeResult.

Import Fetch.

Implicit Types (h hc : store) (a b : loc) (k : pystr) (seen : odict loc).

(** The key as a function of the three fields it reads. *)
Definition key_of_fields (d x t : json) (paper : loc) : result pystr :=
  if truthy d then l ← py_lower d; Ok (lit "doi:" ++ l)
  else if truthy x then l ← py_lower x; Ok (lit "arxiv:" ++ l)
  else if truthy t then l ← py_lower t; Ok (lit "title:" ++ take 100 l)
  else Ok (lit "unknown:" ++ lit (pretty paper)).

Lemma get_paper_key_fields h a :
  get_paper_key h a
  = key_of_fields (field_of h a "doi") (field_of h a "arxiv_id")
      (field_of h a "title") a.
Proof.
  unfold get_paper_key, key_of_fields, field_of, py_get, py_item.
  cbn [mbind result_bind Py.bind].
  destruct (dict_lookup (lit "doi") (h a)) as [d|]; simpl.
  - destruct (truthy d); [done|].
    destruct (dict_lookup (lit "arxiv_id") (h a)) as [x|]; simpl.
    + destruct (truthy x); [done|].
      destruct (dict_lookup (lit "title") (h a)) as [t|]; simpl; [|done].
      by destruct (truthy t).
    + destruct (dict_lookup (lit "title") (h a)) as [t|]; simpl; [|done].
      by destruct (truthy t).
  - destruct (dict_lookup (lit "arxiv_id") (h a)) as [x|]; simpl.
    + destruct (truthy x); [done|].
      destruct (dict_lookup (lit "title") (h a)) as [t|]; simpl; [|done].
      by destruct (truthy t).
    + destruct (dict_lookup (lit "title") (h a)) as [t|]; simpl; [|done].
      by destruct (truthy t).
Qed.

(** The first character of a key tells the field it was built from. *)
Definition key_tag (d x t : json) : N :=
  if truthy d then 100 else if truthy x then 97
  else if truthy t then 116 else 117.

Lemma key_of_fields_head d x t a k :
  key_of_fields d x t a = Ok k -> head k = Some (key_tag d x t).
Proof.
  unfold key_of_fields, key_tag.
  destruct (truthy d); [|destruct (truthy x); [|destruct (truthy t)]];
    intros H; try (apply bind_Ok in H as (l & _ & H)); by injection H as <-.
Qed.

Lemma first_nonempty_all_empty h (f : string) grp :
  (forall b, b ∈ grp -> truthy (field_of h b f) = false) ->
  first_nonempty h f grp = None.
Proof.
  intros H. destruct (first_nonempty h f grp) as [v|] eqn:E; [|done].
  pose proof (first_nonempty_Some _ _ _ _ E) as Hv.
  unfold first_nonempty in E. apply head_Some_elem_of in E.
  apply list_elem_of_filter in E as [_ E].
  apply list_elem_of_fmap in E as (b & -> & Hb). rewrite (H b Hb) in Hv. done.
Qed.

(** The record kept for a key still has that key after the records merged
    into it. *)
Lemma merged_key_stable h pre hc seen k a :
  merged h pre hc seen -> od_lookup k seen = Some a ->
  get_paper_key h a = Ok k /\ get_paper_key hc a = Ok k.
Proof.
  intros (_ & Hhead & _ & _ & Hval) Hl.
  pose proof (Hhead k a Hl) as Hh.
  destruct (head_group_inv _ _ _ _ Hh) as [_ Hka]. split; [done|].
  pose proof (Hval k a Hl) as Hv.
  assert (Htag : forall b, b ∈ group h k pre ->
    key_tag (field_of h b "doi") (field_of h b "arxiv_id") (field_of h b "title")
    = key_tag (field_of h a "doi") (field_of h a "arxiv_id")
        (field_of h a "title")).
  { intros b Hb. apply list_elem_of_filter in Hb as [Hkb _].
    rewrite get_paper_key_fields in Hkb. apply key_of_fields_head in Hkb.
    pose proof Hka as Hka'. rewrite get_paper_key_fields in Hka'.
    apply key_of_fields_head in Hka'. congruence. }
  assert (Hkeep : forall f, f ∈ merged_fields ->
    truthy (field_of h a f) = true -> field_of hc a f = field_of h a f).
  { intros f Hf Ht. by rewrite (Hv f Hf), (first_nonempty_head _ _ _ _ Hh Ht). }
  assert (Hempty : forall f, f ∈ merged_fields ->
    (forall b, b ∈ group h k pre -> truthy (field_of h b f) = false) ->
    field_of hc a f = field_of h a f).
  { intros f Hf He. by rewrite (Hv f Hf), (first_nonempty_all_empty _ _ _ He). }
  assert (Hdoi : ("doi" : string) ∈ merged_fields) by (by vm_compute; left).
  assert (Harxiv : ("arxiv_id" : string) ∈ merged_fields)
    by (vm_compute; right; by left).
  assert (Htitle : ("title" : string) ∈ merged_fields)
    by (vm_compute; right; right; by left).
  rewrite get_paper_key_fields. rewrite get_paper_key_fields in Hka.
  rewrite <- Hka. unfold key_tag in Htag.
  destruct (truthy (field_of h a "doi")) eqn:Ed.
  { unfold key_of_fields. rewrite (Hkeep _ Hdoi Ed). by rewrite Ed. }
  assert (field_of hc a "doi" = field_of h a "doi") as ->.
  { apply (Hempty _ Hdoi). intros b Hb. specialize (Htag b Hb).
    destruct (truthy (field_of h b "doi")); [|done].
    by destruct (truthy (field_of h a "arxiv_id")),
                (truthy (field_of h a "title")). }
  destruct (truthy (field_of h a "arxiv_id")) eqn:Ex.
  { unfold key_of_fields. rewrite (Hkeep _ Harxiv Ex). by rewrite Ed, Ex. }
  assert (field_of hc a "arxiv_id" = field_of h a "arxiv_id") as ->.
  { apply (Hempty _ Harxiv). intros b Hb. specialize (Htag b Hb).
    by destruct (truthy (field_of h b "doi")),
                (truthy (field_of h b "arxiv_id")),
                (truthy (field_of h a "title")). }
  destruct (truthy (field_of h a "title")) eqn:Et.
  { unfold key_of_fields. rewrite (Hkeep _ Htitle Et). by rewrite Ed, Ex, Et. }
  assert (field_of hc a "title" = field_of h a "title") as ->; [|done].
  apply (Hempty _ Htitle). intros b Hb. specialize (Htag b Hb).
  destruct (truthy (field_of h b "doi")); [done|].
  destruct (truthy (field_of h b "arxiv_id")); [done|].
  by destruct (truthy (field_of h b "title")).
Qed.

(** The loop of [merge_paper_lists] keeps the records in the order in
    which their keys first appear, and has found a key for every record
    it went through. *)
Lemma merge_loop_order h l hc seen :
  NoDup (objects l) ->
  foldM merge_step l (h, []) = Ok (hc, seen) ->
  sublist (od_values seen) (objects l)
  /\ forall b, b ∈ objects l ->
       exists k a, get_paper_key h b = Ok k /\ od_lookup k seen = Some a.
Proof.
  intros Hnd H.
  apply (foldM_invariant merge_step
           (fun pre st =>
              merged h (objects pre) st.1 st.2
              /\ sublist (od_values st.2) (objects pre)
              /\ forall b, b ∈ objects pre ->
                   exists k a, get_paper_key h b = Ok k
                               /\ od_lookup k st.2 = Some a)
           l (h, []) (hc, seen)); [| |done].
  - split; [|split; [done|]].
    + split; [constructor|]. by repeat split.
    + intros b Hb. by apply elem_of_nil in Hb.
  - intros pre paper post [h1 seen1] [h2 seen2] Hl (Hm & Hsub & Hcov) Hstep.
    cbn [fst snd] in *. rewrite objects_app.
    destruct paper as [b|].
    + assert (b ∉ objects pre) as Hb.
      { rewrite Hl, objects_app in Hnd. simpl in Hnd.
        apply NoDup_app in Hnd as (_ & Hdis & _). intros Hin.
        apply (Hdis b Hin). by left. }
      split; [exact (merged_step _ _ _ _ _ _ _ Hm Hb Hstep)|].
      destruct Hm as (_ & _ & _ & Hframe & _).
      unfold merge_step in Hstep. apply bind_Ok in Hstep as (k & Hk & Hstep).
      rewrite (get_paper_key_ext h1 h b (Hframe b Hb)) in Hk.
      simpl. destruct (od_lookup k seen1) as [a|] eqn:Hlk.
      * injection Hstep as <- <-. split.
        -- by apply sublist_inserts_r.
        -- intros c Hc. apply elem_of_app in Hc as [Hc|Hc]; [by apply Hcov|].
           apply list_elem_of_singleton in Hc as ->. by exists k, a.
      * injection Hstep as <- <-. rewrite (od_set_absent _ _ _ Hlk). split.
        -- unfold od_values. rewrite map_app. simpl. by apply sublist_app.
        -- intros c Hc. apply elem_of_app in Hc as [Hc|Hc].
           ++ destruct (Hcov c Hc) as (k' & a' & Hk' & Hl').
              exists k', a'. split; [done|]. rewrite od_lookup_app, Hl'. done.
           ++ apply list_elem_of_singleton in Hc as ->. exists k, b.
              split; [done|]. rewrite od_lookup_app, Hlk. simpl.
              by rewrite str_eqb_refl.
    + injection Hstep as <- <-. simpl. rewrite app_nil_r. done.
Qed.

(** Merging removes duplicates: when the records of the two lists are
    distinct objects, the returned records are records of the input, in
    the order of their first appearance and each once; each has after the
    merge the key it had before; no two of them have the same key; and
    every input record has the key of a returned record. *)
Theorem merge_deduplicates (h h' : store) (list1 list2 : list (option loc))
    (out : list loc) :
  NoDup (objects (list1 ++ list2)) ->
  merge_paper_lists h list1 list2 = Ok (h', out) ->
  NoDup out
  /\ sublist out (objects (list1 ++ list2))
  /\ (forall a, a ∈ out ->
        exists k, get_paper_key h a = Ok k /\ get_paper_key h' a = Ok k)
  /\ (forall a b, a ∈ out -> b ∈ out ->
        get_paper_key h' a = get_paper_key h' b -> a = b)
  /\ (forall b, b ∈ objects (list1 ++ list2) ->
        exists a k, a ∈ out /\ get_paper_key h b = Ok k
                    /\ get_paper_key h' a = Ok k).
Proof.
  intros Hnd H. unfold merge_paper_lists in H.
  apply bind_Ok in H as ([hc seen] & H & [= <- <-]). cbn [fst snd] in *.
  pose proof (merge_loop_order _ _ _ _ Hnd H) as [Hsub Hcov].
  apply merge_loop_merged in H; [|done].
  pose proof H as (Hkeys & _).
  assert (Hout : forall a, a ∈ od_values seen ->
            exists k, od_lookup k seen = Some a).
  { intros a Ha. unfold od_values in Ha.
    apply list_elem_of_fmap in Ha as ([k a'] & -> & Hin).
    exists k. by apply od_elem_lookup. }
  split; [by eapply sublist_NoDup|]. split; [done|]. split; [|split].
  - intros a Ha. destruct (Hout a Ha) as (k & Hl). exists k.
    by apply (merged_key_stable _ _ _ _ _ _ H).
  - intros a b Ha Hb Heq.
    destruct (Hout a Ha) as (k & Hl). destruct (Hout b Hb) as (k' & Hl').
    destruct (merged_key_stable _ _ _ _ _ _ H Hl) as [_ Hk].
    destruct (merged_key_stable _ _ _ _ _ _ H Hl') as [_ Hk'].
    assert (k = k') as <- by congruence. congruence.
  - intros b Hb. destruct (Hcov b Hb) as (k & a & Hk & Hl).
    exists a, k. split; [|split; [done|]].
    + unfold od_values. apply list_elem_of_fmap. exists (k, a).
      split; [done | by apply od_lookup_Some_elem].
    + by apply (merged_key_stable _ _ _ _ _ _ H).
Qed.

(** Four records from two providers: the first and the third have the
    same DOI, the second and the fourth have no identifier. *)
Definition four_records : store :=
  fun a =>
    match a with
    | 0%nat => [kv "doi" (jstr "10.1/x"); kv "title" (jstr "T");
                kv "source" (jstr "openalex")]
    | 1%nat => [kv "doi" (jstr ""); kv "title" (jstr "");
                kv "source" (jstr "openalex")]
    | 2%nat => [kv "doi" (jstr "10.1/X"); kv "arxiv_id" (jstr "2201.05125");
                kv "title" (jstr "T"); kv "source" (jstr "semantic_scholar")]
    | 3%nat => [kv "title" JNull; kv "source" (jstr "semantic_scholar")]
    | _ => []
    end.

Lemma merge_deduplicates_witness :
  exists h' out,
    merge_paper_lists four_records [Some 0; Some 1]%nat [Some 2; None; Some 3]%nat
    = Ok (h', out)
    /\ out = [0; 1; 3]%nat
    /\ get_paper_key h' 0%nat = Ok (lit "doi:10.1/x")
    /\ get_paper_key h' 1%nat = Ok (lit "unknown:1")
    /\ NoDup out
    /\ sublist out (objects ([Some 0; Some 1] ++ [Some 2; None; Some 3]))%nat
    /\ (forall a, a ∈ out ->
          exists k, get_paper_key four_records a = Ok k
                    /\ get_paper_key h' a = Ok k)
    /\ (forall a b, a ∈ out -> b ∈ out ->
          get_paper_key h' a = get_paper_key h' b -> a = b)
    /\ (forall b, b ∈ objects ([Some 0; Some 1] ++ [Some 2; None; Some 3])%nat ->
          exists a k, a ∈ out /\ get_paper_key four_records b = Ok k
                      /\ get_paper_key h' a = Ok k).
Proof.
  eexists _, _. split; [vm_compute; reflexivity|].
  do 3 (split; [vm_compute; reflexivity|]).
  apply (merge_deduplicates four_records _
           [Some 0; Some 1]%nat [Some 2; None; Some 3]%nat).
  - apply (bool_decide_unpack _). by vm_compute.
  - vm_compute. reflexivity.
Defined.

End MergeResult.

(** ** Keys of the analysis *)

Section AnalysisKeys.

Import Analyze.

Implicit Types (t p w : pystr) (paper : json).

(** A normalized title is in normal form: at most 150 characters, no
    upper-case letter of the modelled range, none of the replaced
    punctuation strings, and words separated by single spaces, with one
    space after the last word only when the title was cut at 150
    characters. *)
Theorem normalized_title_normal_form t :
  let n := normalize_str t in
  normalize_title (JStr t) = Ok n
  /\ (length n <= 150)%nat
  /\ lower n = n
  /\ (forall p, p ∈ punctuation -> ~ occurs p n)
  /\ exists ws, Forall word ws
       /\ (n = join [SPACE] ws
           \/ (length n = 150%nat /\ n = join [SPACE] ws ++ [SPACE])).
Proof.
  intros n. split; [apply normalize_title_str|].
  split; [apply normalize_str_length|].
  split; [apply lower_fixed_id, normalize_str_fixed|].
  split; [intros p; apply normalize_str_free|].
  destruct (normalize_str_shape t) as (ws & Hws & [E|[Hne E]]);
    exists ws; (split; [done|]); [by left|].
  right. split; [|done].
  (* a normalized string that ends with a space was cut *)
  pose proof (normalize_str_length t) as Hle.
  destruct (decide (length n = 150%nat)) as [|Hlt]; [done|]. exfalso.
  assert (Hcut : n = join [SPACE]
            (split_ws (replace_all punctuation
                         (join [SPACE] (split_ws (lower t)))))).
  { unfold n. rewrite normalize_str_eq. rewrite take_ge; [done|].
    fold n in Hle. unfold n in Hlt. rewrite normalize_str_eq in Hlt.
    rewrite length_take in Hlt. lia. }
  assert (Hlast : last n = Some SPACE).
  { unfold n. rewrite E. by rewrite last_snoc. }
  rewrite Hcut in Hlast. apply join_last in Hlast; [|apply split_ws_words].
  by vm_compute in Hlast.
Qed.

Lemma normalized_title_normal_form_witness :
  normalize_title (JStr (lit "Attention: Is  All-You Need"))
  = Ok (lit "attention is all you need")
  /\ ~ occurs (lit ":") (normalize_str (lit "Attention: Is  All-You Need"))
  /\ (length (normalize_str long_title) = 150)%nat
  /\ lower (normalize_str long_title) = normalize_str long_title.
Proof.
  split; [vm_compute; reflexivity|].
  destruct (normalized_title_normal_form (lit "Attention: Is  All-You Need"))
    as (_ & _ & _ & Hfree & _).
  split; [apply Hfree; vm_compute; by left|].
  split; [vm_compute; reflexivity|].
  by destruct (normalized_title_normal_form long_title) as (_ & _ & Hl & _).
Defined.

(** *** arXiv identifiers *)

(** An ASCII digit. *)
Definition ascii_digit (c : N) : Prop := (48 <= c <= 57)%N.

(** An arXiv identifier of the new scheme: digits, a dot, digits. *)
Definition arxiv_number (d1 d2 : pystr) : Prop :=
  d1 <> [] /\ d2 <> [] /\ Forall ascii_digit d1 /\ Forall ascii_digit d2.

Lemma ascii_digit_is_digit c : ascii_digit c -> is_digit c = true.
Proof.
  intros [H1 H2]. unfold is_digit. apply existsb_exists. exists 48%N.
  split; [by left|]. apply andb_true_iff. split; apply N.leb_le; lia.
Qed.

Lemma ascii_digit_lower c : ascii_digit c -> lower_char c = c.
Proof.
  intros [H1 H2]. unfold lower_char.
  destruct ((65 <=? c) && (c <=? 90)
            || (192 <=? c) && (c <=? 222) && negb (c =? 215))%N eqn:E; [|done].
  apply orb_true_iff in E as [E|E].
  - apply andb_true_iff in E as [E _]. apply N.leb_le in E. lia.
  - apply andb_true_iff in E as [E _]. apply andb_true_iff in E as [E _].
    apply N.leb_le in E. lia.
Qed.

Lemma search_of_match s g :
  match_arxiv_doi_at s = Some g -> search_arxiv_doi s = Some g.
Proof. intros H. destruct s; cbn [search_arxiv_doi]; by rewrite H. Qed.

(** The pattern finds the identifier of an arXiv DOI. *)
Lemma search_arxiv_doi_number d1 d2 :
  arxiv_number d1 d2 ->
  search_arxiv_doi (lit "10.48550/arxiv." ++ d1 ++ 46%N :: d2)
  = Some (d1 ++ 46%N :: d2).
Proof.
  intros (Hne1 & Hne2 & Hd1 & Hd2). apply search_of_match.
  assert (Hdig : forall d, Forall ascii_digit d ->
            Forall (fun c => is_digit c = true) d).
  { intros d Hd. eapply Forall_impl; [exact Hd|]. apply ascii_digit_is_digit. }
  unfold match_arxiv_doi_at. cbv zeta.
  assert (starts_with (lit "10.48550/arxiv.")
            (lit "10.48550/arxiv." ++ d1 ++ 46%N :: d2) = true) as ->.
  { apply starts_with_spec. by eexists. }
  rewrite drop_app_length.
  rewrite (take_while_all _ _ (Hdig _ Hd1)), (drop_while_all _ _ (Hdig _ Hd1)).
  cbn [take_while drop_while].
  assert (is_digit 46 = false) as -> by (by vm_compute).
  rewrite app_nil_r.
  destruct d1 as [|c1 d1]; [done|].
  rewrite <- (app_nil_r d2) at 1.
  rewrite (take_while_all _ _ (Hdig _ Hd2)). cbn [take_while]. rewrite app_nil_r.
  by destruct d2.
Qed.

(** A record without a title whose DOI is the arXiv DOI of an identifier
    and a record without a title that carries the identifier itself get
    the same key, whatever the letter case of the DOI's prefix. *)
Theorem arxiv_doi_same_key paper paper' (p d1 d2 : pystr) :
  well_typed paper = true -> well_typed paper' = true ->
  field_text paper "title" = [] -> field_text paper' "title" = [] ->
  arxiv_number d1 d2 ->
  lower p = lit "10.48550/arxiv." ->
  field_text paper "doi" = p ++ d1 ++ 46%N :: d2 ->
  search_arxiv_doi (lower (field_text paper' "doi")) = None ->
  field_text paper' "arxiv_id" = d1 ++ 46%N :: d2 ->
  get_paper_key paper = Ok (Some (lit "arxiv:" ++ d1 ++ 46%N :: d2))
  /\ get_paper_key paper' = Ok (Some (lit "arxiv:" ++ d1 ++ 46%N :: d2)).
Proof.
  intros Hwt Hwt' Ht Ht' Hnum Hp Hdoi Hdoi' Hid.
  assert (Hlow : lower (d1 ++ 46%N :: d2) = d1 ++ 46%N :: d2).
  { destruct Hnum as (_ & _ & Hd1 & Hd2). apply lower_fixed_id.
    apply Forall_app. split.
    - eapply Forall_impl; [exact Hd1|]. apply ascii_digit_lower.
    - constructor; [done|]. eapply Forall_impl; [exact Hd2|].
      apply ascii_digit_lower. }
  assert (Hnil : normalize_str [] = []) by (by vm_compute).
  rewrite (analyze_key_resolve _ Hwt), (analyze_key_resolve _ Hwt').
  unfold namespaces. rewrite Ht, Ht', Hnil, Hdoi, Hdoi', Hid.
  split.
  - unfold lower at 1. rewrite map_app. fold (lower p).
    fold (lower (d1 ++ 46%N :: d2)).
    rewrite Hp, Hlow, (search_arxiv_doi_number _ _ Hnum).
    cbn [in_namespace first_satisfied default from_option id].
    destruct Hnum as (Hne & _). by destruct d1.
  - rewrite Hlow. cbn [in_namespace first_satisfied default from_option id].
    destruct Hnum as (Hne & _). by destruct d1.
Qed.

Lemma arxiv_doi_same_key_witness :
  get_paper_key (JDict [kv "doi" (jstr "10.48550/arXiv.2201.05125")])
  = Ok (Some (lit "arxiv:2201.05125"))
  /\ get_paper_key (JDict [kv "doi" (jstr "10.1000/J.X"); kv "title" JNull;
                           kv "arxiv_id" (jstr "2201.05125")])
     = Ok (Some (lit "arxiv:2201.05125")).
Proof.
  apply (arxiv_doi_same_key _ _ (lit "10.48550/arXiv.") (lit "2201") (lit "05125"));
    try (vm_compute; reflexivity).
  split; [done|]. split; [done|].
  split; apply (bool_decide_unpack _); by vm_compute.
Defined.

End AnalysisKeys.

(** ** Node labels *)

Section NodeLabels.

Import Visualize.

(** The label of a node title: ["Unknown"] for a missing or empty title,
    the title itself when it has at most [max_len] characters, and
    otherwise its first [max_len - 3] characters and three dots, which
    makes exactly [max_len] characters when [max_len] is 3 or more and
    more than [max_len] when it is less. *)
Theorem truncate_title_bounded (t : pystr) (max_len : Z) :
  truncate_title JNull max_len = Ok (JStr (lit "Unknown"))
  /\ exists s,
       truncate_title (JStr t) max_len = Ok (JStr s)
       /\ s <> []
       /\ (t = [] -> s = lit "Unknown")
       /\ (t <> [] -> (Z.of_nat (length t) <= max_len)%Z -> s = t)
       /\ (t <> [] -> (max_len < Z.of_nat (length t))%Z -> (3 <= max_len)%Z ->
           s = take (Z.to_nat (max_len - 3)) t ++ lit "..."
           /\ Z.of_nat (length s) = max_len)
       /\ (t <> [] -> (max_len < Z.of_nat (length t))%Z -> (max_len < 3)%Z ->
           (max_len < Z.of_nat (length s))%Z).
Proof.
  split; [done|]. destruct t as [|c t].
  { exists (lit "Unknown"). by repeat split. }
  unfold truncate_title. cbn [truthy negb py_len mbind result_bind Py.bind].
  destruct (Z.of_nat (length (c :: t)) <=? max_len)%Z eqn:Ele.
  - apply Z.leb_le in Ele. exists (c :: t). split; [done|]. split; [done|].
    split; [done|]. split; [done|]. split; intros _ Hlt; lia.
  - apply Z.leb_gt in Ele. eexists. split; [done|].
    split; [intros H; by apply app_eq_nil in H as [_ H]|].
    split; [done|]. split; [intros _ Hle; lia|]. split.
    + intros _ _ Hmax. unfold slice_to.
      destruct (max_len - 3 <? 0)%Z eqn:Eneg; [apply Z.ltb_lt in Eneg; lia|].
      split; [done|]. rewrite length_app, length_take. simpl length in *. lia.
    + intros _ _ Hmax. rewrite length_app. simpl length. lia.
Qed.

Lemma truncate_title_bounded_witness :
  truncate_title (JStr (repeat 97%N 40)) 30
  = Ok (JStr (repeat 97%N 27 ++ lit "..."))
  /\ truncate_title (jstr "abcdef") 2 = Ok (jstr "abcde...")
  /\ truncate_title JNull 30 = Ok (jstr "Unknown").
Proof.
  split; [vm_compute; reflexivity|]. split; [vm_compute; reflexivity|].
  exact (proj1 (truncate_title_bounded [] 30)).
Defined.

End NodeLabels.

(** ** DOIs handed to the providers *)

Section DOIs.

Import Fetch.

Implicit Types (s p d : pystr).

Lemma length_lower s : length (lower s) = length s.
Proof. unfold lower. apply length_map. Qed.

Lemma lower_app s s' : lower (s ++ s') = lower s ++ lower s'.
Proof. unfold lower. apply map_app. Qed.

Lemma lower_take n s : lower (take n s) = take n (lower s).
Proof. unfold lower. by rewrite fmap_take. Qed.

(** The prefixes exclude each other. *)
Lemma doi_prefixes_exclusive x :
  starts_with (lit "https://doi.org/") (lit "http://doi.org/" ++ x) = false
  /\ starts_with (lit "https://doi.org/") (lit "doi:" ++ x) = false
  /\ starts_with (lit "http://doi.org/") (lit "doi:" ++ x) = false.
Proof. by vm_compute. Qed.

(** [normalize_doi] removes the white space around its argument and then
    one prefix [https://doi.org/], [http://doi.org/] or [doi:], in any
    letter case; what follows the prefix is returned as it is.  Without
    such a prefix the stripped argument is returned. *)
Theorem normalize_doi_spec s :
  (forall p d, strip s = p ++ d -> lower p ∈ doi_prefixes ->
     normalize_doi s = d)
  /\ ((forall p d, strip s = p ++ d -> lower p ∉ doi_prefixes) ->
      normalize_doi s = strip s).
Proof.
  unfold normalize_doi. split.
  - intros p d -> Hp.
    assert (Hlen : length p = length (lower p)) by (by rewrite length_lower).
    assert (Hstart : starts_with (lower p) (lower (p ++ d)) = true).
    { apply starts_with_spec. exists (lower d). apply lower_app. }
    assert (Hdrop : drop (length (lower p)) (p ++ d) = d).
    { rewrite <- Hlen. apply drop_app_length. }
    destruct (doi_prefixes_exclusive (lower d)) as (E1 & E2 & E3).
    unfold doi_prefixes in Hp.
    rewrite !elem_of_cons, elem_of_nil in Hp.
    destruct Hp as [Hp|[Hp|[Hp|[]]]]; rewrite Hp in Hstart, Hdrop.
    + unfold doi_prefixes, strip_prefix.
      change (lower (lit "https://doi.org/")) with (lit "https://doi.org/").
      by rewrite Hstart.
    + unfold doi_prefixes, strip_prefix.
      change (lower (lit "https://doi.org/")) with (lit "https://doi.org/").
      change (lower (lit "http://doi.org/")) with (lit "http://doi.org/").
      rewrite Hstart. by rewrite lower_app, Hp, E1.
    + unfold doi_prefixes, strip_prefix.
      change (lower (lit "https://doi.org/")) with (lit "https://doi.org/").
      change (lower (lit "http://doi.org/")) with (lit "http://doi.org/").
      change (lower (lit "doi:")) with (lit "doi:").
      rewrite Hstart. by rewrite lower_app, Hp, E2, E3.
  - intros Hnone.
    assert (Hno : forall prefix, prefix ∈ doi_prefixes ->
              starts_with (lower prefix) (lower (strip s)) = false).
    { intros prefix Hin.
      destruct (starts_with (lower prefix) (lower (strip s))) eqn:E; [|done].
      exfalso. apply starts_with_spec in E as (b & E).
      apply (Hnone (take (length prefix) (strip s))
                   (drop (length prefix) (strip s))).
      - by rewrite take_drop.
      - rewrite lower_take, E, <- (length_lower prefix), take_app_length.
        revert Hin. unfold doi_prefixes.
        rewrite !elem_of_cons, elem_of_nil.
        intros [->|[->|[->|[]]]]; vm_compute; auto. }
    unfold doi_prefixes in *. cbn [strip_prefix].
    rewrite !Hno; [done| | |]; rewrite !elem_of_cons; auto.
Qed.

Lemma normalize_doi_spec_witness :
  normalize_doi (lit "  DOI:doi:10.1/X ") = lit "doi:10.1/X"
  /\ normalize_doi (lit " 10.1/X") = lit "10.1/X".
Proof.
  destruct (normalize_doi_spec (lit "  DOI:doi:10.1/X ")) as [H _].
  destruct (normalize_doi_spec (lit " 10.1/X")) as [_ H'].
  split.
  - apply (H (lit "DOI:")); vm_compute; [reflexivity|]. right. right. by left.
  - rewrite H'; [by vm_compute|]. intros p d Hs Hp.
    assert (lit "10.1/X" = p ++ d) as Hs' by exact Hs. clear Hs.
    revert Hp. unfold doi_prefixes. rewrite !elem_of_cons, elem_of_nil.
    intros [Hp|[Hp|[Hp|[]]]]; destruct p as [|c p]; try discriminate Hp;
      injection Hs' as <- _; discriminate Hp.
Defined.

(** *** The arXiv identifier of a DOI *)

Lemma split_fuel_skip x sep a b cur fuel :
  Forall (fun c => c <> x) a ->
  split_fuel (length a + fuel) (x :: sep) (a ++ b) cur
  = split_fuel fuel (x :: sep) b (rev a ++ cur).
Proof.
  intros Ha. revert cur. induction Ha as [|c a Hc _ IH]; intros cur; [done|].
  cbn [length Nat.add app split_fuel starts_with].
  assert ((x =? c)%N = false) as -> by (apply N.eqb_neq; congruence).
  cbn [andb]. rewrite IH. cbn [rev]. by rewrite <- app_assoc.
Qed.

Lemma split_fuel_end x sep a cur fuel :
  Forall (fun c => c <> x) a ->
  split_fuel (length a + S fuel) (x :: sep) a cur = [rev cur ++ a].
Proof.
  intros Ha. rewrite <- (app_nil_r a) at 2.
  rewrite (split_fuel_skip _ _ _ _ _ _ Ha). cbn [split_fuel].
  by rewrite rev_app_distr, rev_involutive.
Qed.

Lemma arxiv_number_plain d1 d2 :
  arxiv_number d1 d2 ->
  lower (d1 ++ 46%N :: d2) = d1 ++ 46%N :: d2
  /\ Forall (fun c => c <> 97%N) (d1 ++ 46%N :: d2).
Proof.
  intros (_ & _ & Hd1 & Hd2). split.
  - apply lower_fixed_id, Forall_app. split.
    + eapply Forall_impl; [exact Hd1|]. apply ascii_digit_lower.
    + constructor; [done|]. eapply Forall_impl; [exact Hd2|].
      apply ascii_digit_lower.
  - apply Forall_app. split.
    + eapply Forall_impl; [exact Hd1|]. intros c [? ?]. lia.
    + constructor; [done|]. eapply Forall_impl; [exact Hd2|].
      intros c [? ?]. lia.
Qed.

(** [extract_arxiv_id] returns the identifier of a DOI whose normalized
    form is [10.48550/arXiv.] followed by digits, a dot and digits.  The
    split is on ["arXiv."] as written: when the DOI spells the prefix in
    lower case no identifier is returned, although the analysis finds
    one in the same DOI. *)
Theorem extract_arxiv_id_number s d1 d2 :
  arxiv_number d1 d2 ->
  (normalize_doi s = lit "10.48550/arXiv." ++ d1 ++ 46%N :: d2 ->
   extract_arxiv_id s = Some (d1 ++ 46%N :: d2))
  /\ (normalize_doi s = lit "10.48550/arxiv." ++ d1 ++ 46%N :: d2 ->
      extract_arxiv_id s = None
      /\ Analyze.extract_arxiv_id_from_doi (JStr (normalize_doi s))
         = Ok (Some (d1 ++ 46%N :: d2))).
Proof.
  intros Hnum. destruct (arxiv_number_plain _ _ Hnum) as [Hlow Hplain].
  set (x := d1 ++ 46%N :: d2) in *.
  assert (Hin : forall y, contains (lit "arxiv") (lit "10.48550/arxiv." ++ y)
                          = true) by (intros y; by vm_compute).
  assert (Hpre : Forall (fun c => c <> 97%N) (lit "10.48550/")).
  { apply (bool_decide_unpack _). by vm_compute. }
  split; intros Hs; unfold extract_arxiv_id; rewrite Hs; cbv zeta.
  - rewrite lower_app.
    change (lower (lit "10.48550/arXiv.")) with (lit "10.48550/arxiv.").
    rewrite Hin. unfold split_on.
    change (lit "10.48550/arXiv." ++ x)
      with (lit "10.48550/" ++ (lit "arXiv." ++ x)).
    replace (S (length (lit "10.48550/" ++ lit "arXiv." ++ x)))
      with (length (lit "10.48550/") + S (length x + S 5))%nat
      by (rewrite !length_app; simpl; lia).
    change (lit "arXiv.") with (97%N :: lit "rXiv.") at 1.
    rewrite (split_fuel_skip _ _ _ _ _ _ Hpre).
    change (lit "arXiv." ++ x) with (97%N :: lit "rXiv." ++ x).
    cbn [split_fuel].
    assert (starts_with (97%N :: lit "rXiv.") (97%N :: lit "rXiv." ++ x)
            = true) as ->.
    { apply starts_with_spec. by exists x. }
    change (drop (length (97%N :: lit "rXiv.")) (97%N :: lit "rXiv." ++ x))
      with (drop (length (lit "arXiv.")) (lit "arXiv." ++ x)).
    rewrite drop_app_length.
    by rewrite (split_fuel_end _ _ _ _ _ Hplain).
  - split.
    + rewrite lower_app.
      change (lower (lit "10.48550/arxiv.")) with (lit "10.48550/arxiv.").
      rewrite Hin. unfold split_on.
      change (lit "10.48550/arxiv." ++ x)
        with (lit "10.48550/" ++ (97%N :: lit "rxiv." ++ x)).
      replace (S (length (lit "10.48550/" ++ 97%N :: lit "rxiv." ++ x)))
        with (length (lit "10.48550/")
              + S (length (lit "rxiv." ++ x) + S 0))%nat
        by (rewrite !length_app; simpl; lia).
      change (lit "arXiv.") with (97%N :: lit "rXiv.").
      rewrite (split_fuel_skip _ _ _ _ _ _ Hpre).
      cbn [split_fuel].
      assert (starts_with (97%N :: lit "rXiv.") (97%N :: lit "rxiv." ++ x)
              = false) as -> by (by vm_compute).
      rewrite split_fuel_end; [done|].
      apply Forall_app. split; [|done].
      apply (bool_decide_unpack _). by vm_compute.
    + unfold Analyze.extract_arxiv_id_from_doi.
      cbn [truthy app negb py_lower mbind result_bind Py.bind].
      rewrite lower_app. fold x. rewrite Hlow.
      change (lower (lit "10.48550/arxiv.")) with (lit "10.48550/arxiv.").
      change (lit "10.48550/arxiv." ++ x)
        with (49%N :: (lit "0.48550/arxiv." ++ x)) at 1.
      cbn [negb]. unfold x. by rewrite (search_arxiv_doi_number _ _ Hnum).
Qed.

Lemma extract_arxiv_id_number_witness :
  extract_arxiv_id (lit "https://doi.org/10.48550/arXiv.2201.05125")
  = Some (lit "2201.05125")
  /\ extract_arxiv_id (lit "10.48550/arxiv.2201.05125") = None.
Proof.
  assert (arxiv_number (lit "2201") (lit "05125")) as Hnum.
  { split; [done|]. split; [done|].
    split; apply (bool_decide_unpack _); by vm_compute. }
  split.
  - apply (proj1 (extract_arxiv_id_number _ _ _ Hnum)). by vm_compute.
  - apply (proj2 (extract_arxiv_id_number _ _ _ Hnum)). by vm_compute.
Defined.

End DOIs.

(** ** Records of the two providers *)

Section ProviderRecords.

Import Fetch.

Implicit Types (h : store) (a b : loc) (w rec : odict json) (r : json).

(** The nine fields of a record extracted from an OpenAlex work. *)
Definition openalex_fields : list string :=
  ["openalex_id"; "doi"; "title"; "authors"; "year"; "venue"; "type";
   "cited_by_count"; "source"]%string.

(** The nine fields of a record extracted from a Semantic Scholar paper. *)
Definition s2_fields : list string :=
  ["s2_id"; "doi"; "arxiv_id"; "title"; "authors"; "year"; "venue";
   "cited_by_count"; "source"]%string.

(** The value of [obj.get(k, dflt)] on an object. *)
Definition get_or (dflt : json) (k : string) w : json :=
  default dflt (dict_lookup (lit k) w).

(** The DOI without the resolver's address. *)
Definition bare_doi (doi : json) : json :=
  match doi with
  | JStr d => if starts_with (lit "https://doi.org/") d
              then JStr (drop 16 d) else doi
  | _ => doi
  end.

(** What a successful extraction from an OpenAlex work returns. *)
Lemma openalex_record_inv w r :
  openalex_extract_metadata (JDict w) = Ok r ->
  exists rec authors,
    r = JDict rec
    /\ od_keys rec = map lit openalex_fields
    /\ dict_lookup (lit "source") rec = Some (jstr "openalex")
    /\ dict_lookup (lit "doi") rec = Some (bare_doi (get_or (JStr []) "doi" w))
    /\ dict_lookup (lit "openalex_id") rec = Some (get_or (JStr []) "id" w)
    /\ dict_lookup (lit "title") rec = Some (get_or (JStr []) "title" w)
    /\ dict_lookup (lit "year") rec = Some (get_or JNull "publication_year" w)
    /\ dict_lookup (lit "type") rec = Some (get_or (JStr []) "type" w)
    /\ dict_lookup (lit "cited_by_count") rec
       = Some (get_or (JNum 0) "cited_by_count" w)
    /\ dict_lookup (lit "authors") rec = Some (JList authors)
    /\ dict_lookup (lit "arxiv_id") rec = None
    /\ dict_lookup (lit "s2_id") rec = None.
Proof.
  unfold openalex_extract_metadata. cbn [py_get mbind result_bind Py.bind].
  intros H.
  apply bind_Ok in H as (items & _ & H).
  apply bind_Ok in H as (authors & _ & H).
  apply bind_Ok in H as (src & _ & H).
  apply bind_Ok in H as (venue & _ & H).
  apply bind_Ok in H as (doi & Hdoi & H).
  injection H as <-.
  assert (doi = bare_doi (get_or (JStr []) "doi" w)) as ->.
  { unfold get_or, bare_doi.
    destruct (default (JStr []) (dict_lookup (lit "doi") w)) as [|b|z|d|l|o].
    - cbn [truthy] in Hdoi. by injection Hdoi as <-.
    - destruct b; cbn [truthy] in Hdoi; [done | by injection Hdoi as <-].
    - cbn [truthy] in Hdoi.
      destruct (negb (z =? 0)%Z); [done | by injection Hdoi as <-].
    - destruct d as [|c d]; cbn [truthy] in Hdoi; [by injection Hdoi as <-|].
      destruct (starts_with (lit "https://doi.org/") (c :: d));
        by injection Hdoi as <-.
    - destruct l; cbn [truthy] in Hdoi; [by injection Hdoi as <- | done].
    - destruct o; cbn [truthy] in Hdoi; [by injection Hdoi as <- | done]. }
  eexists _, authors. split; [reflexivity|].
  split; [by vm_compute|]. by repeat (split; [by vm_compute|]).
Qed.


(** A work as OpenAlex returns it, with no location. *)
Definition sample_work : odict json :=
  [kv "id" (jstr "W1"); kv "doi" (jstr "https://doi.org/10.1/X");
   kv "primary_location" JNull;
   kv "authorships"
     (JList [JDict [kv "author" (JDict [kv "display_name" (jstr "A. B.")])]])].


(** The object the fields of a Semantic Scholar record are read from: the
    value under ["citingPaper"], else the value under ["citedPaper"],
    else the object itself. *)
Definition unwrapped (pd0 : odict json) : json :=
  match dict_lookup (lit "citingPaper") pd0 with
  | Some v => v
  | None => match dict_lookup (lit "citedPaper") pd0 with
            | Some v => v
            | None => JDict pd0
            end
  end.

Lemma s2_unwrap_dict pd0 : s2_unwrap (JDict pd0) = Ok (unwrapped pd0).
Proof.
  unfold s2_unwrap, unwrapped, py_in, py_item.
  cbn [mbind result_bind Py.bind].
  destruct (dict_lookup (lit "citingPaper") pd0); [done|].
  cbn [mbind result_bind Py.bind].
  by destruct (dict_lookup (lit "citedPaper") pd0).
Qed.

(** The external identifiers of a paper: [externalIds], or no identifier
    when that is missing, [null] or empty. *)
Definition external_ids (pd : odict json) : json :=
  if truthy (get_or (JDict []) "externalIds" pd)
  then get_or (JDict []) "externalIds" pd else JDict [].

(** What a successful extraction from a Semantic Scholar item returns. *)
Lemma s2_record_inv (pd0 : odict json) r :
  s2_extract_metadata (JDict pd0) = Ok r ->
  if truthy (unwrapped pd0) then
    exists pd rec authors xd,
      unwrapped pd0 = JDict pd /\ r = JDict rec
      /\ external_ids pd = JDict xd
      /\ od_keys rec = map lit s2_fields
      /\ dict_lookup (lit "source") rec = Some (jstr "semantic_scholar")
      /\ dict_lookup (lit "doi") rec = Some (get_or (JStr []) "DOI" xd)
      /\ dict_lookup (lit "arxiv_id") rec = Some (get_or (JStr []) "ArXiv" xd)
      /\ dict_lookup (lit "s2_id") rec = Some (get_or (JStr []) "paperId" pd)
      /\ dict_lookup (lit "title") rec = Some (get_or (JStr []) "title" pd)
      /\ dict_lookup (lit "year") rec = Some (get_or JNull "year" pd)
      /\ dict_lookup (lit "venue") rec = Some (get_or (JStr []) "venue" pd)
      /\ dict_lookup (lit "cited_by_count") rec
         = Some (get_or (JNum 0) "citationCount" pd)
      /\ dict_lookup (lit "authors") rec = Some (JList authors)
      /\ dict_lookup (lit "openalex_id") rec = None
  else r = JNull.
Proof.
  unfold s2_extract_metadata. rewrite s2_unwrap_dict.
  cbn [mbind result_bind Py.bind].
  destruct (truthy (unwrapped pd0)) eqn:Et; cbn [negb];
    [|by intros [= <-]].
  destruct (unwrapped pd0) as [| | | | |pd]; try done.
  cbn [py_get mbind result_bind Py.bind]. intros H.
  apply bind_Ok in H as (items & _ & H).
  apply bind_Ok in H as (authors & _ & H).
  fold (get_or (JDict []) "externalIds" pd) in H.
  fold (external_ids pd) in H.
  apply bind_Ok in H as (doi & Hdoi & H).
  apply bind_Ok in H as (arxiv_id & Harxiv & H).
  injection H as <-.
  destruct (external_ids pd) as [| | | | |xd] eqn:Ex; try done.
  cbn [py_get] in Hdoi, Harxiv.
  injection Hdoi as <-. injection Harxiv as <-.
  exists pd. eexists _, authors, xd.
  split; [done|]. split; [reflexivity|]. split; [exact Ex|].
  split; [by vm_compute|]. by repeat (split; [by vm_compute|]).
Qed.


(** An item of the citations endpoint. *)
Definition sample_citation : odict json :=
  [kv "citingPaper"
     (JDict [kv "paperId" (jstr "abc"); kv "title" (jstr "T");
             kv "externalIds" (JDict [kv "DOI" (jstr "10.1/x");
                                      kv "ArXiv" (jstr "2201.05125")]);
             kv "authors" (JList [JDict [kv "name" (jstr "A. B.")];
                                  JDict [kv "name" JNull]])])].


(** *** The same paper from both providers *)

Lemma lit_not_merged (g : string) :
  g = "source"%string \/ g = "openalex_id"%string \/ g = "s2_id"%string ->
  lit g ∉ map lit merged_fields.
Proof.
  intros [->|[->| ->]]; apply (bool_decide_unpack _); by vm_compute.
Qed.

(** A paper that OpenAlex and Semantic Scholar both know under the same
    DOI, letter case apart, becomes one record: merging the two extracted
    records returns the OpenAlex record alone, under the key of the DOI,
    marked as coming from both providers, with the arXiv identifier and
    every other merged field it lacked taken from the Semantic Scholar
    record; the Semantic Scholar identifier is not carried over. *)
Theorem providers_merge h a b w pd0 oa s2 (d d' : pystr) :
  a <> b ->
  openalex_extract_metadata (JDict w) = Ok (JDict oa) -> h a = oa ->
  s2_extract_metadata (JDict pd0) = Ok (JDict s2) -> h b = s2 ->
  dict_lookup (lit "doi") oa = Some (JStr d) ->
  dict_lookup (lit "doi") s2 = Some (JStr d') ->
  d <> [] -> lower d' = lower d ->
  exists h',
    merge_paper_lists h [Some a] [Some b] = Ok (h', [a])
    /\ get_paper_key h' a = Ok (lit "doi:" ++ lower d)
    /\ field_of h' a "source" = jstr "openalex+semantic_scholar"
    /\ (forall f, f ∈ merged_fields -> field_of h' a f = merged_value h a b f)
    /\ field_of h' a "arxiv_id"
       = (if truthy (field_of h b "arxiv_id") then field_of h b "arxiv_id"
          else JNull)
    /\ field_of h' a "openalex_id" = field_of h a "openalex_id"
    /\ field_of h' a "s2_id" = JNull
    /\ h' b = h b.
Proof.
  intros Hab Hoa Ha Hs2 Hb Hd Hd' Hne Hlow.
  apply openalex_record_inv in Hoa
    as (rec & authors & [= <-] & _ & Hsrc & _ & _ & _ & _ & _ & _ & _
        & Harx & Hs2id).
  apply s2_record_inv in Hs2.
  destruct (truthy (unwrapped pd0)); [|done].
  destruct Hs2 as (pd & rec' & authors' & xd & _ & [= <-] & _ & _ & Hsrc' & _).
  subst oa s2.
  assert (Hda : field_of h a "doi" = JStr d) by (unfold field_of; by rewrite Hd).
  assert (Hdb : field_of h b "doi" = JStr d')
    by (unfold field_of; by rewrite Hd').
  assert (Hne' : d' <> []).
  { intros ->. apply Hne. apply lower_nil_iff. by rewrite <- Hlow. }
  assert (Hkey : forall x y c, key_of_fields (JStr d) x y c
                               = Ok (lit "doi:" ++ lower d)).
  { intros x y c. unfold key_of_fields. by destruct d. }
  assert (Hka : get_paper_key h a = Ok (lit "doi:" ++ lower d)).
  { rewrite get_paper_key_fields, Hda. by apply Hkey. }
  assert (Hkb : get_paper_key h b = Ok (lit "doi:" ++ lower d)).
  { rewrite get_paper_key_fields, Hdb. unfold key_of_fields.
    destruct d' as [|c d']; [done|]. cbn [truthy py_lower mbind result_bind Py.bind].
    by rewrite Hlow. }
  set (k := lit "doi:" ++ lower d) in *.
  set (h1 := fold_left (merge_field a b) merged_fields h).
  exists (merge_source a b h1).
  assert (Hstep1 : merge_step (h, []) (Some a) = Ok (h, [(k, a)])).
  { unfold merge_step. rewrite Hka. done. }
  assert (Hstep2 : merge_step (h, [(k, a)]) (Some b)
                   = Ok (merge_source a b h1, [(k, a)])).
  { unfold merge_step. rewrite Hkb. cbn [mbind result_bind Py.bind od_lookup].
    by rewrite str_eqb_refl. }
  destruct (merge_existing_inv h a b Hab) as (Hframe & Hfields).
  fold h1 in Hframe, Hfields.
  destruct (merge_fields_inv merged_fields h a b Hab) as (Hframe1 & _ & Hother1).
  { apply (bool_decide_unpack _). by vm_compute. }
  fold h1 in Hframe1, Hother1.
  destruct (merge_source_inv h1 a b Hab) as (_ & Hother).
  assert (Hkept : forall g : string,
    g = "openalex_id"%string \/ g = "s2_id"%string ->
    field_of (merge_source a b h1) a g = field_of h a g).
  { intros g Hg. rewrite Hother, Hother1; [done| |].
    - apply lit_not_merged. tauto.
    - destruct Hg as [-> | ->]; by vm_compute. }
  split; [|split; [|split; [|split; [|split; [|split; [|split]]]]]].
  - unfold merge_paper_lists. cbn [app foldM].
    rewrite Hstep1. cbn [Py.bind]. rewrite Hstep2. done.
  - rewrite get_paper_key_fields.
    assert (field_of (merge_source a b h1) a "doi" = JStr d) as ->.
    { rewrite Hfields by (vm_compute; by left). unfold merged_value.
      rewrite Hda. by destruct d. }
    by apply Hkey.
  - unfold merge_source.
    fold (field_of h1 a "source"). fold (field_of h1 b "source").
    rewrite (Hother1 "source"%string) by (apply lit_not_merged; by left).
    rewrite (field_of_ext h1 h b "source" (Hframe1 b (not_eq_sym Hab))).
    assert (field_of h a "source" = jstr "openalex") as ->
      by (unfold field_of; by rewrite Hsrc).
    assert (field_of h b "source" = jstr "semantic_scholar") as ->
      by (unfold field_of; by rewrite Hsrc').
    change (negb (py_eq (jstr "openalex") (jstr "semantic_scholar")))
      with true.
    cbv iota. apply field_of_set_same.
  - exact Hfields.
  - rewrite Hfields by (vm_compute; right; by left). unfold merged_value.
    assert (field_of h a "arxiv_id" = JNull) as ->
      by (unfold field_of; by rewrite Harx).
    by destruct (truthy (field_of h b "arxiv_id")).
  - apply Hkept. by left.
  - rewrite Hkept by (by right). unfold field_of. by rewrite Hs2id.
  - apply Hframe. by apply not_eq_sym.
Qed.

(** The store after the two extractions: the record of [sample_work] at
    location 0, the record of [sample_citation] at location 1. *)
Definition extracted : store :=
  fun a =>
    match a with
    | 0%nat => match openalex_extract_metadata (JDict sample_work) with
               | Ok (JDict rec) => rec
               | _ => []
               end
    | 1%nat => match s2_extract_metadata (JDict sample_citation) with
               | Ok (JDict rec) => rec
               | _ => []
               end
    | _ => []
    end.

Lemma providers_merge_witness :
  exists h',
    merge_paper_lists extracted [Some 0%nat] [Some 1%nat] = Ok (h', [0%nat])
    /\ get_paper_key h' 0%nat = Ok (lit "doi:10.1/x")
    /\ field_of h' 0%nat "source" = jstr "openalex+semantic_scholar"
    /\ field_of h' 0%nat "arxiv_id" = jstr "2201.05125"
    /\ field_of h' 0%nat "doi" = jstr "10.1/X"
    /\ field_of h' 0%nat "s2_id" = JNull.
Proof.
  destruct (providers_merge extracted 0%nat 1%nat sample_work sample_citation
              (extracted 0%nat) (extracted 1%nat) (lit "10.1/X") (lit "10.1/x"))
    as (h' & Hm & Hk & Hs & Hf & Hx & _ & Hs2 & _);
    try (vm_compute; reflexivity); try done.
  exists h'. split; [exact Hm|]. split; [exact Hk|]. split; [exact Hs|].
  split; [exact Hx|]. split; [|exact Hs2].
  rewrite Hf by (vm_compute; by left). vm_compute. reflexivity.
Defined.

(** *** Extracted records in the analysis *)

Lemma text_or_absent_default v :
  text_or_absent v = true -> text_or_absent (Some (default (JStr []) v)) = true.
Proof. by destruct v as [[| | | | |]|]. Qed.

Lemma text_or_absent_bare v :
  text_or_absent (Some v) = true -> text_or_absent (Some (bare_doi v)) = true.
Proof.
  destruct v as [| | |d| |]; try done. intros _. unfold bare_doi.
  by destruct (starts_with (lit "https://doi.org/") d).
Qed.

(** The records the fetcher writes can be keyed by the analysis and by
    the visualization: when identifier, DOI and title of an OpenAlex
    work are each missing, [null] or a string, the extracted record has
    identifying fields of that kind, and both key functions return on it
    without raising; likewise for a Semantic Scholar paper whose
    identifier and title, and whose external DOI and arXiv identifier,
    are each missing, [null] or a string. *)
Theorem extracted_records_keyed :
  (forall w r,
     openalex_extract_metadata (JDict w) = Ok r ->
     text_or_absent (dict_lookup (lit "id") w) = true ->
     text_or_absent (dict_lookup (lit "doi") w) = true ->
     text_or_absent (dict_lookup (lit "title") w) = true ->
     well_typed r = true
     /\ (exists k, Analyze.get_paper_key r = Ok k)
     /\ (exists k, Visualize.get_paper_key r = Ok k))
  /\ (forall pd0 pd xd r,
        s2_extract_metadata (JDict pd0) = Ok r ->
        unwrapped pd0 = JDict pd -> pd <> [] ->
        external_ids pd = JDict xd ->
        text_or_absent (dict_lookup (lit "paperId") pd) = true ->
        text_or_absent (dict_lookup (lit "title") pd) = true ->
        text_or_absent (dict_lookup (lit "DOI") xd) = true ->
        text_or_absent (dict_lookup (lit "ArXiv") xd) = true ->
        well_typed r = true
        /\ (exists k, Analyze.get_paper_key r = Ok k)
        /\ (exists k, Visualize.get_paper_key r = Ok k)).
Proof.
  assert (Hkeys : forall r, well_typed r = true ->
            well_typed r = true
            /\ (exists k, Analyze.get_paper_key r = Ok k)
            /\ (exists k, Visualize.get_paper_key r = Ok k)).
  { intros r Hr. split; [done|]. split; eexists.
    - by apply analyze_key_resolve.
    - by apply graph_key_resolve. }
  split.
  - intros w r H Hid Hdoi Htitle. apply Hkeys.
    apply openalex_record_inv in H
      as (rec & authors & -> & _ & _ & Hd & Ho & Ht & _ & _ & _ & _ & Ha & Hs).
    unfold well_typed, identifying_fields. cbn [forallb].
    rewrite Hd, Ho, Ht, Ha, Hs. unfold get_or.
    rewrite (text_or_absent_default _ Hid), (text_or_absent_default _ Htitle).
    rewrite text_or_absent_bare; [done|]. by apply text_or_absent_default.
  - intros pd0 pd xd r H Hp Hne Hx Hid Htitle Hdoi Harxiv. apply Hkeys.
    apply s2_record_inv in H. rewrite Hp in H.
    assert (truthy (JDict pd) = true) as Ht by (by destruct pd).
    rewrite Ht in H.
    destruct H as (pd' & rec & authors & xd' & [= <-] & -> & Hx' & _ & _
                   & Hd & Ha & Hs & Htt & _ & _ & _ & _ & Ho).
    rewrite Hx in Hx'. injection Hx' as <-.
    unfold well_typed, identifying_fields. cbn [forallb].
    rewrite Hd, Ha, Hs, Htt, Ho. unfold get_or.
    by rewrite (text_or_absent_default _ Hid), (text_or_absent_default _ Htitle),
      (text_or_absent_default _ Hdoi), (text_or_absent_default _ Harxiv).
Qed.

Lemma extracted_records_keyed_witness :
  (exists r k,
      openalex_extract_metadata (JDict sample_work) = Ok r
      /\ Analyze.get_paper_key r = Ok k /\ k = Some (lit "doi:10.1/x"))
  /\ (exists r k,
        s2_extract_metadata (JDict sample_citation) = Ok r
        /\ Analyze.get_paper_key r = Ok k /\ k = Some (lit "title:t")).
Proof.
  destruct extracted_records_keyed as [Hoa Hs2]. split.
  - destruct (Hoa sample_work _ eq_refl) as (_ & (k & Hk) & _);
      [reflexivity..|].
    eexists _, k. split; [reflexivity|]. split; [exact Hk|].
    vm_compute in Hk. by injection Hk as <-.
  - edestruct (Hs2 sample_citation) as (_ & (k & Hk) & _);
      [vm_compute; reflexivity | vm_compute; reflexivity | done
      | vm_compute; reflexivity | reflexivity..|].
    eexists _, k. split; [reflexivity|]. split; [exact Hk|].
    vm_compute in Hk. by injection Hk as <-.
Defined.

End ProviderRecords.
